(** * StreamCap: HLS playlist resolution and segment watching

    A shallow embedding of
    [app/core/platforms/platform_handlers/stream/test.py]
    (classes [Stream] and [Playlist]) and of
    [ChaturbateLiveStream.get_cb_play_url_list] in
    [app/core/platforms/platform_handlers/stream/MyLiveStream.py],
    followed by the properties of the variant selection, of the segment
    watcher and of the bandwidth sort.

    Conventions of the embedding.
    - A Python [str] is a [string]; a character is a code point below 256.
    - A Python [int] is a [Z].
    - A [float] that is only passed along (a duration handed to
      [time.sleep] or to the callback) is a rational [Q]; no float
      arithmetic is performed by the modelled code.
    - A [dict] is an association list in insertion order: assigning to an
      existing key keeps the key's position, a new key goes last.
    - Code that may raise returns [exc A]; [try]/[except] is a match on it.
    - The third-party pieces ([m3u8.M3U8], [urllib.parse.urljoin], the HTTP
      session and the consumer callback) are parameters. *)

From Stdlib Require Import ZArith List String Ascii Bool Lia QArith.
Import ListNotations.

Local Open Scope string_scope.
Local Open Scope list_scope.
Local Open Scope Z_scope.

(** ** Exceptions *)

(** The exceptions of class [Exception] that the modelled code meets;
    [LibraryError] stands for any other one raised by a collaborator. *)
Inductive exn : Type :=
| ValueError
| KeyError
| IndexError
| StopIteration
| HTTPError
| LibraryError (what : string).

Inductive exc (A : Type) : Type :=
| Ret (a : A)
| Raise (e : exn).

Arguments Ret {A} a.
Arguments Raise {A} e.

Definition ebind {A B : Type} (m : exc A) (k : A -> exc B) : exc B :=
  match m with
  | Ret a => k a
  | Raise e => Raise e
  end.

Declare Scope exc_scope.
Delimit Scope exc_scope with exc.
Notation "x <- m ;; k" := (ebind m (fun x => k))
  (at level 61, m at next level, right associativity) : exc_scope.

Fixpoint emap {A B : Type} (f : A -> exc B) (l : list A) : exc (list B) :=
  match l with
  | [] => Ret []
  | a :: l' =>
      match f a with
      | Raise e => Raise e
      | Ret b =>
          match emap f l' with
          | Raise e => Raise e
          | Ret bs => Ret (b :: bs)
          end
      end
  end.

(** ** Python built-ins used by the sources *)

Module Py.

(** [l[i]] for [0 <= i]; [IndexError] out of range. *)
Definition index {A : Type} (l : list A) (i : nat) : exc A :=
  match nth_error l i with
  | Some a => Ret a
  | None => Raise IndexError
  end.

Definition char_code (c : ascii) : Z := Z.of_nat (nat_of_ascii c).

(** [str.isspace] on one code point below 256. *)
Definition is_space (c : ascii) : bool :=
  let n := char_code c in
  ((9 <=? n) && (n <=? 13)) || ((28 <=? n) && (n <=? 32))
  || (n =? 133) || (n =? 160).

Definition is_digit (c : ascii) : bool :=
  let n := char_code c in (48 <=? n) && (n <=? 57).

Definition digit_val (c : ascii) : Z := char_code c - 48.

Fixpoint lstrip (s : string) : string :=
  match s with
  | String c s' => if is_space c then lstrip s' else s
  | EmptyString => EmptyString
  end.

Fixpoint rstrip (s : string) : string :=
  match s with
  | EmptyString => EmptyString
  | String c s' =>
      match rstrip s' with
      | EmptyString => if is_space c then EmptyString else String c EmptyString
      | r => String c r
      end
  end.

(** [s.strip()] *)
Definition strip (s : string) : string := rstrip (lstrip s).

(** [s.split(sep)] for a separator of one character, the only form the
    sources use. *)
Fixpoint split (sep : ascii) (s : string) : list string :=
  match s with
  | EmptyString => [EmptyString]
  | String c s' =>
      if Ascii.eqb c sep then EmptyString :: split sep s'
      else match split sep s' with
           | h :: t => String c h :: t
           | [] => [String c EmptyString]
           end
  end.

(** [c in s] for one character. *)
Fixpoint has_char (c : ascii) (s : string) : bool :=
  match s with
  | EmptyString => false
  | String a s' => Ascii.eqb a c || has_char c s'
  end.

(** [s.startswith(p)] *)
Fixpoint startswith (p s : string) : bool :=
  match p, s with
  | EmptyString, _ => true
  | String a p', String b s' => Ascii.eqb a b && startswith p' s'
  | String _ _, EmptyString => false
  end.

(** Index of the first occurrence of [p] in [s], counted from [i]. *)
Fixpoint find_from (p s : string) (i : Z) : option Z :=
  if startswith p s then Some i
  else match s with
       | EmptyString => None
       | String _ s' => find_from p s' (i + 1)
       end.

(** [p in s] *)
Definition contains (p s : string) : bool :=
  match find_from p s 0 with Some _ => true | None => false end.

(** Index of the last occurrence of [p] in [s], counted from [i]. *)
Fixpoint rfind_from (p s : string) (i : Z) : option Z :=
  match s with
  | EmptyString => if startswith p s then Some i else None
  | String _ s' =>
      match rfind_from p s' (i + 1) with
      | Some j => Some j
      | None => if startswith p s then Some i else None
      end
  end.

(** [s.rfind(p)]: the highest index where [p] occurs, [-1] if none. *)
Definition rfind (s p : string) : Z :=
  match rfind_from p s 0 with Some j => j | None => -1 end.

Fixpoint take (n : nat) (s : string) : string :=
  match n, s with
  | S n', String c s' => String c (take n' s')
  | _, _ => EmptyString
  end.

Definition len (s : string) : Z := Z.of_nat (String.length s).

(** [s[:k]]: a negative bound counts from the end, and every bound is
    clipped to the string. *)
Definition slice_to (s : string) (k : Z) : string :=
  if k <? 0 then take (Z.to_nat (Z.max 0 (len s + k))) s
  else take (Z.to_nat k) s.

(** [s.endswith(p)] *)
Definition endswith (p s : string) : bool :=
  let n := String.length s in
  let m := String.length p in
  (m <=? n)%nat && String.eqb (String.substring (n - m) m s) p.

(** [s.rsplit(sep, 1)[0]] for a separator of one character: [s] up to
    its last [sep], or all of [s] when it has none. *)
Definition rsplit1_head (sep : ascii) (s : string) : string :=
  match rfind_from (String sep EmptyString) s 0 with
  | Some j => take (Z.to_nat j) s
  | None => s
  end.

(** The interpreter's default bound on the digits of a decimal literal
    handed to [int] ([sys.int_info.default_max_str_digits]). *)
Definition int_max_str_digits : nat := 4300.

Fixpoint count_digits (s : string) : nat :=
  match s with
  | EmptyString => O
  | String c s' => if is_digit c then S (count_digits s') else count_digits s'
  end.

(** Digits with single underscores between them. [prev] tells whether
    the character just read was a digit. *)
Fixpoint int_digits (s : string) (prev : bool) (acc : Z) : option Z :=
  match s with
  | EmptyString => if prev then Some acc else None
  | String c s' =>
      if is_digit c then int_digits s' true (10 * acc + digit_val c)
      else if Ascii.eqb c "_" then
             if prev then int_digits s' false acc else None
           else None
  end.

Fixpoint all_digits (s : string) : bool :=
  match s with
  | EmptyString => true
  | String c s' => is_digit c && all_digits s'
  end.

(** The number a string of decimal digits denotes. *)
Fixpoint decimal (s : string) (acc : Z) : Z :=
  match s with
  | EmptyString => acc
  | String c s' => decimal s' (10 * acc + digit_val c)
  end.

(** The white space [int] passes over at the two ends of its argument:
    the characters of [str.isspace] but the separators U+001C to
    U+001F, which [int] rejects. *)
Definition is_int_space (c : ascii) : bool :=
  let n := char_code c in
  ((9 <=? n) && (n <=? 13)) || (n =? 32) || (n =? 133) || (n =? 160).

Fixpoint int_lstrip (s : string) : string :=
  match s with
  | String c s' => if is_int_space c then int_lstrip s' else s
  | EmptyString => EmptyString
  end.

Fixpoint int_rstrip (s : string) : string :=
  match s with
  | EmptyString => EmptyString
  | String c s' =>
      match int_rstrip s' with
      | EmptyString =>
          if is_int_space c then EmptyString else String c EmptyString
      | r => String c r
      end
  end.

(** [int(s)] on a [str], base ten: white space at the two ends, a sign,
    then digits with single underscores between them, no more of them
    than [int_max_str_digits]. *)
Definition int (s : string) : exc Z :=
  let body := int_rstrip (int_lstrip s) in
  let '(sign, ds) :=
    match body with
    | String "-" r => (-1, r)
    | String "+" r => (1, r)
    | _ => (1, body)
    end in
  match int_digits ds false 0 with
  | None => Raise ValueError
  | Some v =>
      if (int_max_str_digits <? count_digits ds)%nat then Raise ValueError
      else Ret (sign * v)
  end.

End Py.

(** ** Segment sequence numbers ([Playlist._parse_segment_seq]) *)

(** The [try] block: [Ret (Some n)] is [return n] from inside it,
    [Ret None] is falling out of the [if]. *)
Definition parse_segment_seq_try (uri : string) : exc (option Z) :=
  (let parts := Py.split "-" uri in
   if (1 <? List.length parts)%nat then
     p1 <- Py.index parts 1 ;;
     tok <- Py.index (Py.split "." p1) 0 ;;
     n <- Py.int tok ;;
     Ret (Some n)
   else Ret None)%exc.

(** The bare [except: pass] swallows everything; the function then falls
    through to [return -1]. *)
Definition _parse_segment_seq (uri : string) : exc Z :=
  match parse_segment_seq_try uri with
  | Ret (Some n) => Ret n
  | Ret None => Ret (-1)
  | Raise _ => Ret (-1)
  end.

(** ** Dictionaries in insertion order *)

Section Dict.
Context {K V : Type} (keq : K -> K -> bool).

(** [d.get(k)] *)
Fixpoint dict_get (k : K) (d : list (K * V)) : option V :=
  match d with
  | [] => None
  | (k', v) :: d' => if keq k k' then Some v else dict_get k d'
  end.

(** [k in d] *)
Definition dict_mem (k : K) (d : list (K * V)) : bool :=
  match dict_get k d with Some _ => true | None => false end.

(** [d[k]] *)
Definition dict_getitem (k : K) (d : list (K * V)) : exc V :=
  match dict_get k d with Some v => Ret v | None => Raise KeyError end.

(** [d[k] = v] *)
Fixpoint dict_set (k : K) (v : V) (d : list (K * V)) : list (K * V) :=
  match d with
  | [] => [(k, v)]
  | (k', v') :: d' =>
      if keq k k' then (k', v) :: d' else (k', v') :: dict_set k v d'
  end.

Definition dict_keys (d : list (K * V)) : list K := map fst d.
Definition dict_values (d : list (K * V)) : list V := map snd d.

(** [next(iter(d.items()))] *)
Definition dict_first_item (d : list (K * V)) : exc (K * V) :=
  match d with
  | [] => Raise StopIteration
  | kv :: _ => Ret kv
  end.
End Dict.

(** [max(x :: l, key=key)]: the first element whose key is greatest. *)
Definition max_by {A : Type} (key : A -> Z) (x : A) (l : list A) : A :=
  fold_left (fun best y => if key best <? key y then y else best) l x.

(** ** What the code reads of the third-party objects *)

Module M3U8.
(** [playlist.stream_info]: of the attributes of [StreamInfo], the code
    reads [resolution], a pair or [None]. *)
Record StreamInfo : Type := {
  resolution : option (Z * Z)
}.

(** [stream_info.name]: class [StreamInfo] has no attribute of that
    name (its attributes are [bandwidth], [resolution], [codecs],
    [frame_rate] and the like; the display name of a rendition is an
    attribute of [Media]), so that reading it raises
    [AttributeError]. *)
Definition name (stream_info : StreamInfo) : exc (option string) :=
  Raise (LibraryError "AttributeError").

(** An entry of [master.playlists]. *)
Record Variant : Type := {
  stream_info : StreamInfo;
  uri : string
}.

(** An entry of [media_playlist.segments]. *)
Record Segment : Type := {
  seg_uri : string;
  duration : Q
}.

(** A parsed manifest. *)
Record t : Type := {
  is_variant : bool;
  playlists : list Variant;
  segments : list Segment
}.

(** [bool(segment)]: the class defines neither [__bool__] nor [__len__],
    so its instances are all true. *)
Definition truthy (s : Segment) : bool := true.
End M3U8.

(** A [requests] response. *)
Record Response : Type := {
  status_code : Z;
  text : string;
  content : list Byte.byte
}.

(** The collaborators of the program: the world the HTTP session talks to
    (and the callback acts on), the manifest parser and the URL join. *)
Class World : Type := {
  Env : Type;
  session_get : string -> Env -> exc Response * Env;
  M3U8_parse : string -> exc M3U8.t;
  urljoin : string -> string -> exc string
}.

(** ** Playlist resolution ([Stream.parse_playlist]) *)

(** A value of the [resolutions] dictionary:
    [{"framerate": {...}, "width": width}]. *)
Record VariantEntry : Type := {
  ve_framerate : list (Z * string);
  ve_width : Z
}.

(** An instance of class [Playlist]. *)
Record Playlist : Type := {
  url : string;
  base_url : string;
  pl_resolution : Z;
  pl_framerate : Z;
  last_seq : Z
}.

(** [Playlist.__init__] *)
Definition Playlist_init (url base_url : string) (resolution framerate : Z)
  : Playlist :=
  {| url := url; base_url := base_url; pl_resolution := resolution;
     pl_framerate := framerate; last_seq := -1 |}.

(** Truth value of [name and "60" in name]. *)
Definition name_has_60 (name : option string) : bool :=
  match name with
  | None => false
  | Some n => negb (String.eqb n "") && Py.contains "60" n
  end.

(** Lines 85-87: the frame rate is to be read off the display name, 60
    when it contains ["60"], else 30; the read of the name comes
    first. *)
Definition variant_fr (playlist : M3U8.Variant) : exc Z :=
  (name <- M3U8.name (M3U8.stream_info playlist) ;;
   Ret (if name_has_60 name then 60 else 30))%exc.

(** One turn of the loop over [master.playlists]. A variant without a
    resolution is passed over. *)
Definition add_variant (resolutions : list (Z * VariantEntry))
  (playlist : M3U8.Variant) : exc (list (Z * VariantEntry)) :=
  match M3U8.resolution (M3U8.stream_info playlist) with
  | None => Ret resolutions
  | Some (width, _) =>
      (fr <- variant_fr playlist ;;
       let resolutions1 :=
         if negb (dict_mem Z.eqb width resolutions)
         then dict_set Z.eqb width
                {| ve_framerate := []; ve_width := width |} resolutions
         else resolutions in
       entry <- dict_getitem Z.eqb width resolutions1 ;;
       Ret (dict_set Z.eqb width
              {| ve_framerate :=
                   dict_set Z.eqb fr (M3U8.uri playlist) (ve_framerate entry);
                 ve_width := ve_width entry |}
              resolutions1))%exc
  end.

Fixpoint collect_resolutions (resolutions : list (Z * VariantEntry))
  (playlists : list M3U8.Variant) : exc (list (Z * VariantEntry)) :=
  match playlists with
  | [] => Ret resolutions
  | p :: ps =>
      (resolutions' <- add_variant resolutions p ;;
       collect_resolutions resolutions' ps)%exc
  end.

(** Lines 94-103: the bucket of the requested width, else the widest
    bucket below it, else [None]. An entry is a dictionary of two keys,
    hence true in [if not variant]: only [None] leads to [return None]. *)
Definition select_variant (resolutions : list (Z * VariantEntry))
  (resolution : Z) : exc (option VariantEntry) :=
  if dict_mem Z.eqb resolution resolutions then
    (v <- dict_getitem Z.eqb resolution resolutions ;; Ret (Some v))%exc
  else
    let candidates :=
      filter (fun r => ve_width r <? resolution) (dict_values resolutions) in
    match candidates with
    | [] => Ret None
    | c :: cs => Ret (Some (max_by ve_width c cs))
    end.

(** Lines 107-112: the requested frame rate when the bucket has a
    non-empty URI for it, else the bucket's first item. *)
Definition select_framerate (variant : VariantEntry) (framerate : Z)
  : exc (Z * string) :=
  match dict_get Z.eqb framerate (ve_framerate variant) with
  | Some playlist_url =>
      if String.eqb playlist_url "" then dict_first_item (ve_framerate variant)
      else Ret (framerate, playlist_url)
  | None => dict_first_item (ve_framerate variant)
  end.

(** [hls_source[:hls_source.rfind("playlist.m3u8")]] *)
Definition base_of (hls_source : string) : string :=
  Py.slice_to hls_source (Py.rfind hls_source "playlist.m3u8").

(** The base URL in the words of the specification: the source URL with
    its final path segment removed, that is, cut after its last slash. *)
Definition spec_base_url (source_url : string) : string :=
  match Py.rfind_from "/" source_url 0 with
  | Some j => Py.take (S (Z.to_nat j)) source_url
  | None => EmptyString
  end.

(** [try: return r  except Exception: return None] *)
Definition or_none {A : Type} (r : exc (option A)) : exc (option A) :=
  match r with
  | Ret a => Ret a
  | Raise _ => Ret None
  end.

Section Resolution.
Context {W : World}.

(** Lines 114-121: the base URL is [hls_source] cut at the last
    [playlist.m3u8]; the playlist URL is joined to it. *)
Definition build_playlist (hls_source : string) (width : Z)
  (selected_framerate : Z) (playlist_url : string) : exc (option Playlist) :=
  (let base_url := base_of hls_source in
   u <- urljoin base_url playlist_url ;;
   Ret (Some (Playlist_init u base_url width selected_framerate)))%exc.

(** The body of the [try] in [parse_playlist]. *)
Definition parse_playlist_try (hls_source m3u8_content : string)
  (resolution framerate : Z) : exc (option Playlist) :=
  (master <- M3U8_parse m3u8_content ;;
   if negb (M3U8.is_variant master) then Ret None
   else
     resolutions <- collect_resolutions [] (M3U8.playlists master) ;;
     variant <- select_variant resolutions resolution ;;
     match variant with
     | None => Ret None
     | Some variant =>
         sel <- select_framerate variant framerate ;;
         build_playlist hls_source (ve_width variant) (fst sel) (snd sel)
     end)%exc.

(** [except Exception]: the error is printed and [None] returned. *)
Definition parse_playlist (hls_source m3u8_content : string)
  (resolution framerate : Z) : exc (option Playlist) :=
  or_none
    (parse_playlist_try hls_source m3u8_content resolution framerate).
End Resolution.

(** ** The segment watcher ([Playlist.watch_segments]) *)

(** What the watcher does to the outside, in the order it does it; the
    assignment to [self.last_seq] is recorded too. *)
Inductive event : Type :=
| EvGet (url : string)                                 (* session.get(url) *)
| EvHandler (seg : M3U8.Segment) (data : list Byte.byte)
                               (* handler(data, seg.duration) for [seg] *)
| EvSleep (seconds : Q)                                (* time.sleep(seconds) *)
| EvPrint (e : exn)                                    (* print(... e ...) *)
| EvLastSeq (seq : Z).                                 (* self.last_seq = seq *)

Section Watcher.
Context {W : World}.

(** The running watcher: the world, the [Playlist] object and the
    events so far, oldest first. *)
Record WState : Type := {
  env : Env;
  self : Playlist;
  trace : list event
}.

(** A statement: it ends normally or by raising, and leaves a state
    either way. *)
Definition M (A : Type) : Type := WState -> exc A * WState.

Definition ret {A : Type} (a : A) : M A := fun s => (Ret a, s).

Definition raise {A : Type} (e : exn) : M A := fun s => (Raise e, s).

Definition bind {A B : Type} (m : M A) (k : A -> M B) : M B :=
  fun s =>
    match m s with
    | (Ret a, s') => k a s'
    | (Raise e, s') => (Raise e, s')
    end.

(** [try: m  except Exception as e: h e] *)
Definition try_except {A : Type} (m : M A) (h : exn -> M A) : M A :=
  fun s =>
    match m s with
    | (Ret a, s') => (Ret a, s')
    | (Raise e, s') => h e s'
    end.

Definition lift {A : Type} (r : exc A) : M A := fun s => (r, s).

Definition emit (ev : event) : M unit :=
  fun s =>
    (Ret tt, {| env := env s; self := self s; trace := trace s ++ [ev] |}).

(** [time.sleep(seconds)] first converts the length to a count of
    nanoseconds on 64 bits, and raises [OverflowError] when it does
    not fit; a negative length then raises [ValueError]. *)
Definition sleep_max : Q := 9223372036854775807 # 1000000000.

Definition sleep_check (seconds : Q) : exc unit :=
  if negb (Qle_bool (- sleep_max) seconds && Qle_bool seconds sleep_max)
  then Raise (LibraryError "OverflowError")
  else if Qle_bool 0 seconds then Ret tt
  else Raise ValueError.

Definition sleep (seconds : Q) : M unit :=
  match sleep_check seconds with
  | Ret _ => emit (EvSleep seconds)
  | Raise e => raise e
  end.

(** [print(...)], taken not to fail. *)
Definition print (e : exn) : M unit := emit (EvPrint e).

Definition get_last_seq : M Z := fun s => (Ret (last_seq (self s)), s).

Definition with_last_seq (p : Playlist) (seq : Z) : Playlist :=
  {| url := url p; base_url := base_url p;
     pl_resolution := pl_resolution p; pl_framerate := pl_framerate p;
     last_seq := seq |}.

(** [self.last_seq = seq] *)
Definition set_last_seq (seq : Z) : M unit :=
  fun s =>
    (Ret tt, {| env := env s; self := with_last_seq (self s) seq;
                trace := trace s ++ [EvLastSeq seq] |}).

(** [self.session.get(url)] *)
Definition get (u : string) : M Response :=
  fun s =>
    let '(r, e') := session_get u (env s) in
    (r, {| env := e'; self := self s; trace := trace s ++ [EvGet u] |}).

(** [resp.raise_for_status()] *)
Definition raise_for_status (resp : Response) : M unit :=
  if (400 <=? status_code resp) && (status_code resp <? 600)
  then raise HTTPError else ret tt.

(** The consumer callback: it acts on the world and may raise. *)
Definition Handler : Type :=
  list Byte.byte -> Q -> Env -> exc unit * Env.

(** [handler(seg_resp.content, segment.duration)] *)
Definition call_handler (handler : Handler) (seg : M3U8.Segment)
  (data : list Byte.byte) : M unit :=
  fun s =>
    let '(r, e') := handler data (M3U8.duration seg) (env s) in
    (r, {| env := e'; self := self s;
           trace := trace s ++ [EvHandler seg data] |}).

Notation "x <- m ;; k" := (bind m (fun x => k))
  (at level 61, m at next level, right associativity).
Notation "m ;;; k" := (bind m (fun _ => k))
  (at level 61, right associativity).

(** The body of the inner [try]: one attempt at a segment. *)
Definition attempt_try (handler : Handler) (seg : M3U8.Segment) : M unit :=
  base <- (fun s => (Ret (base_url (self s)), s)) ;;
  segment_url <- lift (urljoin base (M3U8.seg_uri seg)) ;;
  seg_resp <- get segment_url ;;
  raise_for_status seg_resp ;;;
  call_handler handler seg (content seg_resp).

(** The wait between two attempts, [time.sleep(0.6)]. *)
Definition retry_wait : Q := 6 # 10.

(** [for attempt in attempts]: leave at the first attempt that ends
    normally; an attempt that raises is followed by the wait, except
    attempt 2, which raises again. *)
Fixpoint retry (handler : Handler) (seg : M3U8.Segment)
  (attempts : list Z) : M unit :=
  match attempts with
  | [] => ret tt
  | attempt :: rest =>
      fun s =>
        match attempt_try handler seg s with
        | (Ret _, s') => (Ret tt, s')
        | (Raise e, s') =>
            if attempt =? 2 then (Raise e, s')
            else (sleep retry_wait ;;; retry handler seg rest) s'
        end
  end.

(** [range(3)] *)
Definition range3 : list Z := [0; 1; 2].

(** Lines 155-166. *)
Definition deliver (handler : Handler) (seg : M3U8.Segment) : M unit :=
  retry handler seg range3.

(** One turn of the loop over [media_playlist.segments]. *)
Definition process_segment (handler : Handler) (seg : M3U8.Segment)
  : M unit :=
  if negb (M3U8.truthy seg) then ret tt
  else
    seq <- lift (_parse_segment_seq (M3U8.seg_uri seg)) ;;
    last <- get_last_seq ;;
    if (seq =? -1) || (seq <=? last) then ret tt
    else set_last_seq seq ;;; deliver handler seg.

Fixpoint process_segments (handler : Handler) (segs : list M3U8.Segment)
  : M unit :=
  match segs with
  | [] => ret tt
  | seg :: rest =>
      process_segment handler seg ;;; process_segments handler rest
  end.

(** Lines 140-142: the manifest is fetched and parsed. *)
Definition poll : M M3U8.t :=
  u <- (fun s => (Ret (url (self s)), s)) ;;
  resp <- get u ;;
  raise_for_status resp ;;;
  lift (M3U8_parse (text resp)).

(** The body of the outer [try]: one poll cycle. *)
Definition cycle_try (handler : Handler) (interval : Q) : M unit :=
  media_playlist <- poll ;;
  process_segments handler (M3U8.segments media_playlist) ;;;
  sleep interval.

(** The default of the [interval] parameter. *)
Definition default_interval : Q := 1 # 1.

(** The wait after a failed cycle, [time.sleep(5)]. *)
Definition error_wait : Q := 5 # 1.

(** One turn of [while True]. *)
Definition cycle (handler : Handler) (interval : Q) : M unit :=
  try_except (cycle_try handler interval)
             (fun e => print e ;;; sleep error_wait).

(** [while True] cut after [turns] turns: the loop has no exit of its
    own, so it ends only when a turn raises. *)
Fixpoint watch_segments (handler : Handler) (interval : Q) (turns : nat)
  : M unit :=
  match turns with
  | O => ret tt
  | S n => cycle handler interval ;;; watch_segments handler interval n
  end.

(** What the polls of the first [turns] turns give. *)
Fixpoint manifests_seen (handler : Handler) (interval : Q) (turns : nat)
  (s : WState) : list (exc M3U8.t) :=
  match turns with
  | O => []
  | S n =>
      fst (poll s)
      :: manifests_seen handler interval n (snd (cycle handler interval s))
  end.

(** How the loops over the segments end in the first [turns] turns,
    one result for each turn whose poll gave a manifest. *)
Fixpoint delivery_results (handler : Handler) (interval : Q) (turns : nat)
  (s : WState) : list (exc unit) :=
  match turns with
  | O => []
  | S n =>
      match poll s with
      | (Ret m, s1) =>
          [fst (process_segments handler (M3U8.segments m) s1)]
      | (Raise _, _) => []
      end
      ++ delivery_results handler interval n (snd (cycle handler interval s))
  end.

(** A watcher about to start on [p] in world state [e]. *)
Definition start (p : Playlist) (e : Env) : WState :=
  {| env := e; self := p; trace := [] |}.
End Watcher.

Arguments WState {W}.
Arguments M {W} A.

(** ** Play URLs by bandwidth
       ([ChaturbateLiveStream.get_cb_play_url_list]) *)

Module MyLiveStream.

(** Length of the longest run of digits at the head of [s]. *)
Fixpoint digit_run (s : string) : nat :=
  match s with
  | String c s' => if Py.is_digit c then S (digit_run s') else O
  | EmptyString => O
  end.

(** [re.compile(r'BANDWIDTH=(\d+)').findall(s)]: the matches from left
    to right, none overlapping. [skip] counts the characters still
    covered by the match just found. *)
Fixpoint findall_bandwidth (s : string) (skip : nat) : list string :=
  match s with
  | EmptyString => []
  | String _ s' =>
      match skip with
      | S k => findall_bandwidth s' k
      | O =>
          if Py.startswith "BANDWIDTH=" s then
            let digits := String.substring 10 (String.length s - 10) s in
            match digit_run digits with
            | O => findall_bandwidth s' O
            | S d =>
                Py.take (S d) digits :: findall_bandwidth s' (10 + d)
            end
          else findall_bandwidth s' O
      end
  end.

Definition newline : ascii := "010"%char.

(** The first loop: the lines that start with [chunklist_]. *)
Definition chunklist_urls (base_url resp : string) : list string :=
  map (fun i => (base_url ++ Py.strip i)%string)
      (filter (Py.startswith "chunklist_") (Py.split newline resp)).

(** The second loop: the lines that end in [m3u8]. *)
Definition m3u8_urls (resp : string) : list string :=
  map Py.strip
      (filter (fun i => Py.endswith "m3u8" (Py.strip i))
              (Py.split newline resp)).

(** [{url: int(bandwidth) for bandwidth, url in pairs}] *)
Fixpoint url_bandwidths (pairs : list (string * string))
  (d : list (string * Z)) : exc (list (string * Z)) :=
  match pairs with
  | [] => Ret d
  | (bandwidth, u) :: rest =>
      (b <- Py.int bandwidth ;;
       url_bandwidths rest (dict_set String.eqb u b d))%exc
  end.

(** Insertion before the first entry whose key is not greater. *)
Fixpoint insert_desc (x : Z * string) (l : list (Z * string))
  : list (Z * string) :=
  match l with
  | [] => [x]
  | y :: l' => if fst y <=? fst x then x :: l else y :: insert_desc x l'
  end.

(** [sorted(..., reverse=True)] on keyed items: greatest key first,
    equal keys in their original order. *)
Definition sort_desc (l : list (Z * string)) : list (Z * string) :=
  fold_right insert_desc [] l.

(** [sorted(urls, key=lambda url: d[url], reverse=True)]: the keys are
    looked up first, for every URL in order. *)
Definition sorted_by_bandwidth (d : list (string * Z))
  (urls : list string) : exc (list string) :=
  (keys <- emap (fun u => dict_getitem String.eqb u d) urls ;;
   Ret (map snd (sort_desc (combine keys urls))))%exc.

(** Lines 95 and 97-104: the URLs collected from the text. *)
Definition collected_urls (m3u8 resp : string) : list string :=
  let base_url := (Py.rsplit1_head "/" m3u8 ++ "/")%string in
  match chunklist_urls base_url resp with
  | [] => m3u8_urls resp
  | play_url_list => play_url_list
  end.

(** Lines 95-109: what the function does with the text of the
    response. *)
Definition play_urls_of (m3u8 resp : string) : exc (list string) :=
  let play_url_list := collected_urls m3u8 resp in
  let bandwidth_list := findall_bandwidth resp O in
  (url_to_bandwidth <-
     url_bandwidths (combine bandwidth_list play_url_list) [] ;;
   sorted_by_bandwidth url_to_bandwidth play_url_list)%exc.

(** The whole method: the manifest is fetched (no status check), then
    its text is processed. *)
Definition get_cb_play_url_list {W : World} (m3u8 : string) (e : Env)
  : exc (list string) * Env :=
  match session_get m3u8 e with
  | (Ret resp, e') => (play_urls_of m3u8 (text resp), e')
  | (Raise x, e') => (Raise x, e')
  end.

End MyLiveStream.

From Stdlib Require Import Permutation Sorted.

(** ** More Python built-ins *)

Module PyStr.

(** [s[n:]] for [0 <= n]. *)
Fixpoint drop (n : nat) (s : string) : string :=
match n, s with
| S n', String _ s' => drop n' s'
| _, _ => s
end.

(** [s.lstrip(c)] for one character. *)
Fixpoint lstrip_char (c : ascii) (s : string) : string :=
match s with
| String a s' => if Ascii.eqb a c then lstrip_char c s' else s
| EmptyString => EmptyString
end.

(** [s.rstrip(c)] for one character. *)
Fixpoint rstrip_char (c : ascii) (s : string) : string :=
match s with
| EmptyString => EmptyString
| String a s' =>
    match rstrip_char c s' with
    | EmptyString =>
        if Ascii.eqb a c then EmptyString else String a EmptyString
    | r => String a r
    end
end.

(** [s.strip(c)] for one character. *)
Definition strip_char (c : ascii) (s : string) : string :=
rstrip_char c (lstrip_char c s).

(** Length of the longest prefix of [s] without [c]: what [[^c]*] takes. *)
Fixpoint span_not (c : ascii) (s : string) : nat :=
match s with
| String a s' => if Ascii.eqb a c then O else S (span_not c s')
| EmptyString => O
end.

Definition quote : ascii := "034"%char.
Definition newline : ascii := "010"%char.

End PyStr.

(** ** JSON values, as [json.loads] returns them *)

(** Numbers are rationals (NaN and the infinities are left out); an
    object is a dictionary in insertion order. *)
#[local] Unset Elimination Schemes.
Inductive Json : Type :=
| JNull
| JBool (b : bool)
| JNum (q : Q)
| JStr (s : string)
| JList (l : list Json)
| JDict (d : list (string * Json)).
#[local] Set Elimination Schemes.

(** [bool(v)] *)
Definition json_truthy (v : Json) : bool :=
  match v with
  | JNull => false
  | JBool b => b
  | JNum q => negb (Qeq_bool q 0)
  | JStr s => negb (String.eqb s "")
  | JList l => match l with [] => false | _ => true end
  | JDict d => match d with [] => false | _ => true end
  end.

(** [v.get(key, default)]: only a dictionary has [get]. *)
Definition json_get_default (v : Json) (key : string) (default : Json)
  : exc Json :=
  match v with
  | JDict d =>
      Ret (match dict_get String.eqb key d with
           | Some x => x
           | None => default
           end)
  | _ => Raise (LibraryError "AttributeError")
  end.

(** [v.get(key)] *)
Definition json_get (v : Json) (key : string) : exc Json :=
  json_get_default v key JNull.

(** What [urlparse] gives, as far as the code reads it. *)
Record ParseResult : Type := {
  netloc : string;
  path : string
}.

(** The further collaborators: the codec round
    [s.encode('utf-8').decode('unicode-escape')], [json.loads],
    [urllib.parse.urlparse] and the asynchronous request [async_req],
    which gives the text of the response. *)
Class Services (W : World) : Type := {
  unicode_escape : string -> exc string;
  json_loads : string -> exc Json;
  urlparse : string -> exc ParseResult;
  async_req : string -> Env -> exc string * Env
}.

(** [resp.raise_for_status()] *)
Definition check_status (resp : Response) : exc unit :=
  if (400 <=? status_code resp) && (status_code resp <? 600)
  then Raise HTTPError else Ret tt.

(** ** Fetching the playlist ([Stream.get_playlist]) *)

Section GetPlaylist.
Context {W : World}.

(** The body of the [try]. *)
Definition get_playlist_try (hls_source : string) (resolution framerate : Z)
(e : Env) : exc (option Playlist) * Env :=
match session_get hls_source e with
| (Raise x, e') => (Raise x, e')
| (Ret resp, e') =>
    match check_status resp with
    | Raise x => (Raise x, e')
    | Ret _ =>
        (parse_playlist hls_source (text resp) resolution framerate, e')
    end
end.

(** [except Exception]: the error is printed and [None] returned. *)
Definition get_playlist (hls_source : string) (resolution framerate : Z)
(e : Env) : exc (option Playlist) * Env :=
(or_none (fst (get_playlist_try hls_source resolution framerate e)),
 snd (get_playlist_try hls_source resolution framerate e)).
End GetPlaylist.

(** ** The room page ([ChaturbateClient]) *)

(** An instance of class [Stream]: [hls_source] is whatever true value
    the page's JSON holds under that key. *)
Record Stream : Type := {
  stream_hls_source : Json
}.

(** The pattern of [room_dossier_regex] is this marker (the assignment
    to [window.initialRoomDossier] up to its opening quote), a lazy group
    of any characters but newlines, and a closing quote. *)
Definition dossier_marker : string :=
  ("window.initialRoomDossier = " ++ String PyStr.quote EmptyString)%string.

(** The lazy group and the closing quote at the head of [s]: the
    characters up to the first quote, none of them a newline. *)
Fixpoint until_quote (s : string) : option string :=
  match s with
  | EmptyString => None
  | String c s' =>
      if Ascii.eqb c PyStr.quote then Some EmptyString
      else if Ascii.eqb c PyStr.newline then None
      else match until_quote s' with
           | Some g => Some (String c g)
           | None => None
           end
  end.

(** [room_dossier_regex.search(html)]: group 1 of the leftmost match. *)
Fixpoint dossier_search (html : string) : option string :=
  let here :=
    if Py.startswith dossier_marker html
    then until_quote (PyStr.drop (String.length dossier_marker) html)
    else None in
  match here with
  | Some g => Some g
  | None =>
      match html with
      | EmptyString => None
      | String _ html' => dossier_search html'
      end
  end.

Section Client.
Context {W : World} {S : Services W}.

(** The [try] block of [parse_stream]; [Ret None] is falling out of the
  [if]. *)
Definition parse_stream_try (group1 : string) : exc (option Stream) :=
(json_str <- unicode_escape group1 ;;
 data <- json_loads json_str ;;
 hls_source <- json_get data "hls_source" ;;
 if json_truthy hls_source
 then Ret (Some {| stream_hls_source := hls_source |})
 else Ret None)%exc.

(** [ChaturbateClient.parse_stream] *)
Definition parse_stream (html : string) : exc (option Stream) :=
match dossier_search html with
| None => Ret None
| Some group1 => or_none (parse_stream_try group1)
end.

(** The body of the [try] in [get_stream]. *)
Definition get_stream_try (base_url username : string) (e : Env)
: exc (option Stream) * Env :=
let url := (base_url ++ "/" ++ username ++ "/")%string in
match session_get url e with
| (Raise x, e') => (Raise x, e')
| (Ret resp, e') =>
    match check_status resp with
    | Raise x => (Raise x, e')
    | Ret _ =>
        if negb (Py.contains "playlist.m3u8" (text resp))
        then (Ret None, e')
        else (parse_stream (text resp), e')
    end
end.

(** [ChaturbateClient.get_stream] *)
Definition get_stream (base_url username : string) (e : Env)
: exc (option Stream) * Env :=
(or_none (fst (get_stream_try base_url username e)),
 snd (get_stream_try base_url username e)).
End Client.

(** ** The platform handlers of [MyLiveStream.py] *)

(** The dictionary [fetch_web_stream_data] returns. *)
Inductive WebStreamData : Type :=
| NotLive (platform anchor_name : string)
| Live (platform anchor_name m3u8_url : string)
       (play_url_list : list string) (title : string).

Module ChaturbateLiveStream.

(** [ChaturbateLiveStream._extract_username] *)
Definition _extract_username {W : World} {S : Services W} (url : string)
: exc string :=
(parsed <- urlparse url ;;
 if negb (Py.contains "chaturbate.com" (netloc parsed))
 then Ret (PyStr.strip_char "/" url)
 else
   Py.index (Py.split "/" (PyStr.strip_char "/" (path parsed))) 0)%exc.

Definition direct_url : string :=
"https://edge8-sea.live.mmcdn.com/live-hls/".

(** What follows [[^/]+] in
  [https://[^/]+\.live\.mmcdn\.com/live-hls/]. *)
Definition mmcdn_tail : string := ".live.mmcdn.com/live-hls/".

(** The length of the match of that pattern at the head of [s], if it
  matches there: after [https://], the run of characters up to the
  first slash is more than [.live.mmcdn.com], ends with it, and
  [/live-hls/] follows. *)
Definition match_mmcdn (s : string) : option nat :=
if Py.startswith "https://" s then
  let t := PyStr.drop 8 s in
  let n := PyStr.span_not "/" t in
  if (15 <? n)%nat && Py.startswith mmcdn_tail (PyStr.drop (n - 15) t)
  then Some (8 + n + 10)%nat
  else None
else None.

(** [re.sub(pattern, repl, s)]: the matches are replaced from left to
  right, none overlapping. [skip] counts the characters still covered
  by the match just replaced. *)
Fixpoint sub_mmcdn (repl s : string) (skip : nat) : string :=
match s with
| EmptyString => EmptyString
| String c s' =>
    match skip with
    | S k => sub_mmcdn repl s' k
    | O =>
        match match_mmcdn s with
        | Some (S m) => (repl ++ sub_mmcdn repl s' m)%string
        | _ => String c (sub_mmcdn repl s' O)
        end
    end
end.

(** One turn of the loop over [play_url_list]. *)
Definition to_direct (url : string) : string := sub_mmcdn direct_url url O.

(** [ChaturbateLiveStream.fetch_web_stream_data]; [Ret None] is the
  [return None] of the [except] clause. *)
Definition fetch_web_stream_data {W : World} {S : Services W}
(url : string) (e : Env) : exc (option WebStreamData) * Env :=
match _extract_username url with
| Raise x => (Raise x, e)
| Ret username =>
    if String.eqb username "" then (Raise ValueError, e)
    else
      let api_url :=
        ("https://chaturbate.com/api/chatvideocontext/" ++ username ++ "/")
          %string in
      match async_req api_url e with
      | (Raise x, e1) => (Raise x, e1)
      | (Ret response, e1) =>
          match (data <- json_loads response ;;
                 json_get data "hls_source")%exc with
          | Raise x => (Raise x, e1)
          | Ret hls_source =>
              if negb (json_truthy hls_source) then
                match _extract_username url with
                | Raise x => (Raise x, e1)
                | Ret anchor => (Ret (Some (NotLive "Chaturbate" anchor)), e1)
                end
              else
                match hls_source with
                | JStr m3u8_url =>
                    match MyLiveStream.get_cb_play_url_list m3u8_url e1 with
                    | (Raise _, e2) => (Ret None, e2)
                    | (Ret play_url_list, e2) =>
                        (Ret (Some (Live "Chaturbate" username m3u8_url
                                      (map to_direct play_url_list)
                                      (username ++ "'s Chaturbate Stream")
                                        %string)),
                         e2)
                    end
                | _ =>
                    (* [m3u8.rsplit] raises inside the [try] *)
                    (Ret None, e1)
                end
          end
      end
end.

End ChaturbateLiveStream.

Module StripchatLiveStream.

(** [StripchatLiveStream._extract_username] *)
Definition _extract_username {W : World} {S : Services W} (url : string)
: exc string :=
(parsed <- urlparse url ;;
 Py.index (Py.split "/" (PyStr.strip_char "/" (path parsed))) 0)%exc.

End StripchatLiveStream.

(** ** A small world to run the program in *)

Module Sample.

Definition variant (w h : Z) (uri : string) : M3U8.Variant :=
  {| M3U8.stream_info := {| M3U8.resolution := Some (w, h) |};
     M3U8.uri := uri |}.

Definition audio_only (uri : string) : M3U8.Variant :=
  {| M3U8.stream_info := {| M3U8.resolution := None |};
     M3U8.uri := uri |}.

(** Widths 1920 (twice), 1280 and 640, and a variant without a
    resolution. *)
Definition master : M3U8.t :=
  {| M3U8.is_variant := true;
     M3U8.playlists :=
       [ variant 1920 1080 "chunklist_1080p60.m3u8";
         variant 1920 1080 "chunklist_1080p.m3u8";
         variant 1280 720 "chunklist_720p.m3u8";
         audio_only "chunklist_audio.m3u8";
         variant 640 360 "chunklist_360p.m3u8" ];
     M3U8.segments := [] |}.

(** A master manifest none of whose variants has a resolution. *)
Definition audio_master : M3U8.t :=
  {| M3U8.is_variant := true;
     M3U8.playlists := [ audio_only "chunklist_audio.m3u8" ];
     M3U8.segments := [] |}.

Definition segment (uri : string) : M3U8.Segment :=
  {| M3U8.seg_uri := uri; M3U8.duration := 2 # 1 |}.

Definition seg1 : M3U8.Segment := segment "segment-1.ts".
Definition seg2 : M3U8.Segment := segment "segment-2.ts".
Definition seg3 : M3U8.Segment := segment "segment-3.ts".

Definition media (segs : list M3U8.Segment) : M3U8.t :=
  {| M3U8.is_variant := false; M3U8.playlists := [];
     M3U8.segments := segs |}.

Definition hls_source : string := "https://cdn.test/live/playlist.m3u8".
Definition media_url : string := "https://cdn.test/live/chunklist_360p.m3u8".

Definition ok (body : string) (data : list Byte.byte) : Response :=
  {| status_code := 200; text := body; content := data |}.

Definition payload : list Byte.byte := [Byte.x47; Byte.x40].

(** The world counts the requests made so far. The media manifest
    lists one segment at the first request and two from then on; any
    other URL is unreachable during the first four requests. *)
Definition world : World :=
  {| Env := nat;
     session_get := fun u n =>
       if String.eqb u media_url then
         (Ret (ok (if Nat.eqb n 0 then "media-1" else "media-2") []), S n)
       else if Nat.ltb n 4 then (Raise (LibraryError "ConnectionError"), S n)
       else (Ret (ok "" payload), S n);
     M3U8_parse := fun t =>
       if String.eqb t "master" then Ret master
       else if String.eqb t "audio" then Ret audio_master
       else if String.eqb t "media-21" then Ret (media [seg2; seg1])
       else if String.eqb t "media-1" then Ret (media [seg1])
       else if String.eqb t "media-2" then Ret (media [seg1; seg2])
       else if String.eqb t "media-3" then Ret (media [seg1; seg2; seg3])
       else Raise (LibraryError "ParseError");
     urljoin := fun base u => Ret (base ++ u)%string |}.

(** A world in which nothing fails and the manifest grows: one segment
    at the first request, two during the next three, three from then
    on. *)
Definition steady : World :=
  {| Env := nat;
     session_get := fun u n =>
       if String.eqb u media_url then
         (Ret (ok (if Nat.eqb n 0 then "media-1"
                   else if Nat.ltb n 4 then "media-2" else "media-3") []),
          S n)
       else (Ret (ok "" payload), S n);
     M3U8_parse := @M3U8_parse world;
     urljoin := @urljoin world |}.

(** The playlist the watcher runs on. *)
Definition playlist : Playlist :=
  Playlist_init media_url "https://cdn.test/live/" 640 30.

(** A callback that always returns. *)
Definition sink : @Handler world := fun _ _ n => (Ret tt, n).

Definition steady_sink : @Handler steady := fun _ _ n => (Ret tt, n).



(** A playlist whose manifest is unreachable at first. *)
Definition offline : Playlist :=
  Playlist_init "https://cdn.test/live/offline.m3u8"
    "https://cdn.test/live/" 640 30.

(** The watcher on [playlist] after [n] requests, with [last] in
    [self.last_seq] and nothing logged. *)
Definition state (n : nat) (last : Z) : @WState world :=
  @Build_WState world n (with_last_seq playlist last) [].

(** The watcher about to start on [p], before any request. *)
Definition boot (p : Playlist) : @WState world := @start world p 0%nat.

Definition seg2_url : string := "https://cdn.test/live/segment-2.ts".

(** A world in which the third request, the second one for the
    manifest, fails, and nothing else does: the manifest lists one
    segment at the first request and two from then on. *)
Definition bumpy : World :=
  {| Env := nat;
     session_get := fun u n =>
       if String.eqb u media_url then
         if Nat.eqb n 2 then (Raise (LibraryError "ConnectionError"), S n)
         else (Ret (ok (if Nat.eqb n 0 then "media-1" else "media-2") []),
               S n)
       else (Ret (ok "" payload), S n);
     M3U8_parse := @M3U8_parse world;
     urljoin := @urljoin world |}.

Definition bumpy_sink : @Handler bumpy := fun _ _ n => (Ret tt, n).

(** A world in which nothing fails and the manifest lists the second
    segment before the first. *)
Definition shuffled : World :=
  {| Env := nat;
     session_get := fun u n =>
       if String.eqb u media_url then (Ret (ok "media-21" []), S n)
       else (Ret (ok "" payload), S n);
     M3U8_parse := @M3U8_parse world;
     urljoin := @urljoin world |}.

Definition shuffled_sink : @Handler shuffled := fun _ _ n => (Ret tt, n).

(** In the steady world, a callback that raises at its first call,
    which comes right after the second request. *)
Definition steady_flaky : @Handler steady :=
  fun _ _ n =>
    if Nat.eqb n 2 then (Raise (LibraryError "OSError"), n) else (Ret tt, n).

End Sample.

(** ** A small site to run the platform code on *)

Module Site.

Definition room_url (name : string) : string :=
("https://chaturbate.com/" ++ name ++ "/")%string.

Definition api_url (name : string) : string :=
("https://chaturbate.com/api/chatvideocontext/" ++ name ++ "/")%string.

Definition edge : string := "https://edge3-fra.live.mmcdn.com/live-hls/".

(** The manifest of alice, with a bandwidth for each variant. *)
Definition alice_m3u8 : string := (edge ++ "alice/playlist.m3u8")%string.

Definition alice_manifest : string :=
("#EXTM3U"
 ++ String MyLiveStream.newline "#EXT-X-STREAM-INF:BANDWIDTH=100"
 ++ String MyLiveStream.newline "chunklist_low.m3u8"
 ++ String MyLiveStream.newline "#EXT-X-STREAM-INF:BANDWIDTH=300"
 ++ String MyLiveStream.newline "chunklist_high.m3u8")%string.

(** The manifest of carol, with one bandwidth for two variants. *)
Definition carol_m3u8 : string := (edge ++ "carol/playlist.m3u8")%string.

Definition carol_manifest : string :=
("#EXTM3U"
 ++ String MyLiveStream.newline "#EXT-X-STREAM-INF:BANDWIDTH=100"
 ++ String MyLiveStream.newline "chunklist_low.m3u8"
 ++ String MyLiveStream.newline "chunklist_high.m3u8")%string.

(** The manifest of erin is gone: the server answers with an error
  page. *)
Definition erin_m3u8 : string := (edge ++ "erin/playlist.m3u8")%string.

Definition not_found : Response :=
{| status_code := 404; text := "<html>Not Found</html>"; content := [] |}.

(** The page of alice: the dossier and, as the room is live, the name of
  the manifest. *)
Definition alice_page : string :=
("<script>" ++ dossier_marker ++ "alice-dossier"
 ++ String PyStr.quote ";</script> playlist.m3u8")%string.

(** The page of bob, who is not live. *)
Definition bob_page : string :=
("<script>" ++ dossier_marker ++ "bob-dossier"
 ++ String PyStr.quote ";</script>")%string.

(** The world counts the requests. *)
Definition world : World :=
{| Env := nat;
   session_get := fun u n =>
     if String.eqb u alice_m3u8
     then (Ret (Sample.ok alice_manifest []), S n)
     else if String.eqb u carol_m3u8
     then (Ret (Sample.ok carol_manifest []), S n)
     else if String.eqb u erin_m3u8
     then (Ret not_found, S n)
     else if String.eqb u (room_url "alice")
     then (Ret (Sample.ok alice_page []), S n)
     else if String.eqb u (room_url "bob")
     then (Ret (Sample.ok bob_page []), S n)
     else if String.eqb u Sample.hls_source
     then (Ret (Sample.ok "master" []), S n)
     else (Raise (LibraryError "ConnectionError"), S n);
   M3U8_parse := @M3U8_parse Sample.world;
   urljoin := @urljoin Sample.world |}.

Definition services : Services world :=
{| unicode_escape := fun s => Ret s;
   json_loads := fun s =>
     if String.eqb s "alice-dossier" || String.eqb s "alice-api"
     then Ret (JDict [("hls_source", JStr alice_m3u8)])
     else if String.eqb s "carol-api"
     then Ret (JDict [("hls_source", JStr carol_m3u8)])
     else if String.eqb s "erin-api"
     then Ret (JDict [("hls_source", JStr erin_m3u8)])
     else if String.eqb s "bob-dossier" || String.eqb s "bob-api"
     then Ret (JDict [("room_status", JStr "offline");
                      ("hls_source", JStr "")])
     else Raise (LibraryError "JSONDecodeError");
   urlparse := fun u =>
     if Py.startswith "https://chaturbate.com" u
     then Ret {| netloc := "chaturbate.com"; path := PyStr.drop 22 u |}
     else Ret {| netloc := ""; path := u |};
   async_req := fun u (n : @Env world) =>
     if String.eqb u (api_url "alice") then (Ret "alice-api", S n)
     else if String.eqb u (api_url "carol") then (Ret "carol-api", S n)
     else if String.eqb u (api_url "erin") then (Ret "erin-api", S n)
     else if String.eqb u (api_url "bob") then (Ret "bob-api", S n)
     else (Raise (LibraryError "ClientError"), S n) |}.

End Site.

(** * The vocabulary of the properties *)

(** Both sides of an equation between lists are brought to their
    right-nested form. *)
Ltac app_normal :=
  repeat (rewrite <- app_assoc; simpl); simpl; reflexivity.

(** ** Segment URIs *)

(** What may follow the token in a segment URI: nothing, a hyphen or a
    dot. *)
Definition token_end (rest : string) : Prop :=
  rest = EmptyString
  \/ (exists r, rest = String "-" r) \/ (exists r, rest = String "." r).

(** [n] times the character [c]. *)
Fixpoint copies (n : nat) (c : ascii) : string :=
  match n with
  | O => EmptyString
  | S n' => String c (copies n' c)
  end.

(** Nothing but white space, as [int] sees it. *)
Fixpoint int_blank (s : string) : bool :=
  match s with
  | EmptyString => true
  | String c s' => Py.is_int_space c && int_blank s'
  end.

(** ** Variants *)

(** [p] has a resolution of width [w]. *)
Definition has_width (w : Z) (p : M3U8.Variant) : bool :=
  match M3U8.resolution (M3U8.stream_info p) with
  | Some (w', _) => w' =? w
  | None => false
  end.

(** [p] has a resolution. *)
Definition has_resolution (p : M3U8.Variant) : bool :=
  match M3U8.resolution (M3U8.stream_info p) with
  | Some _ => true
  | None => false
  end.

(** ** Traces *)

(** The segments [handler] was called for, in the order of the calls. *)
Fixpoint delivered (tr : list event) : list M3U8.Segment :=
  match tr with
  | [] => []
  | EvHandler seg _ :: tr' => seg :: delivered tr'
  | _ :: tr' => delivered tr'
  end.

(** The number of requests in a trace. *)
Fixpoint gets (tr : list event) : nat :=
  match tr with
  | [] => O
  | EvGet _ :: tr' => S (gets tr')
  | _ :: tr' => gets tr'
  end.

(** The values assigned to [self.last_seq], in order. *)
Fixpoint marks (tr : list event) : list Z :=
  match tr with
  | [] => []
  | EvLastSeq z :: tr' => z :: marks tr'
  | _ :: tr' => marks tr'
  end.

(** The sequence number of a segment, -1 when it has none. *)
Definition seq_of (seg : M3U8.Segment) : Z :=
  match _parse_segment_seq (M3U8.seg_uri seg) with
  | Ret n => n
  | Raise _ => -1
  end.

Definition parsable (seg : M3U8.Segment) : bool := negb (seq_of seg =? -1).

(** The values of the results that are no errors, in order. *)
Fixpoint returned {A : Type} (l : list (exc A)) : list A :=
  match l with
  | [] => []
  | Ret a :: l' => a :: returned l'
  | Raise _ :: l' => returned l'
  end.

(** ** Sequences of numbers and of manifests *)

(** [m < x1 < x2 < ...] *)
Fixpoint increasing_from (m : Z) (l : list Z) : Prop :=
  match l with
  | [] => True
  | x :: l' => m < x /\ increasing_from x l'
  end.

(** [x1 < x2 < ...] *)
Definition increasing (l : list Z) : Prop :=
  match l with
  | [] => True
  | x :: l' => increasing_from x l'
  end.

(** Every list of the chain extends the one before it, the first one
    extends [L]. *)
Fixpoint growing_from (L : list M3U8.Segment)
  (Ls : list (list M3U8.Segment)) : Prop :=
  match Ls with
  | [] => True
  | L' :: rest => (exists ext, L' = L ++ ext) /\ growing_from L' rest
  end.

(** The sequence numbers of the segments that have one. *)
Definition seqs (L : list M3U8.Segment) : list Z :=
  map seq_of (filter parsable L).

(** ** Outcomes of the watcher *)

Section WatcherVocabulary.
Context {W : World}.
Variable handler : Handler.

(** [s] with the events [evs] added to its trace. *)
Definition logged (s : WState) (evs : list event) : WState :=
  {| env := env s; self := self s; trace := trace s ++ evs |}.

(** [s] after [self.last_seq = seq]. *)
Definition marked (s : WState) (seq : Z) : WState :=
  {| env := env s; self := with_last_seq (self s) seq;
     trace := trace s ++ [EvLastSeq seq] |}.

(** [s] after the wait between two attempts. *)
Definition after_wait (s : WState) : WState := logged s [EvSleep retry_wait].

Definition bad_status (resp : Response) : bool :=
  (400 <=? status_code resp) && (status_code resp <? 600).

(** What one attempt leaves behind, by outcome. *)
Inductive attempt_outcome (seg : M3U8.Segment) (s : WState)
  : exc unit -> WState -> list event -> Prop :=
| AttemptJoinRaises e :
    urljoin (base_url (self s)) (M3U8.seg_uri seg) = Raise e ->
    attempt_outcome seg s (Raise e) s []
| AttemptGetRaises u e e1 :
    urljoin (base_url (self s)) (M3U8.seg_uri seg) = Ret u ->
    session_get u (env s) = (Raise e, e1) ->
    attempt_outcome seg s (Raise e)
      {| env := e1; self := self s; trace := trace s ++ [EvGet u] |}
      [EvGet u]
| AttemptBadStatus u resp e1 :
    urljoin (base_url (self s)) (M3U8.seg_uri seg) = Ret u ->
    session_get u (env s) = (Ret resp, e1) ->
    bad_status resp = true ->
    attempt_outcome seg s (Raise HTTPError)
      {| env := e1; self := self s; trace := trace s ++ [EvGet u] |}
      [EvGet u]
| AttemptHandled u resp e1 r e2 :
    urljoin (base_url (self s)) (M3U8.seg_uri seg) = Ret u ->
    session_get u (env s) = (Ret resp, e1) ->
    bad_status resp = false ->
    handler (content resp) (M3U8.duration seg) e1 = (r, e2) ->
    attempt_outcome seg s r
      {| env := e2; self := self s;
         trace := trace s ++ [EvGet u; EvHandler seg (content resp)] |}
      [EvGet u; EvHandler seg (content resp)].

(** The callback returns whatever it is given. *)
Definition never_raises : Prop :=
  forall data d e, fst (handler data d e) = Ret tt.

(** What the three attempts leave behind, by the number of attempts
    made; [r] is [Ret tt] unless all three attempts raised. *)
Inductive deliver_outcome (seg : M3U8.Segment) (s : WState)
  : exc unit -> WState -> list event -> Prop :=
| DeliverFirst s1 t1 :
    attempt_outcome seg s (Ret tt) s1 t1 ->
    deliver_outcome seg s (Ret tt) s1 t1
| DeliverSecond e1 s1 t1 s2 t2 :
    attempt_outcome seg s (Raise e1) s1 t1 ->
    attempt_outcome seg (after_wait s1) (Ret tt) s2 t2 ->
    deliver_outcome seg s (Ret tt) s2 (t1 ++ EvSleep retry_wait :: t2)
| DeliverThird e1 s1 t1 e2 s2 t2 r s3 t3 :
    attempt_outcome seg s (Raise e1) s1 t1 ->
    attempt_outcome seg (after_wait s1) (Raise e2) s2 t2 ->
    attempt_outcome seg (after_wait s2) r s3 t3 ->
    deliver_outcome seg s r s3
      (t1 ++ EvSleep retry_wait :: t2 ++ EvSleep retry_wait :: t3).

(** What the watcher has done with the manifest [L]: the callback was
    called for the numbered segments of [L], once each and in order,
    and [self.last_seq] is the last of their numbers. *)
Definition caught_up (s : WState) (L : list M3U8.Segment) : Prop :=
  delivered (trace s) = filter parsable L
  /\ last_seq (self s) = last (seqs L) (-1).

(** The numbers of the segments delivered so far go strictly up, and
    none is above [self.last_seq]. *)
Definition ordered (s : WState) : Prop :=
  increasing_from (-1) (map seq_of (delivered (trace s)))
  /\ last (map seq_of (delivered (trace s))) (-1) <= last_seq (self s).
End WatcherVocabulary.

(** ** Further vocabulary *)

(** The playlist object is the same but for [last_seq], which has not
    gone down, and the trace has only grown. *)
Definition advanced {W : World} (s s' : WState) : Prop :=
  url (self s') = url (self s)
  /\ base_url (self s') = base_url (self s)
  /\ pl_resolution (self s') = pl_resolution (self s)
  /\ pl_framerate (self s') = pl_framerate (self s)
  /\ last_seq (self s) <= last_seq (self s')
  /\ exists tr, trace s' = trace s ++ tr.

(** The bandwidth a URL is sorted by, 0 when it has none. *)
Definition bandwidth_of (d : list (string * Z)) (u : string) : Z :=
  match dict_get String.eqb u d with
  | Some z => z
  | None => 0
  end.

(** The lines of a response. *)
Definition lines_of (resp : string) : list string :=
  Py.split MyLiveStream.newline resp.

(** [k] slashes. *)
Fixpoint slashes (k : nat) : string :=
  match k with
  | O => EmptyString
  | S k' => String "/" (slashes k')
  end.

(** [name] is the first segment of [path]: what stands between the
    leading slashes and the next slash, or the end. *)
Definition first_segment (path name : string) : Prop :=
  exists k tail,
    path = (slashes k ++ name ++ tail)%string
    /\ name <> EmptyString
    /\ Py.has_char "/" name = false
    /\ (tail = EmptyString \/ exists t, tail = String "/" t).

(** The address [fetch_web_stream_data] asks for the room of
    [username]. *)
Definition chaturbate_api (username : string) : string :=
  ("https://chaturbate.com/api/chatvideocontext/" ++ username ++ "/")%string.

(** [data.get('hls_source')] on a dictionary. *)
Definition hls_source_of (d : list (string * Json)) : Json :=
  match dict_get String.eqb "hls_source" d with
  | Some v => v
  | None => JNull
  end.

(** The order of the sort: the greater key first. *)
Definition desc (a b : Z * string) : Prop := fst b <= fst a.

(** * Properties *)

(** ** Strings *)

Lemma split_not_nil (sep : ascii) (s : string) : Py.split sep s <> [].
Proof.
  induction s as [|c s IH]; simpl; [discriminate|].
  destruct (Ascii.eqb c sep); [discriminate|].
  destruct (Py.split sep s); discriminate.
Qed.

Lemma split_cons (sep : ascii) (s : string) :
  Py.split sep s = hd EmptyString (Py.split sep s) :: tl (Py.split sep s).
Proof.
  pose proof (split_not_nil sep s) as H.
  destruct (Py.split sep s); [contradiction|reflexivity].
Qed.

(** A separator-free prefix stays glued to the first piece of what
    follows. *)
Lemma split_app_free (sep : ascii) (a r : string) :
  Py.has_char sep a = false ->
  Py.split sep (a ++ r)
  = (a ++ hd EmptyString (Py.split sep r))%string :: tl (Py.split sep r).
Proof.
  induction a as [|c a IH]; simpl; intros H.
  - apply split_cons.
  - apply orb_false_iff in H as [Hc Ha].
    rewrite Hc, (IH Ha). reflexivity.
Qed.

Lemma split_free (sep : ascii) (a : string) :
  Py.has_char sep a = false -> Py.split sep a = [a].
Proof.
  induction a as [|c a IH]; simpl; intros H; [reflexivity|].
  apply orb_false_iff in H as [Hc Ha].
  rewrite Hc, (IH Ha). reflexivity.
Qed.

Lemma split_sep_head (sep : ascii) (r : string) :
  Py.split sep (String sep r) = EmptyString :: Py.split sep r.
Proof. simpl. rewrite Ascii.eqb_refl. reflexivity. Qed.

Lemma append_assoc (a b c : string) :
  ((a ++ b) ++ c)%string = (a ++ (b ++ c))%string.
Proof. induction a as [|x a IH]; simpl; [reflexivity|]. rewrite IH. reflexivity. Qed.

Lemma append_empty_r (s : string) : (s ++ "")%string = s.
Proof. induction s; simpl; congruence. Qed.

Lemma token_of_uri (a tok rest : string) :
  Py.has_char "-" a = false ->
  Py.has_char "-" tok = false ->
  Py.has_char "." tok = false ->
  token_end rest ->
  exists p1 more ps,
    Py.split "-" (a ++ String "-" (tok ++ rest)) = a :: p1 :: ps
    /\ Py.split "." p1 = tok :: more.
Proof.
  intros Ha Ht Hd Hr.
  rewrite (split_app_free "-" a _ Ha), split_sep_head. simpl hd. simpl tl.
  rewrite append_empty_r.
  rewrite (split_app_free "-" tok rest Ht).
  exists (tok ++ hd "" (Py.split "-" rest))%string.
  rewrite (split_app_free "." tok _ Hd).
  assert (Hh : hd "" (Py.split "." (hd "" (Py.split "-" rest))) = "").
  { destruct Hr as [-> | [[r ->] | [r ->]]]; try reflexivity.
    simpl. destruct (Py.split "-" r); reflexivity. }
  rewrite Hh, append_empty_r.
  eexists; eexists; split; reflexivity.
Qed.

Lemma digit_not_space (c : ascii) :
  Py.is_digit c = true -> Py.is_int_space c = false.
Proof.
  unfold Py.is_digit, Py.is_int_space. cbv zeta.
  generalize (Py.char_code c). intros n H.
  apply andb_true_iff in H as [H1 H2].
  apply Z.leb_le in H1. apply Z.leb_le in H2.
  repeat (apply orb_false_iff; split);
    try (apply andb_false_iff; (left; apply Z.leb_gt; lia)
                                || (right; apply Z.leb_gt; lia));
    apply Z.eqb_neq; lia.
Qed.

Lemma int_lstrip_head (c : ascii) (s : string) :
  Py.is_int_space c = false -> Py.int_lstrip (String c s) = String c s.
Proof. intros H. simpl. rewrite H. reflexivity. Qed.

Lemma int_lstrip_blank (ws s : string) :
  int_blank ws = true -> Py.int_lstrip (ws ++ s) = Py.int_lstrip s.
Proof.
  induction ws as [|c ws IH]; intros H; [reflexivity|].
  simpl in H. apply andb_true_iff in H as [Hc Hw].
  simpl. rewrite Hc. apply IH, Hw.
Qed.

Lemma int_rstrip_blank (ws : string) :
  int_blank ws = true -> Py.int_rstrip ws = EmptyString.
Proof.
  induction ws as [|c ws IH]; intros H; [reflexivity|].
  simpl in H. apply andb_true_iff in H as [Hc Hw].
  simpl. rewrite (IH Hw), Hc. reflexivity.
Qed.

(** What ends in a character that is no white space is left as it is;
    white space after it goes. *)
Lemma int_rstrip_app (s ws : string) (c : ascii) :
  Py.is_int_space c = false ->
  int_blank ws = true ->
  Py.int_rstrip (s ++ String c ws) = (s ++ String c EmptyString)%string.
Proof.
  intros Hc Hw. induction s as [|a s IH].
  - simpl. rewrite (int_rstrip_blank ws Hw), Hc. reflexivity.
  - simpl. rewrite IH. destruct s; reflexivity.
Qed.

Lemma all_digits_app (a b : string) :
  Py.all_digits (a ++ b) = Py.all_digits a && Py.all_digits b.
Proof.
  induction a as [|c a IH]; [reflexivity|]. simpl. rewrite IH.
  apply andb_assoc.
Qed.

Lemma int_digits_all (s : string) (acc : Z) :
  Py.all_digits s = true ->
  Py.int_digits s true acc = Some (Py.decimal s acc).
Proof.
  revert acc. induction s as [|c s IH]; simpl; intros acc H; [reflexivity|].
  apply andb_true_iff in H as [Hc Hs]. rewrite Hc. apply IH, Hs.
Qed.

Lemma int_digits_from (s : string) (acc : Z) :
  s <> EmptyString -> Py.all_digits s = true ->
  Py.int_digits s false acc = Some (Py.decimal s acc).
Proof.
  intros Hne Hd. destruct s as [|c s]; [congruence|].
  simpl in Hd |- *. apply andb_true_iff in Hd as [Hc Hs].
  rewrite Hc. apply int_digits_all, Hs.
Qed.

Lemma int_digits_start (s : string) :
  s <> EmptyString -> Py.all_digits s = true ->
  Py.int_digits s false 0 = Some (Py.decimal s 0).
Proof. apply int_digits_from. Qed.

Lemma count_digits_all (s : string) :
  Py.all_digits s = true -> Py.count_digits s = String.length s.
Proof.
  induction s as [|c s IH]; simpl; [reflexivity|]. intros H.
  apply andb_true_iff in H as [Hc Hs]. rewrite Hc, (IH Hs). reflexivity.
Qed.

(** A string with a last character. *)
Lemma string_last (s : string) :
  s <> EmptyString -> exists t c, s = (t ++ String c EmptyString)%string.
Proof.
  induction s as [|a s IH]; [congruence|]. intros _.
  destruct s as [|b s].
  - exists EmptyString, a. reflexivity.
  - destruct IH as (t & c & E); [discriminate|].
    exists (String a t), c. simpl. rewrite E. reflexivity.
Qed.

Lemma all_digits_last (t : string) (c : ascii) :
  Py.all_digits (t ++ String c EmptyString) = true -> Py.is_digit c = true.
Proof.
  rewrite all_digits_app. intros H. apply andb_true_iff in H as [_ H].
  simpl in H. rewrite andb_true_r in H. exact H.
Qed.

(** The two ends of a numeral in white space are taken off. *)
Lemma int_strip_numeral (ws1 body ws2 : string) (a z : ascii) (mid : string) :
  int_blank ws1 = true -> int_blank ws2 = true ->
  body = String a mid -> Py.is_int_space a = false ->
  (exists t, body = (t ++ String z EmptyString)%string) ->
  Py.is_int_space z = false ->
  Py.int_rstrip (Py.int_lstrip (ws1 ++ body ++ ws2)) = body.
Proof.
  intros H1 H2 Hb Ha (t & Ht) Hz.
  rewrite (int_lstrip_blank ws1 _ H1), Hb. cbn [append].
  rewrite (int_lstrip_head a _ Ha).
  change (String a (mid ++ ws2)) with (String a mid ++ ws2)%string.
  rewrite <- Hb, Ht, append_assoc. cbn [append].
  apply (int_rstrip_app t ws2 z Hz H2).
Qed.

(** [int] on a numeral: white space, an optional plus sign, at most 4300
    decimal digits, white space. *)
Lemma int_of_numeral (ws1 sign ds ws2 : string) :
  int_blank ws1 = true -> int_blank ws2 = true ->
  sign = EmptyString \/ sign = "+" ->
  ds <> EmptyString ->
  Py.all_digits ds = true ->
  (String.length ds <= Py.int_max_str_digits)%nat ->
  Py.int (ws1 ++ (sign ++ ds) ++ ws2) = Ret (Py.decimal ds 0).
Proof.
  intros H1 H2 Hs Hne Hd Hlen.
  destruct (string_last ds Hne) as (t & z & Ht).
  assert (Hz : Py.is_int_space z = false).
  { apply digit_not_space. rewrite Ht in Hd. apply (all_digits_last t z Hd). }
  assert (Hds : exists c r, ds = String c r /\ Py.is_digit c = true).
  { destruct ds as [|c r]; [congruence|]. exists c, r. split; [reflexivity|].
    simpl in Hd. apply andb_true_iff in Hd as [Hc _]. exact Hc. }
  destruct Hds as (c & r & Hc & Hcd).
  unfold Py.int.
  destruct Hs as [->| ->].
  - cbn [append].
    rewrite (int_strip_numeral ws1 ds ws2 c z r H1 H2 Hc
               (digit_not_space c Hcd) (ex_intro _ t Ht) Hz).
    assert (Hsign : match ds with
                    | String "-" r0 => (-1, r0)
                    | String "+" r0 => (1, r0)
                    | _ => (1, ds)
                    end = (1, ds)).
    { rewrite Hc.
      destruct c as [[] [] [] [] [] [] [] []]; try reflexivity; discriminate. }
    rewrite Hsign, (int_digits_start ds Hne Hd), (count_digits_all _ Hd).
    apply Nat.ltb_ge in Hlen. rewrite Hlen. f_equal. lia.
  - rewrite (int_strip_numeral ws1 ("+" ++ ds) ws2 "+" z ds H1 H2 eq_refl
               eq_refl).
    + cbn [append].
      rewrite (int_digits_start ds Hne Hd), (count_digits_all _ Hd).
      apply Nat.ltb_ge in Hlen. rewrite Hlen. f_equal. lia.
    + exists ("+" ++ t)%string. rewrite Ht. reflexivity.
    + exact Hz.
Qed.

(** [int] on a non-empty string of at most 4300 decimal digits. *)
Lemma int_of_digits (s : string) :
  s <> EmptyString ->
  Py.all_digits s = true ->
  (String.length s <= Py.int_max_str_digits)%nat ->
  Py.int s = Ret (Py.decimal s 0).
Proof.
  intros Hne Hd Hlen.
  pose proof (int_of_numeral "" "" s "" eq_refl eq_refl (or_introl eq_refl)
                Hne Hd Hlen) as H.
  cbn [append] in H. rewrite append_empty_r in H. exact H.
Qed.

(** More than 4300 digits are refused. *)
Lemma int_too_long (s : string) :
  Py.all_digits s = true ->
  (Py.int_max_str_digits < String.length s)%nat ->
  Py.int s = Raise ValueError.
Proof.
  intros Hd Hlen.
  assert (Hne : s <> EmptyString) by (intros ->; simpl in Hlen; lia).
  destruct (string_last s Hne) as (t & z & Ht).
  assert (Hz : Py.is_int_space z = false).
  { apply digit_not_space. rewrite Ht in Hd. apply (all_digits_last t z Hd). }
  destruct s as [|c r]; [congruence|].
  assert (Hcd : Py.is_digit c = true)
    by (simpl in Hd; apply andb_true_iff in Hd as [Hc _]; exact Hc).
  unfold Py.int.
  pose proof (int_strip_numeral "" (String c r) "" c z r eq_refl eq_refl
                eq_refl (digit_not_space c Hcd) (ex_intro _ t Ht) Hz) as Hs.
  cbn [append] in Hs. rewrite append_empty_r in Hs. rewrite Hs.
  assert (Hsign : match String c r with
                  | String "-" r0 => (-1, r0)
                  | String "+" r0 => (1, r0)
                  | _ => (1, String c r)
                  end = (1, String c r)).
  { destruct c as [[] [] [] [] [] [] [] []]; try reflexivity; discriminate. }
  rewrite Hsign, (int_digits_start _ Hne Hd), (count_digits_all _ Hd).
  apply Nat.ltb_lt in Hlen. rewrite Hlen. reflexivity.
Qed.

(** Stripping keeps every character that is no white space. *)
Lemma int_lstrip_keeps (c : ascii) (s : string) :
  Py.is_int_space c = false ->
  Py.has_char c s = true -> Py.has_char c (Py.int_lstrip s) = true.
Proof.
  intros Hc. induction s as [|a s IH]; simpl; [auto|].
  destruct (Py.is_int_space a) eqn:Ha; [|auto].
  intros H. apply orb_true_iff in H as [H|H]; [|apply IH, H].
  apply Ascii.eqb_eq in H. congruence.
Qed.

Lemma int_rstrip_keeps (c : ascii) (s : string) :
  Py.is_int_space c = false ->
  Py.has_char c s = true -> Py.has_char c (Py.int_rstrip s) = true.
Proof.
  intros Hc. induction s as [|a s IH]; simpl; [auto|].
  intros H. apply orb_true_iff in H as [H|H].
  - apply Ascii.eqb_eq in H. subst a.
    destruct (Py.int_rstrip s); [rewrite Hc|]; simpl;
      rewrite Ascii.eqb_refl; reflexivity.
  - specialize (IH H).
    destruct (Py.int_rstrip s) as [|b r]; [discriminate|].
    simpl in IH |- *. rewrite IH. apply orb_true_r.
Qed.

Lemma int_digits_bad_char (c : ascii) (s : string) (prev : bool) (acc : Z) :
  Py.has_char c s = true ->
  Py.is_digit c = false -> c <> "_"%char ->
  Py.int_digits s prev acc = None.
Proof.
  intros H Hd Hu. revert prev acc.
  induction s as [|a s IH]; intros prev acc; [discriminate|].
  simpl in H |- *. apply orb_true_iff in H as [H|H].
  - apply Ascii.eqb_eq in H. subst a. rewrite Hd.
    destruct (Ascii.eqb_spec c "_"); [contradiction|reflexivity].
  - destruct (Py.is_digit a); [apply (IH H)|].
    destruct (Ascii.eqb a "_"); [|reflexivity].
    destruct prev; [apply (IH H)|reflexivity].
Qed.

(** The sign is read off the first character. *)
Lemma int_sign_cases (body : string) :
  exists sg ds,
    match body with
    | String "-" r => (-1, r)
    | String "+" r => (1, r)
    | _ => (1, body)
    end = (sg, ds)
    /\ (body = ds /\ sg = 1
        \/ body = String "-" ds \/ body = String "+" ds /\ sg = 1).
Proof.
  destruct body as [|a r]; [exists 1, EmptyString; auto|].
  destruct a as [[] [] [] [] [] [] [] []];
    do 2 eexists; (split; [reflexivity|]); auto.
Qed.

(** A character that is no digit, no underscore, no sign and no white
    space makes [int] raise. *)
Lemma int_bad_char (c : ascii) (s : string) :
  Py.has_char c s = true ->
  Py.is_digit c = false -> c <> "_"%char -> c <> "+"%char ->
  c <> "-"%char -> Py.is_int_space c = false ->
  Py.int s = Raise ValueError.
Proof.
  intros H Hd Hu Hp Hm Hs. unfold Py.int. cbv zeta.
  pose proof (int_rstrip_keeps c _ Hs (int_lstrip_keeps c s Hs H)) as Hb.
  destruct (int_sign_cases (Py.int_rstrip (Py.int_lstrip s)))
    as (sg & ds & -> & Hcase).
  assert (Hc : Py.has_char c ds = true).
  { destruct Hcase as [[E _]|[E|[E _]]]; rewrite E in Hb; [exact Hb| |];
      cbn [Py.has_char] in Hb; apply orb_true_iff in Hb as [Hb|Hb];
      try exact Hb; apply Ascii.eqb_eq in Hb; congruence. }
  rewrite (int_digits_bad_char c ds false 0 Hc Hd Hu). reflexivity.
Qed.


Lemma rfind_from_app (p pre s : string) (i j : Z) :
  Py.rfind_from p s 0 = Some j ->
  Py.rfind_from p (pre ++ s) i = Some (i + Py.len pre + j).
Proof.
  intros Hs. revert i. induction pre as [|c pre IH]; intros i.
  - cbn [append]. unfold Py.len. cbn [String.length].
    assert (G : forall t k, Py.rfind_from p t k
                = option_map (Z.add k) (Py.rfind_from p t 0)).
    { clear. induction t as [|c t IHt]; intros k; simpl.
      - destruct (Py.startswith p ""); cbn [option_map];
          [f_equal; lia|reflexivity].
      - cbn [Py.rfind_from]. rewrite (IHt (k + 1)), (IHt 1).
        destruct (Py.rfind_from p t 0); cbn [option_map]; [f_equal; lia|].
        destruct (Py.startswith p (String c t)); cbn [option_map];
          [f_equal; lia|reflexivity]. }
    rewrite G, Hs. cbn [option_map]. f_equal. lia.
  - cbn [append Py.rfind_from]. rewrite (IH (i + 1)). f_equal.
    unfold Py.len. cbn [String.length]. lia.
Qed.

Lemma take_app (pre s : string) :
  Py.take (String.length pre) (pre ++ s) = pre.
Proof.
  induction pre as [|c pre IH]; simpl.
  - destruct s; reflexivity.
  - rewrite IH. reflexivity.
Qed.

Lemma take_succ_app (pre s : string) (c : ascii) :
  Py.take (S (String.length pre)) (pre ++ String c s)
  = (pre ++ String c EmptyString)%string.
Proof.
  induction pre as [|a pre IH].
  - simpl. destruct s; reflexivity.
  - change (String a (Py.take (S (String.length pre)) (pre ++ String c s))
            = String a (pre ++ String c "")).
    rewrite IH. reflexivity.
Qed.

(** The base URL is what precedes the last [playlist.m3u8]. *)
Lemma base_of_last_occurrence (pre post : string) :
  Py.rfind ("playlist.m3u8" ++ post) "playlist.m3u8" = 0 ->
  base_of (pre ++ "playlist.m3u8" ++ post) = pre.
Proof.
  unfold Py.rfind, base_of. intros H.
  destruct (Py.rfind_from "playlist.m3u8" ("playlist.m3u8" ++ post) 0)
    as [j|] eqn:E; [|discriminate]. subst j.
  unfold Py.rfind. rewrite (rfind_from_app _ pre _ 0 0 E).
  unfold Py.slice_to, Py.len.
  replace (0 + Z.of_nat (String.length pre) + 0 <? 0) with false
    by (symmetry; apply Z.ltb_ge; lia).
  replace (Z.to_nat (0 + Z.of_nat (String.length pre) + 0))
    with (String.length pre) by lia.
  apply take_app.
Qed.

Lemma spec_base_url_playlist (dir : string) :
  spec_base_url (dir ++ "/playlist.m3u8") = (dir ++ "/")%string.
Proof.
  unfold spec_base_url.
  rewrite (rfind_from_app "/" dir "/playlist.m3u8" 0 0 eq_refl).
  unfold Py.len.
  replace (Z.to_nat (0 + Z.of_nat (String.length dir) + 0))
    with (String.length dir) by lia.
  apply take_succ_app.
Qed.

Example rfind_found : Py.rfind "xx/playlist.m3u8" "playlist.m3u8" = 3.
Proof. reflexivity. Qed.

Example rfind_missing : Py.rfind "xx/master.m3u8" "playlist.m3u8" = -1.
Proof. reflexivity. Qed.

Example slice_to_negative : Py.slice_to "abc" (-1) = "ab".
Proof. reflexivity. Qed.

Example rsplit1_head_url :
  Py.rsplit1_head "/" "http://h/a/b.m3u8" = "http://h/a".
Proof. reflexivity. Qed.

Example int_spaced_signed : Py.int " +1_0 " = Ret 10.
Proof. reflexivity. Qed.

Example int_double_underscore : Py.int "1__0" = Raise ValueError.
Proof. reflexivity. Qed.

(** ** Segment sequence numbers *)

Lemma parse_segment_seq_total (uri : string) :
  exists n, _parse_segment_seq uri = Ret n.
Proof.
  unfold _parse_segment_seq.
  destruct (parse_segment_seq_try uri) as [[n|]|e]; eauto.
Qed.

Lemma parse_segment_seq_no_hyphen (uri : string) :
  Py.has_char "-" uri = false -> _parse_segment_seq uri = Ret (-1).
Proof.
  intros H. unfold _parse_segment_seq, parse_segment_seq_try.
  rewrite (split_free "-" uri H). reflexivity.
Qed.

Lemma parse_segment_seq_token (a tok rest : string) :
  Py.has_char "-" a = false ->
  Py.has_char "-" tok = false ->
  Py.has_char "." tok = false ->
  token_end rest ->
  _parse_segment_seq (a ++ String "-" (tok ++ rest))
  = Ret (match Py.int tok with Ret n => n | Raise _ => -1 end).
Proof.
  intros Ha Ht Hd Hr.
  destruct (token_of_uri a tok rest Ha Ht Hd Hr) as (p1 & more & ps & Hs & Hp).
  unfold _parse_segment_seq, parse_segment_seq_try.
  rewrite Hs. simpl. rewrite Hp. simpl.
  destruct (Py.int tok); reflexivity.
Qed.

Lemma int_blank_free (c : ascii) (ws : string) :
  Py.is_int_space c = false -> int_blank ws = true ->
  Py.has_char c ws = false.
Proof.
  intros Hc. induction ws as [|a ws IH]; [reflexivity|].
  simpl. intros H. apply andb_true_iff in H as [Ha Hw].
  rewrite (IH Hw), orb_false_r.
  destruct (Ascii.eqb_spec a c); [congruence|reflexivity].
Qed.

Lemma all_digits_free (c : ascii) (ds : string) :
  Py.is_digit c = false -> Py.all_digits ds = true ->
  Py.has_char c ds = false.
Proof.
  intros Hc. induction ds as [|a ds IH]; [reflexivity|].
  simpl. intros H. apply andb_true_iff in H as [Ha Hd].
  rewrite (IH Hd), orb_false_r.
  destruct (Ascii.eqb_spec a c); [congruence|reflexivity].
Qed.

Lemma has_char_append (c : ascii) (a b : string) :
  Py.has_char c (a ++ b) = Py.has_char c a || Py.has_char c b.
Proof.
  induction a as [|x a IH]; [reflexivity|]. simpl. rewrite IH.
  apply orb_assoc.
Qed.

(** A numeral holds neither a hyphen nor a dot. *)
Lemma numeral_free (c : ascii) (ws1 sign ds ws2 : string) :
  Py.is_int_space c = false -> Py.is_digit c = false -> c <> "+"%char ->
  int_blank ws1 = true -> int_blank ws2 = true ->
  sign = EmptyString \/ sign = "+" ->
  Py.all_digits ds = true ->
  Py.has_char c (ws1 ++ (sign ++ ds) ++ ws2) = false.
Proof.
  intros Hs Hd Hp H1 H2 Hsg Hds.
  rewrite !has_char_append, (int_blank_free c ws1 Hs H1),
    (int_blank_free c ws2 Hs H2), (all_digits_free c ds Hd Hds).
  destruct Hsg as [->| ->]; [reflexivity|].
  cbn [Py.has_char]. destruct (Ascii.eqb_spec "+" c); [congruence|].
  reflexivity.
Qed.

Lemma decimal_app (a b : string) (acc : Z) :
  Py.decimal (a ++ b) acc = Py.decimal b (Py.decimal a acc).
Proof.
  revert acc. induction a as [|c a IH]; intros acc; [reflexivity|].
  simpl. apply IH.
Qed.

Lemma int_digits_app (d s : string) (prev : bool) (acc : Z) :
  d <> EmptyString -> Py.all_digits d = true ->
  Py.int_digits (d ++ s) prev acc = Py.int_digits s true (Py.decimal d acc).
Proof.
  intros Hne Hd. revert prev acc.
  induction d as [|c d IH]; intros prev acc; [congruence|].
  simpl in Hd. apply andb_true_iff in Hd as [Hc Hd'].
  cbn [append Py.int_digits Py.decimal]. rewrite Hc.
  destruct d as [|c' d]; [reflexivity|]. apply IH; [discriminate|exact Hd'].
Qed.

Lemma count_digits_app (a b : string) :
  Py.count_digits (a ++ b) = (Py.count_digits a + Py.count_digits b)%nat.
Proof.
  induction a as [|c a IH]; [reflexivity|]. simpl.
  destruct (Py.is_digit c); rewrite IH; reflexivity.
Qed.

(** [int] on two groups of digits with an underscore between them: the
    underscore does not count as a digit. *)
Lemma int_of_underscored (d1 d2 : string) :
  d1 <> EmptyString -> d2 <> EmptyString ->
  Py.all_digits d1 = true -> Py.all_digits d2 = true ->
  (String.length d1 + String.length d2 <= Py.int_max_str_digits)%nat ->
  Py.int (d1 ++ String "_" d2) = Ret (Py.decimal (d1 ++ d2) 0).
Proof.
  intros Hn1 Hn2 Hd1 Hd2 Hlen.
  destruct (string_last d2 Hn2) as (t & z & Ht).
  assert (Hz : Py.is_int_space z = false).
  { apply digit_not_space. rewrite Ht in Hd2.
    apply (all_digits_last t z Hd2). }
  destruct d1 as [|c r]; [congruence|].
  assert (Hcd : Py.is_digit c = true)
    by (simpl in Hd1; apply andb_true_iff in Hd1 as [Hc _]; exact Hc).
  unfold Py.int.
  pose proof (int_strip_numeral "" (String c r ++ String "_" d2) ""
                c z (r ++ String "_" d2) eq_refl eq_refl eq_refl
                (digit_not_space c Hcd)) as Hs.
  cbn [append] in Hs. rewrite append_empty_r in Hs. cbn [append].
  rewrite Hs; [|exists (String c r ++ String "_" t)%string; rewrite Ht;
                 cbn [append]; rewrite append_assoc; reflexivity|exact Hz].
  assert (Hsign : match String c (r ++ String "_" d2) with
                  | String "-" r0 => (-1, r0)
                  | String "+" r0 => (1, r0)
                  | _ => (1, String c (r ++ String "_" d2))
                  end = (1, String c (r ++ String "_" d2))).
  { destruct c as [[] [] [] [] [] [] [] []]; try reflexivity; discriminate. }
  rewrite Hsign.
  change (String c (r ++ String "_" d2))
    with (String c r ++ String "_" d2)%string.
  rewrite (int_digits_app (String c r) _ false 0 Hn1 Hd1).
  cbn [Py.int_digits Py.is_digit Py.char_code nat_of_ascii].
  change (Py.is_digit "_") with false. cbn iota.
  change (Ascii.eqb "_" "_") with true. cbn iota.
  rewrite (int_digits_from d2 _ Hn2 Hd2).
  rewrite count_digits_app.
  change (Py.count_digits (String "_" d2)) with (Py.count_digits d2).
  rewrite (count_digits_all _ Hd1), (count_digits_all _ Hd2).
  apply Nat.ltb_ge in Hlen. rewrite Hlen.
  change (String c (r ++ d2)) with (String c r ++ d2)%string.
  rewrite decimal_app. f_equal. lia.
Qed.

(** C8, as amended: ["segment-12345.ts"] gives 12345; a URI without a
    hyphen, such as ["chunk.ts"], gives -1; in a URI [a-tok...], where
    the token [tok] ends at the next hyphen, at the next dot or with the
    URI, the result is what [int] makes of [tok], and -1 when [int]
    rejects it, so that ["a-b-c.ts"] gives -1. A token made of white
    space, an optional plus sign, at most 4300 decimal digits and white
    space gives the number the digits denote, and so do two groups of
    digits with an underscore between them, of at most 4300 digits in
    all. A token of more than 4300 digits gives -1, and so does a token
    with a character that is no digit, underscore, plus sign or white
    space; the separators U+001C to U+001F are no white space here.
    The extraction always returns. *)
Theorem C8_parse_segment_seq :
  _parse_segment_seq "segment-12345.ts" = Ret 12345
  /\ _parse_segment_seq "chunk.ts" = Ret (-1)
  /\ (forall uri, Py.has_char "-" uri = false ->
        _parse_segment_seq uri = Ret (-1))
  /\ _parse_segment_seq "a-b-c.ts" = Ret (-1)
  /\ (forall a tok rest,
        Py.has_char "-" a = false ->
        Py.has_char "-" tok = false ->
        Py.has_char "." tok = false ->
        token_end rest ->
        _parse_segment_seq (a ++ String "-" (tok ++ rest))
        = Ret (match Py.int tok with Ret n => n | Raise _ => -1 end))
  /\ (forall a ws1 sign ds ws2 rest,
        Py.has_char "-" a = false ->
        int_blank ws1 = true -> int_blank ws2 = true ->
        sign = EmptyString \/ sign = "+" ->
        ds <> EmptyString ->
        Py.all_digits ds = true ->
        (String.length ds <= 4300)%nat ->
        token_end rest ->
        _parse_segment_seq
          (a ++ String "-" ((ws1 ++ (sign ++ ds) ++ ws2) ++ rest))
        = Ret (Py.decimal ds 0))
  /\ (forall a d1 d2 rest,
        Py.has_char "-" a = false ->
        d1 <> EmptyString -> d2 <> EmptyString ->
        Py.all_digits d1 = true -> Py.all_digits d2 = true ->
        (String.length d1 + String.length d2 <= 4300)%nat ->
        token_end rest ->
        _parse_segment_seq (a ++ String "-" ((d1 ++ String "_" d2) ++ rest))
        = Ret (Py.decimal (d1 ++ d2) 0))
  /\ (forall a ds rest,
        Py.has_char "-" a = false ->
        Py.all_digits ds = true ->
        (4300 < String.length ds)%nat ->
        token_end rest ->
        _parse_segment_seq (a ++ String "-" (ds ++ rest)) = Ret (-1))
  /\ (forall a tok rest c,
        Py.has_char "-" a = false ->
        Py.has_char "-" tok = false ->
        Py.has_char "." tok = false ->
        token_end rest ->
        Py.has_char c tok = true ->
        Py.is_digit c = false -> c <> "_"%char -> c <> "+"%char ->
        Py.is_int_space c = false ->
        _parse_segment_seq (a ++ String "-" (tok ++ rest)) = Ret (-1))
  /\ Py.is_int_space "028" = false
  /\ (forall uri, exists n, _parse_segment_seq uri = Ret n).
Proof.
  split; [reflexivity|]. split; [reflexivity|].
  split; [exact parse_segment_seq_no_hyphen|].
  split; [reflexivity|].
  split; [exact parse_segment_seq_token|].
  split.
  { intros a ws1 sign ds ws2 rest Ha H1 H2 Hsg Hne Hd Hlen Hr.
    rewrite (parse_segment_seq_token a _ rest Ha);
      [|apply numeral_free; auto; discriminate
       |apply numeral_free; auto; discriminate|exact Hr].
    rewrite (int_of_numeral ws1 sign ds ws2 H1 H2 Hsg Hne Hd Hlen).
    reflexivity. }
  split.
  { intros a d1 d2 rest Ha Hn1 Hn2 Hd1 Hd2 Hlen Hr.
    assert (Hfree : forall c, Py.is_digit c = false -> c <> "_"%char ->
                      Py.has_char c (d1 ++ String "_" d2) = false).
    { intros c Hc Hu. rewrite has_char_append. cbn [Py.has_char].
      rewrite (all_digits_free c d1 Hc Hd1), (all_digits_free c d2 Hc Hd2).
      destruct (Ascii.eqb_spec "_" c); [congruence|reflexivity]. }
    rewrite (parse_segment_seq_token a _ rest Ha);
      [|apply Hfree; [reflexivity|discriminate]
       |apply Hfree; [reflexivity|discriminate]|exact Hr].
    rewrite (int_of_underscored d1 d2 Hn1 Hn2 Hd1 Hd2 Hlen). reflexivity. }
  split.
  { intros a ds rest Ha Hd Hlen Hr.
    rewrite (parse_segment_seq_token a ds rest Ha);
      [|apply all_digits_free; [reflexivity|exact Hd]
       |apply all_digits_free; [reflexivity|exact Hd]|exact Hr].
    rewrite (int_too_long ds Hd Hlen). reflexivity. }
  split.
  { intros a tok rest c Ha Ht Hdot Hr Hc Hd Hu Hp Hs.
    rewrite (parse_segment_seq_token a tok rest Ha Ht Hdot Hr).
    rewrite (int_bad_char c tok Hc Hd Hu Hp); [reflexivity| |exact Hs].
    intros ->. congruence. }
  split; [reflexivity|exact parse_segment_seq_total].
Qed.

Lemma C8_parse_segment_seq_witness :
  _parse_segment_seq "a-7-c.ts" = Ret 7
  /\ _parse_segment_seq "a- +007 .5-c.ts" = Ret 7
  /\ _parse_segment_seq
       ("a-" ++ String "009" (String "010" (String "011" (String "012"
          (String "013" (String "133" (String "160" "12.ts")))))))
     = Ret 12
  /\ _parse_segment_seq "a-1_0.ts" = Ret 10
  /\ _parse_segment_seq ("a-" ++ copies 4301 "7" ++ ".ts") = Ret (-1)
  /\ _parse_segment_seq ("a-" ++ String "028" "12.ts") = Ret (-1)
  /\ _parse_segment_seq "plain" = Ret (-1).
Proof.
  destruct C8_parse_segment_seq
    as (_ & _ & H3 & _ & H5 & H6 & H7 & H8 & H9 & _).
  split; [|split; [|split; [|split; [|split; [|split]]]]].
  - apply (H5 "a" "7" "-c.ts"); try reflexivity.
    right; left; eexists; reflexivity.
  - apply (H6 "a" " " "+" "007" " " ".5-c.ts"); try reflexivity.
    + right. reflexivity.
    + discriminate.
    + apply Nat.leb_le. reflexivity.
    + right; right; eexists; reflexivity.
  - apply (H6 "a"
             (String "009" (String "010" (String "011" (String "012"
                (String "013" (String "133" (String "160" "")))))))
             "" "12" "" ".ts"); try reflexivity.
    + left. reflexivity.
    + discriminate.
    + apply Nat.leb_le. reflexivity.
    + right; right; eexists; reflexivity.
  - apply (H7 "a" "1" "0" ".ts"); try reflexivity; try discriminate.
    + apply Nat.leb_le. reflexivity.
    + right; right; eexists; reflexivity.
  - apply (H8 "a" (copies 4301 "7") ".ts"); try reflexivity.
    + apply Nat.ltb_lt. vm_compute. reflexivity.
    + right; right; eexists; reflexivity.
  - apply (H9 "a" (String "028" "12") ".ts" "028"%char);
      try reflexivity; try discriminate.
    right; right; eexists; reflexivity.
  - apply (H3 "plain"). reflexivity.
Defined.

(** C8 as stated fails: a token of 4301 digits is numeric, and the
    extraction gives -1, not the number. *)
Lemma C8_counterexample :
  Py.all_digits (copies 4301 "1") = true
  /\ 0 < Py.decimal (copies 4301 "1") 0
  /\ _parse_segment_seq ("segment-" ++ copies 4301 "1" ++ ".ts") = Ret (-1).
Proof. vm_compute. repeat split. Qed.

(** ** Dictionaries *)

Section DictFacts.
Context {K V : Type} (keq : K -> K -> bool).
Hypothesis keq_eq : forall a b, keq a b = true <-> a = b.

Lemma keq_refl (k : K) : keq k k = true.
Proof. apply keq_eq. reflexivity. Qed.


Lemma dict_get_set_same (k : K) (v : V) (d : list (K * V)) :
  dict_get keq k (dict_set keq k v d) = Some v.
Proof.
  induction d as [|[k' v'] d IH]; simpl.
  - rewrite keq_refl. reflexivity.
  - destruct (keq k k') eqn:E; simpl; rewrite E; [reflexivity|exact IH].
Qed.


Lemma dict_get_In (k : K) (v : V) (d : list (K * V)) :
  dict_get keq k d = Some v -> In (k, v) d.
Proof.
  induction d as [|[k' v'] d IH]; simpl; [discriminate|].
  destruct (keq k k') eqn:E.
  - apply keq_eq in E. subst k'. intros [= ->]. left. reflexivity.
  - intros H. right. apply IH, H.
Qed.

Lemma dict_get_none (k : K) (d : list (K * V)) :
  dict_get keq k d = None <-> ~ In k (dict_keys d).
Proof.
  induction d as [|[k' v'] d IH]; simpl.
  - split; [intros _ []|reflexivity].
  - destruct (keq k k') eqn:E.
    + apply keq_eq in E. subst k'. split; [discriminate|].
      intros H. exfalso. apply H. left. reflexivity.
    + rewrite IH. split.
      * intros H [H1|H1]; [|exact (H H1)].
        subst k'. rewrite keq_refl in E. discriminate.
      * intros H H1. apply H. right. exact H1.
Qed.

Lemma dict_mem_keys (k : K) (d : list (K * V)) :
  dict_mem keq k d = true <-> In k (dict_keys d).
Proof.
  unfold dict_mem. destruct (dict_get keq k d) eqn:E.
  - split; [intros _|reflexivity].
    apply dict_get_In in E. apply (in_map fst) in E. exact E.
  - split; [discriminate|]. intros H. apply dict_get_none in E. contradiction.
Qed.

Lemma dict_get_of_In (k : K) (v : V) (d : list (K * V)) :
  NoDup (dict_keys d) -> In (k, v) d -> dict_get keq k d = Some v.
Proof.
  induction d as [|[k' v'] d IH]; simpl; [intros _ []|].
  intros Hnd [H|H].
  - injection H as -> ->. rewrite keq_refl. reflexivity.
  - inversion Hnd as [|? ? Hnotin Hnd']; subst.
    destruct (keq k k') eqn:E.
    + apply keq_eq in E. subst k'. exfalso. apply Hnotin.
      apply (in_map fst) in H. exact H.
    + apply IH; assumption.
Qed.

Lemma dict_keys_set (k : K) (v : V) (d : list (K * V)) :
  dict_keys (dict_set keq k v d)
  = if dict_mem keq k d then dict_keys d else dict_keys d ++ [k].
Proof.
  unfold dict_mem. induction d as [|[k' v'] d IH]; simpl; [reflexivity|].
  destruct (keq k k') eqn:E; simpl.
  - apply keq_eq in E. subst k'. reflexivity.
  - rewrite IH. destruct (dict_get keq k d); reflexivity.
Qed.

Lemma dict_set_NoDup (k : K) (v : V) (d : list (K * V)) :
  NoDup (dict_keys d) -> NoDup (dict_keys (dict_set keq k v d)).
Proof.
  intros Hnd. rewrite dict_keys_set.
  destruct (dict_mem keq k d) eqn:E; [exact Hnd|].
  apply NoDup_app; [exact Hnd|repeat constructor; intros []|].
  intros x Hx [<-|[]].
  apply dict_mem_keys in Hx. congruence.
Qed.

Lemma dict_set_In (k k' : K) (v v' : V) (d : list (K * V)) :
  In (k', v') (dict_set keq k v d) -> v' = v \/ In (k', v') d.
Proof.
  induction d as [|[k0 v0] d IH]; simpl.
  - intros [[= <- <-]|[]]. left. reflexivity.
  - destruct (keq k k0); simpl.
    + intros [[= <- <-]|H]; [left; reflexivity|right; right; exact H].
    + intros [H|H]; [right; left; exact H|].
      destruct (IH H) as [->|H']; [left; reflexivity|right; right; exact H'].
Qed.

Lemma dict_set_not_nil (k : K) (v : V) (d : list (K * V)) :
  dict_set keq k v d <> [].
Proof.
  destruct d as [|[k' v'] d]; simpl; [discriminate|].
  destruct (keq k k'); discriminate.
Qed.

(** Assigning into a non-empty dictionary leaves its first key first. *)
Lemma dict_set_first_key (k : K) (v : V) (x : K * V) (d : list (K * V)) :
  exists v' d', dict_set keq k v (x :: d) = (fst x, v') :: d'.
Proof.
  destruct x as [k' v0]. simpl.
  destruct (keq k k'); eexists; eexists; reflexivity.
Qed.
End DictFacts.

Lemma Z_eqb_eq (a b : Z) : Z.eqb a b = true <-> a = b.
Proof. apply Z.eqb_eq. Qed.

Lemma string_eqb_eq (a b : string) : String.eqb a b = true <-> a = b.
Proof. apply String.eqb_eq. Qed.

Lemma max_by_spec {A : Type} (key : A -> Z) (l : list A) (x : A) :
  In (max_by key x l) (x :: l)
  /\ forall y, In y (x :: l) -> key y <= key (max_by key x l).
Proof.
  unfold max_by. revert x. induction l as [|a l IH]; intros x; simpl.
  - split; [left; reflexivity|]. intros y [<-|[]]. lia.
  - destruct (IH (if key x <? key a then a else x)) as [Hin Hmax].
    split.
    + destruct Hin as [Hin|Hin]; [|right; right; exact Hin].
      rewrite <- Hin. destruct (key x <? key a); [right|]; left; reflexivity.
    + intros y Hy.
      assert (Hx : key x <= key (if key x <? key a then a else x)
                   /\ key a <= key (if key x <? key a then a else x)).
      { destruct (Z.ltb_spec (key x) (key a)); lia. }
      destruct Hy as [<-|[<-|Hy]].
      * etransitivity; [apply Hx|]. apply Hmax. left. reflexivity.
      * etransitivity; [apply Hx|]. apply Hmax. left. reflexivity.
      * apply Hmax. right. exact Hy.
Qed.

(** ** The [resolutions] dictionary *)

Lemma has_width_resolution (w : Z) (p : M3U8.Variant) :
  has_width w p = true -> has_resolution p = true.
Proof.
  unfold has_width, has_resolution.
  destruct (M3U8.resolution (M3U8.stream_info p)) as [[w' h]|];
    [reflexivity|discriminate].
Qed.

(** The read of the name raises, whatever the variant. *)
Lemma variant_fr_raises (p : M3U8.Variant) :
  variant_fr p = Raise (LibraryError "AttributeError").
Proof. reflexivity. Qed.

Lemma add_variant_no_resolution (rs : list (Z * VariantEntry))
  (p : M3U8.Variant) :
  has_resolution p = false -> add_variant rs p = Ret rs.
Proof.
  unfold has_resolution, add_variant.
  destruct (M3U8.resolution (M3U8.stream_info p)) as [[w h]|];
    [discriminate|reflexivity].
Qed.

Lemma add_variant_raises (rs : list (Z * VariantEntry)) (p : M3U8.Variant) :
  has_resolution p = true ->
  add_variant rs p = Raise (LibraryError "AttributeError").
Proof.
  unfold has_resolution, add_variant.
  destruct (M3U8.resolution (M3U8.stream_info p)) as [[w h]|];
    [reflexivity|discriminate].
Qed.

Lemma collect_resolutions_none (rs : list (Z * VariantEntry))
  (pls : list M3U8.Variant) :
  (forall p, In p pls -> has_resolution p = false) ->
  collect_resolutions rs pls = Ret rs.
Proof.
  induction pls as [|p pls IH]; intros H; [reflexivity|].
  simpl. rewrite (add_variant_no_resolution rs p (H p (or_introl eq_refl))).
  simpl. apply IH. intros q Hq. apply H. right. exact Hq.
Qed.

Lemma collect_resolutions_raises (rs : list (Z * VariantEntry))
  (pls : list M3U8.Variant) (p : M3U8.Variant) :
  In p pls -> has_resolution p = true ->
  collect_resolutions rs pls = Raise (LibraryError "AttributeError").
Proof.
  induction pls as [|q pls IH]; intros Hin Hp; [destruct Hin|].
  simpl. destruct (has_resolution q) eqn:Hq.
  - rewrite (add_variant_raises rs q Hq). reflexivity.
  - rewrite (add_variant_no_resolution rs q Hq). simpl.
    destruct Hin as [->|Hin]; [congruence|]. apply IH; assumption.
Qed.

(** The loop returns only when no variant has a resolution, and then
    the dictionary it was started on. *)
Lemma collect_resolutions_ret (rs rs' : list (Z * VariantEntry))
  (pls : list M3U8.Variant) :
  collect_resolutions rs pls = Ret rs' ->
  rs' = rs /\ forall p, In p pls -> has_resolution p = false.
Proof.
  intros H.
  assert (Hall : forall p, In p pls -> has_resolution p = false).
  { intros p Hin. destruct (has_resolution p) eqn:Hp; [|reflexivity].
    rewrite (collect_resolutions_raises rs pls p Hin Hp) in H.
    discriminate. }
  rewrite (collect_resolutions_none rs pls Hall) in H.
  injection H as <-. auto.
Qed.

Lemma select_variant_nil (resolution : Z) :
  select_variant [] resolution = Ret None.
Proof. reflexivity. Qed.

(** ** Playlist resolution *)

Section ResolutionFacts.
Context {W : World}.

Lemma or_none_returns {A : Type} (r : exc (option A)) :
  exists a, or_none r = Ret a.
Proof. destruct r; simpl; eauto. Qed.

Lemma parse_playlist_parse_error (hls content : string)
  (resolution framerate : Z) (e : exn) :
  M3U8_parse content = Raise e ->
  parse_playlist hls content resolution framerate = Ret None.
Proof.
  intros H. unfold parse_playlist, parse_playlist_try. rewrite H.
  reflexivity.
Qed.

Lemma parse_playlist_not_variant (hls content : string)
  (resolution framerate : Z) (m : M3U8.t) :
  M3U8_parse content = Ret m -> M3U8.is_variant m = false ->
  parse_playlist hls content resolution framerate = Ret None.
Proof.
  intros H Hv. unfold parse_playlist, parse_playlist_try.
  rewrite H. simpl. rewrite Hv. reflexivity.
Qed.

(** Whatever it is given, [parse_playlist] returns [None]: the parser
    raises, or the manifest is no master manifest, or the loop over
    the variants raises at the first variant that has a resolution,
    or no variant has one and the dictionary is empty. *)
Lemma parse_playlist_none (hls content : string)
  (resolution framerate : Z) :
  parse_playlist hls content resolution framerate = Ret None.
Proof.
  unfold parse_playlist, parse_playlist_try.
  destruct (M3U8_parse content) as [m|e]; [|reflexivity]. simpl.
  destruct (M3U8.is_variant m); [|reflexivity]. simpl.
  destruct (collect_resolutions [] (M3U8.playlists m)) as [rs|e] eqn:E;
    [|reflexivity].
  destruct (collect_resolutions_ret _ _ _ E) as [-> _]. reflexivity.
Qed.

(** C1 does not hold of the code. The loop that builds the variant set
    reads [stream_info.name], an attribute class [StreamInfo] does not
    have: for a manifest that lists a variant of the target width, or
    of a width below it, the read raises [AttributeError], the variant
    set is not built and [parse_playlist] returns [None], where the
    claim has that width, or the greatest width below the target,
    selected. *)
Theorem C1_width_not_selected (hls content : string)
  (resolution framerate : Z) (m : M3U8.t) (p : M3U8.Variant) (w : Z) :
  M3U8_parse content = Ret m ->
  M3U8.is_variant m = true ->
  In p (M3U8.playlists m) ->
  has_width w p = true ->
  w <= resolution ->
  collect_resolutions [] (M3U8.playlists m)
  = Raise (LibraryError "AttributeError")
  /\ parse_playlist_try hls content resolution framerate
     = Raise (LibraryError "AttributeError")
  /\ parse_playlist hls content resolution framerate = Ret None.
Proof.
  intros Hm Hv Hin Hw _.
  assert (Hc : collect_resolutions [] (M3U8.playlists m)
               = Raise (LibraryError "AttributeError")).
  { apply (collect_resolutions_raises [] _ p Hin).
    apply (has_width_resolution w p Hw). }
  split; [exact Hc|].
  unfold parse_playlist, parse_playlist_try.
  rewrite Hm. simpl. rewrite Hv. simpl. rewrite Hc. auto.
Qed.

(** C7 does not hold of the code, by the defect of C1. The frame rate
    of a variant is to be read off [stream_info.name], and that read
    raises [AttributeError] for every variant: no bucket of frame
    rates is filled, and for a manifest with a variant of the target
    width [parse_playlist] returns [None] whatever the target frame
    rate, where the claim has a playlist of that frame rate or of the
    bucket's first one. *)
Theorem C7_no_framerate_selected (hls content : string)
  (resolution framerate : Z) (m : M3U8.t) (p : M3U8.Variant) :
  M3U8_parse content = Ret m ->
  In p (M3U8.playlists m) ->
  has_width resolution p = true ->
  variant_fr p = Raise (LibraryError "AttributeError")
  /\ (forall rs, add_variant rs p = Raise (LibraryError "AttributeError"))
  /\ (forall rs, collect_resolutions [] (M3U8.playlists m) <> Ret rs)
  /\ parse_playlist hls content resolution framerate = Ret None.
Proof.
  intros Hm Hin Hw.
  pose proof (has_width_resolution _ _ Hw) as Hr.
  split; [reflexivity|]. split.
  - intros rs. apply add_variant_raises, Hr.
  - split; [|apply parse_playlist_none].
    intros rs. rewrite (collect_resolutions_raises [] _ p Hin Hr).
    discriminate.
Qed.

(** C9: [parse_playlist] always returns; it returns [None] when the
    manifest parser raises, when the manifest is no master manifest,
    when no variant has a resolution, and when the target width is no
    key and no key lies below it. *)
Theorem C9_parse_playlist_never_raises (hls content : string)
  (resolution framerate : Z) :
  (exists r, parse_playlist hls content resolution framerate = Ret r)
  /\ (forall e, M3U8_parse content = Raise e ->
        parse_playlist hls content resolution framerate = Ret None)
  /\ (forall m, M3U8_parse content = Ret m ->
        M3U8.is_variant m = false ->
        parse_playlist hls content resolution framerate = Ret None)
  /\ (forall m, M3U8_parse content = Ret m ->
        (forall p, In p (M3U8.playlists m) ->
           M3U8.resolution (M3U8.stream_info p) = None) ->
        parse_playlist hls content resolution framerate = Ret None)
  /\ (forall m rs, M3U8_parse content = Ret m ->
        collect_resolutions [] (M3U8.playlists m) = Ret rs ->
        dict_mem Z.eqb resolution rs = false ->
        (forall k, In k (dict_keys rs) -> resolution <= k) ->
        parse_playlist hls content resolution framerate = Ret None).
Proof.
  split; [apply or_none_returns|].
  split; [intros e; apply parse_playlist_parse_error|].
  split; [intros m; apply parse_playlist_not_variant|].
  split.
  - intros m Hm Hnone. unfold parse_playlist, parse_playlist_try.
    rewrite Hm. simpl. destruct (M3U8.is_variant m); [|reflexivity].
    simpl. rewrite (collect_resolutions_none [] (M3U8.playlists m)).
    + reflexivity.
    + intros p Hp. unfold has_resolution. rewrite (Hnone p Hp).
      reflexivity.
  - intros m rs Hm Hrs Hmem Hall.
    unfold parse_playlist, parse_playlist_try.
    rewrite Hm. simpl. destruct (M3U8.is_variant m); [|reflexivity].
    simpl. rewrite Hrs. simpl. unfold select_variant. rewrite Hmem.
    destruct (filter _ _) as [|c cs] eqn:Ec; [reflexivity|].
    destruct (collect_resolutions_ret _ _ _ Hrs) as [-> _].
    discriminate.
Qed.
End ResolutionFacts.

(** C6 does not hold of the code, by the defect of C1. No playlist comes
    out of [parse_playlist], whatever the source URL and the manifest:
    the dictionary of resolutions is built only when it is empty, and
    then no variant is selected, so that the lines that cut the source
    URL and join the URI to the base URL are never reached. For the
    source URL [https://cdn.test/live/playlist.m3u8] and a manifest with
    variants of widths 1920, 1280 and 640 the result is [None], where
    the claim has a playlist of base URL [https://cdn.test/live/]. *)
Theorem C6_no_base_url :
  (forall (W : World) hls content resolution framerate p,
     parse_playlist hls content resolution framerate <> Ret (Some p))
  /\ (forall (W : World) content resolution m rs,
        M3U8_parse content = Ret m ->
        collect_resolutions [] (M3U8.playlists m) = Ret rs ->
        select_variant rs resolution = Ret None)
  /\ parse_playlist (W := Sample.world) Sample.hls_source "master" 1280 30
     = Ret None
  /\ spec_base_url Sample.hls_source = "https://cdn.test/live/".
Proof.
  split; [|split; [|split; reflexivity]].
  - intros W hls content resolution framerate p.
    rewrite parse_playlist_none. discriminate.
  - intros W content resolution m rs _ Hrs.
    destruct (collect_resolutions_ret _ _ _ Hrs) as [-> _]. reflexivity.
Qed.

(** ** The resolution on the sample manifest *)

(** The sample manifest lists the widths 1920, 1280 and 640: for the
    target 1280, a width of the manifest, and for the target 1080, above
    the width 640, the result is [None]. *)
Lemma C1_width_not_selected_witness :
  In (Sample.variant 1280 720 "chunklist_720p.m3u8")
     (M3U8.playlists Sample.master)
  /\ parse_playlist (W := Sample.world) Sample.hls_source "master" 1280 30
     = Ret None
  /\ parse_playlist (W := Sample.world) Sample.hls_source "master" 1080 30
     = Ret None.
Proof.
  assert (H1280 : In (Sample.variant 1280 720 "chunklist_720p.m3u8")
                     (M3U8.playlists Sample.master))
    by (right; right; left; reflexivity).
  assert (H640 : In (Sample.variant 640 360 "chunklist_360p.m3u8")
                    (M3U8.playlists Sample.master))
    by (right; right; right; right; left; reflexivity).
  split; [exact H1280|]. split.
  - destruct (C1_width_not_selected (W := Sample.world) Sample.hls_source
                "master" 1280 30 Sample.master
                (Sample.variant 1280 720 "chunklist_720p.m3u8") 1280
                eq_refl eq_refl H1280 eq_refl) as (_ & _ & H); [lia|exact H].
  - destruct (C1_width_not_selected (W := Sample.world) Sample.hls_source
                "master" 1080 30 Sample.master
                (Sample.variant 640 360 "chunklist_360p.m3u8") 640
                eq_refl eq_refl H640 eq_refl) as (_ & _ & H); [lia|exact H].
Defined.

(** The sample manifest lists two variants of width 1920: the result is
    [None] for the target frame rate 30 and for the target 60. *)
Lemma C7_no_framerate_selected_witness :
  parse_playlist (W := Sample.world) Sample.hls_source "master" 1920 30
  = Ret None
  /\ parse_playlist (W := Sample.world) Sample.hls_source "master" 1920 60
     = Ret None.
Proof.
  assert (Hin : In (Sample.variant 1920 1080 "chunklist_1080p.m3u8")
                   (M3U8.playlists Sample.master))
    by (right; left; reflexivity).
  split.
  - apply (C7_no_framerate_selected (W := Sample.world) Sample.hls_source
             "master" 1920 30 Sample.master _ eq_refl Hin eq_refl).
  - apply (C7_no_framerate_selected (W := Sample.world) Sample.hls_source
             "master" 1920 60 Sample.master _ eq_refl Hin eq_refl).
Defined.

Lemma C9_parse_playlist_never_raises_witness :
  parse_playlist (W := Sample.world) Sample.hls_source "garbage" 1080 30
  = Ret None
  /\ parse_playlist (W := Sample.world) Sample.hls_source "media-1" 1080 30
     = Ret None
  /\ parse_playlist (W := Sample.world) Sample.hls_source "master" 100 30
     = Ret None
  /\ parse_playlist (W := Sample.world) Sample.hls_source "audio" 1080 30
     = Ret None
  /\ parse_playlist (W := Sample.world) Sample.hls_source "audio" 100 30
     = Ret None.
Proof.
  split; [|split; [|split; [|split]]].
  - destruct (C9_parse_playlist_never_raises (W := Sample.world)
                Sample.hls_source "garbage" 1080 30) as (_ & H & _).
    apply (H (LibraryError "ParseError")). reflexivity.
  - destruct (C9_parse_playlist_never_raises (W := Sample.world)
                Sample.hls_source "media-1" 1080 30) as (_ & _ & H & _).
    apply (H (Sample.media [Sample.seg1])); reflexivity.
  - destruct (C9_parse_playlist_never_raises (W := Sample.world)
                Sample.hls_source "master" 100 30) as ([r Hr] & _).
    rewrite Hr. revert Hr. vm_compute. intros [= <-]. reflexivity.
  - destruct (C9_parse_playlist_never_raises (W := Sample.world)
                Sample.hls_source "audio" 1080 30) as (_ & _ & _ & H & _).
    apply (H Sample.audio_master); [reflexivity|].
    intros p [<-|[]]. reflexivity.
  - destruct (C9_parse_playlist_never_raises (W := Sample.world)
                Sample.hls_source "audio" 100 30) as (_ & _ & _ & _ & H).
    apply (H Sample.audio_master []); try reflexivity.
    intros k [].
Defined.

(** When the source URL has no [playlist.m3u8] at all, [rfind] gives -1
    and the slice drops the last character. *)
Example base_of_without_playlist :
  base_of "https://cdn.test/live/master.m3u8"
  = "https://cdn.test/live/master.m3u".
Proof. reflexivity. Qed.

(** ** The segment watcher *)

Lemma marks_app (a b : list event) : marks (a ++ b) = marks a ++ marks b.
Proof.
  induction a as [|ev a IH]; simpl; [reflexivity|].
  destruct ev; simpl; rewrite IH; reflexivity.
Qed.

Lemma delivered_app (a b : list event) :
  delivered (a ++ b) = delivered a ++ delivered b.
Proof.
  induction a as [|ev a IH]; simpl; [reflexivity|].
  destruct ev; simpl; rewrite IH; reflexivity.
Qed.

Lemma gets_app (a b : list event) : gets (a ++ b) = (gets a + gets b)%nat.
Proof.
  induction a as [|ev a IH]; simpl; [reflexivity|].
  destruct ev; simpl; rewrite IH; reflexivity.
Qed.

Lemma parse_segment_seq_of (seg : M3U8.Segment) :
  _parse_segment_seq (M3U8.seg_uri seg) = Ret (seq_of seg).
Proof.
  unfold seq_of.
  destruct (parse_segment_seq_total (M3U8.seg_uri seg)) as [n ->].
  reflexivity.
Qed.

Section WatcherFacts.
Context {W : World}.
Variable handler : Handler.

Lemma logged_nil (s : WState) : logged s [] = s.
Proof. destruct s. unfold logged. simpl. rewrite app_nil_r. reflexivity. Qed.

Lemma logged_logged (s : WState) (a b : list event) :
  logged (logged s a) b = logged s (a ++ b).
Proof. unfold logged. simpl. rewrite app_assoc. reflexivity. Qed.

(** *** One attempt *)

(** The four ways an attempt can go: the join raises; the request
    raises; the status is an error; the callback is called, and the
    attempt ends as the callback does. *)
Lemma attempt_try_spec (seg : M3U8.Segment) (s : WState) :
  attempt_try handler seg s =
  match urljoin (base_url (self s)) (M3U8.seg_uri seg) with
  | Raise e => (Raise e, s)
  | Ret u =>
      match session_get u (env s) with
      | (Raise e, e1) =>
          (Raise e, {| env := e1; self := self s;
                       trace := trace s ++ [EvGet u] |})
      | (Ret resp, e1) =>
          if bad_status resp then
            (Raise HTTPError, {| env := e1; self := self s;
                                 trace := trace s ++ [EvGet u] |})
          else
            (fst (handler (content resp) (M3U8.duration seg) e1),
             {| env := snd (handler (content resp) (M3U8.duration seg) e1);
                self := self s;
                trace := trace s ++ [EvGet u; EvHandler seg (content resp)] |})
      end
  end.
Proof.
  unfold attempt_try, bind, lift, get, raise_for_status, call_handler,
    bad_status, raise, ret. simpl.
  destruct (urljoin (base_url (self s)) (M3U8.seg_uri seg)) as [u|e];
    [|reflexivity].
  destruct (session_get u (env s)) as [[resp|e] e1]; [|reflexivity].
  destruct ((400 <=? status_code resp) && (status_code resp <? 600));
    simpl; [reflexivity|].
  destruct (handler (content resp) (M3U8.duration seg) e1) as [r e2].
  simpl. rewrite <- app_assoc. reflexivity.
Qed.

Lemma attempt_try_outcome (seg : M3U8.Segment) (s : WState) :
  exists tr,
    attempt_outcome handler seg s (fst (attempt_try handler seg s))
      (snd (attempt_try handler seg s)) tr.
Proof.
  rewrite attempt_try_spec.
  destruct (urljoin (base_url (self s)) (M3U8.seg_uri seg)) as [u|e] eqn:Hj.
  - destruct (session_get u (env s)) as [[resp|e] e1] eqn:Hg.
    + destruct (bad_status resp) eqn:Hb.
      * eexists. eapply AttemptBadStatus; eauto.
      * destruct (handler (content resp) (M3U8.duration seg) e1)
          as [r e2] eqn:Hh.
        eexists. simpl. eapply AttemptHandled; eauto.
    + eexists. eapply AttemptGetRaises; eauto.
  - eexists. apply AttemptJoinRaises. exact Hj.
Qed.

Lemma attempt_outcome_frame (seg : M3U8.Segment) (s s' : WState)
  (r : exc unit) (tr : list event) :
  attempt_outcome handler seg s r s' tr ->
  self s' = self s
  /\ trace s' = trace s ++ tr
  /\ (gets tr <= 1)%nat
  /\ (List.length (delivered tr) <= 1)%nat
  /\ marks tr = [].
Proof.
  intros H. destruct H; simpl; repeat split; auto.
  rewrite app_nil_r; reflexivity.
Qed.

Lemma attempt_outcome_ok (seg : M3U8.Segment) (s s' : WState)
  (tr : list event) :
  attempt_outcome handler seg s (Ret tt) s' tr ->
  exists u resp e1,
    urljoin (base_url (self s)) (M3U8.seg_uri seg) = Ret u
    /\ session_get u (env s) = (Ret resp, e1)
    /\ bad_status resp = false
    /\ handler (content resp) (M3U8.duration seg) e1 = (Ret tt, env s')
    /\ tr = [EvGet u; EvHandler seg (content resp)].
Proof.
  intros H. inversion H; subst. exists u, resp, e1. simpl. auto.
Qed.

Lemma attempt_outcome_raise (seg : M3U8.Segment) (s s' : WState)
  (e : exn) (tr : list event) :
  never_raises handler ->
  attempt_outcome handler seg s (Raise e) s' tr ->
  delivered tr = [].
Proof.
  intros Hn H. inversion H; subst; try reflexivity.
  match goal with
  | Hh : handler ?d ?q ?x = (Raise _, _) |- _ =>
      pose proof (Hn d q x) as Hr; rewrite Hh in Hr; discriminate
  end.
Qed.

(** *** The three attempts *)

Lemma deliver_unfold (seg : M3U8.Segment) (s : WState) :
  deliver handler seg s =
  let a1 := attempt_try handler seg s in
  match fst a1 with
  | Ret _ => (Ret tt, snd a1)
  | Raise _ =>
      let a2 := attempt_try handler seg (after_wait (snd a1)) in
      match fst a2 with
      | Ret _ => (Ret tt, snd a2)
      | Raise _ =>
          let a3 := attempt_try handler seg (after_wait (snd a2)) in
          match fst a3 with
          | Ret _ => (Ret tt, snd a3)
          | Raise e => (Raise e, snd a3)
          end
      end
  end.
Proof.
  unfold deliver, range3. cbn [retry Z.eqb]. cbv zeta.
  change (sleep retry_wait) with (emit (EvSleep retry_wait)).
  destruct (attempt_try handler seg s) as [[[]|e1] s1]; [reflexivity|].
  unfold bind, emit. cbn [fst snd].
  change {| env := env s1; self := self s1;
            trace := trace s1 ++ [EvSleep retry_wait] |}
    with (after_wait s1).
  destruct (attempt_try handler seg (after_wait s1)) as [[[]|e2] s2];
    [reflexivity|].
  cbn [fst snd].
  change {| env := env s2; self := self s2;
            trace := trace s2 ++ [EvSleep retry_wait] |}
    with (after_wait s2).
  destruct (attempt_try handler seg (after_wait s2)) as [[[]|e3] s3];
    reflexivity.
Qed.

Lemma deliver_has_outcome (seg : M3U8.Segment) (s : WState) :
  exists tr,
    deliver_outcome handler seg s (fst (deliver handler seg s))
      (snd (deliver handler seg s)) tr.
Proof.
  rewrite deliver_unfold. cbv zeta.
  destruct (attempt_try_outcome seg s) as [t1 H1].
  destruct (attempt_try handler seg s) as [[[]|e1] s1]; cbn [fst snd] in *.
  { exists t1. apply DeliverFirst. exact H1. }
  destruct (attempt_try_outcome seg (after_wait s1)) as [t2 H2].
  destruct (attempt_try handler seg (after_wait s1)) as [[[]|e2] s2];
    cbn [fst snd] in *.
  { eexists. eapply DeliverSecond; eauto. }
  destruct (attempt_try_outcome seg (after_wait s2)) as [t3 H3].
  destruct (attempt_try handler seg (after_wait s2)) as [[[]|e3] s3];
    cbn [fst snd] in *; eexists; eapply DeliverThird; eauto.
Qed.

Lemma deliver_outcome_frame (seg : M3U8.Segment) (s s' : WState)
  (r : exc unit) (tr : list event) :
  deliver_outcome handler seg s r s' tr ->
  self s' = self s
  /\ trace s' = trace s ++ tr
  /\ (gets tr <= 3)%nat
  /\ (List.length (delivered tr) <= 3)%nat
  /\ marks tr = [].
Proof.
  intros H. destruct H as [s1 t1 H1|e1 s1 t1 s2 t2 H1 H2
                          |e1 s1 t1 e2 s2 t2 r s3 t3 H1 H2 H3].
  - destruct (attempt_outcome_frame _ _ _ _ _ H1) as (? & ? & ? & ? & ?).
    repeat split; auto; lia.
  - destruct (attempt_outcome_frame _ _ _ _ _ H1)
      as (Hs1 & Ht1 & ? & ? & M1).
    destruct (attempt_outcome_frame _ _ _ _ _ H2)
      as (Hs2 & Ht2 & ? & ? & M2).
    simpl in Hs2, Ht2. repeat split.
    + congruence.
    + rewrite Ht2, Ht1. app_normal.
    + rewrite gets_app. simpl. lia.
    + rewrite delivered_app, length_app. simpl. lia.
    + rewrite marks_app, M1. simpl. exact M2.
  - destruct (attempt_outcome_frame _ _ _ _ _ H1)
      as (Hs1 & Ht1 & ? & ? & M1).
    destruct (attempt_outcome_frame _ _ _ _ _ H2)
      as (Hs2 & Ht2 & ? & ? & M2).
    destruct (attempt_outcome_frame _ _ _ _ _ H3)
      as (Hs3 & Ht3 & ? & ? & M3).
    simpl in Hs2, Ht2, Hs3, Ht3. repeat split.
    + congruence.
    + rewrite Ht3, Ht2, Ht1. app_normal.
    + rewrite gets_app. simpl. rewrite gets_app. simpl. lia.
    + rewrite delivered_app, length_app. simpl.
      rewrite delivered_app, length_app. simpl. lia.
    + rewrite marks_app, M1. simpl. rewrite marks_app, M2. simpl. exact M3.
Qed.

(** With a callback that never raises, a delivery that ends normally
    called it once, last, on the body of the response just fetched;
    a delivery that raises never called it. *)
Lemma deliver_outcome_once (seg : M3U8.Segment) (s s' : WState)
  (r : exc unit) (tr : list event) :
  never_raises handler ->
  deliver_outcome handler seg s r s' tr ->
  match r with
  | Ret _ =>
      exists pre u resp e0 e1,
        tr = pre ++ [EvGet u; EvHandler seg (content resp)]
        /\ delivered pre = []
        /\ session_get u e0 = (Ret resp, e1)
        /\ bad_status resp = false
  | Raise _ => delivered tr = []
  end.
Proof.
  intros Hn H. destruct H as [s1 t1 H1|e1 s1 t1 s2 t2 H1 H2
                             |e1 s1 t1 e2 s2 t2 r s3 t3 H1 H2 H3].
  - destruct (attempt_outcome_ok _ _ _ _ H1)
      as (u & resp & e1 & _ & Hg & Hb & _ & ->).
    exists [], u, resp, (env s), e1. auto.
  - destruct (attempt_outcome_ok _ _ _ _ H2)
      as (u & resp & e & _ & Hg & Hb & _ & ->).
    exists (t1 ++ [EvSleep retry_wait]), u, resp, (env (after_wait s1)), e.
    repeat split; auto.
    + app_normal.
    + rewrite delivered_app, (attempt_outcome_raise _ _ _ _ _ Hn H1).
      reflexivity.
  - pose proof (attempt_outcome_raise _ _ _ _ _ Hn H1) as D1.
    pose proof (attempt_outcome_raise _ _ _ _ _ Hn H2) as D2.
    destruct r as [[]|e3].
    + destruct (attempt_outcome_ok _ _ _ _ H3)
        as (u & resp & e & _ & Hg & Hb & _ & ->).
      exists (t1 ++ EvSleep retry_wait :: t2 ++ [EvSleep retry_wait]),
        u, resp, (env (after_wait s2)), e.
      repeat split; auto.
      * app_normal.
      * rewrite delivered_app, D1. simpl. rewrite delivered_app, D2.
        reflexivity.
    + rewrite delivered_app, D1. simpl. rewrite delivered_app, D2. simpl.
      apply (attempt_outcome_raise _ _ _ _ _ Hn H3).
Qed.

(** *** One segment *)

Lemma process_segment_skip (seg : M3U8.Segment) (s : WState) :
  seq_of seg = -1 \/ seq_of seg <= last_seq (self s) ->
  process_segment handler seg s = (Ret tt, s).
Proof.
  intros H. unfold process_segment, bind, lift, get_last_seq. simpl.
  rewrite parse_segment_seq_of.
  replace ((seq_of seg =? -1) || (seq_of seg <=? last_seq (self s)))
    with true; [reflexivity|].
  symmetry. apply orb_true_iff.
  destruct H as [H|H]; [left; apply Z.eqb_eq|right; apply Z.leb_le]; exact H.
Qed.

Lemma process_segment_new (seg : M3U8.Segment) (s : WState) :
  seq_of seg <> -1 -> last_seq (self s) < seq_of seg ->
  process_segment handler seg s
  = deliver handler seg (marked s (seq_of seg)).
Proof.
  intros H1 H2. unfold process_segment, bind, lift, get_last_seq. simpl.
  rewrite parse_segment_seq_of.
  replace ((seq_of seg =? -1) || (seq_of seg <=? last_seq (self s)))
    with false; [reflexivity|].
  symmetry. apply orb_false_iff.
  split; [apply Z.eqb_neq|apply Z.leb_gt]; assumption.
Qed.

(** *** The segments of one manifest *)

Lemma process_segments_cons (seg : M3U8.Segment)
  (rest : list M3U8.Segment) (s : WState) :
  process_segments handler (seg :: rest) s =
  match process_segment handler seg s with
  | (Ret _, s') => process_segments handler rest s'
  | (Raise e, s') => (Raise e, s')
  end.
Proof. reflexivity. Qed.

Lemma process_segments_app (pre rest : list M3U8.Segment) (s : WState) :
  process_segments handler (pre ++ rest) s =
  match process_segments handler pre s with
  | (Ret _, s') => process_segments handler rest s'
  | (Raise e, s') => (Raise e, s')
  end.
Proof.
  revert s. induction pre as [|seg pre IH]; intros s; [reflexivity|].
  simpl app. rewrite !process_segments_cons.
  destruct (process_segment handler seg s) as [[[]|e] s']; [|reflexivity].
  apply IH.
Qed.

(** *** One cycle and the loop *)

Lemma poll_spec (s : WState) :
  self (snd (poll s)) = self s
  /\ trace (snd (poll s)) = trace s ++ [EvGet (url (self s))].
Proof.
  unfold poll, bind, get, raise_for_status, lift, raise, ret. simpl.
  destruct (session_get (url (self s)) (env s)) as [[resp|e] e1];
    [|split; reflexivity].
  destruct ((400 <=? status_code resp) && (status_code resp <? 600));
    split; reflexivity.
Qed.

(** The three ways a poll fails: the request raises, the status is an
    error, the manifest does not parse. *)
Lemma poll_failures (s : WState) :
  (forall e e1, session_get (url (self s)) (env s) = (Raise e, e1) ->
     fst (poll s) = Raise e)
  /\ (forall resp e1,
        session_get (url (self s)) (env s) = (Ret resp, e1) ->
        bad_status resp = true -> fst (poll s) = Raise HTTPError)
  /\ (forall resp e1 e,
        session_get (url (self s)) (env s) = (Ret resp, e1) ->
        bad_status resp = false ->
        M3U8_parse (text resp) = Raise e -> fst (poll s) = Raise e).
Proof.
  unfold poll, bind, get, raise_for_status, lift, raise, ret, bad_status.
  simpl. repeat split.
  - intros e e1 ->. reflexivity.
  - intros resp e1 -> ->. reflexivity.
  - intros resp e1 e -> -> ->. reflexivity.
Qed.

(** [time.sleep] takes the lengths from 0 to [sleep_max], and no
    other. *)
Lemma sleep_check_spec (seconds : Q) :
  sleep_check seconds = Ret tt
  <-> (0 <= seconds)%Q /\ (seconds <= sleep_max)%Q.
Proof.
  unfold sleep_check.
  destruct (Qle_bool (- sleep_max) seconds) eqn:E1;
    destruct (Qle_bool seconds sleep_max) eqn:E2;
    destruct (Qle_bool 0 seconds) eqn:E3; simpl;
    try apply Qle_bool_iff in E1; try apply Qle_bool_iff in E2;
    try apply Qle_bool_iff in E3.
  all: split; [try discriminate; auto|intros [H0 H1]].
  all: try reflexivity.
  all: try (apply Qle_bool_iff in H0; congruence).
  all: try (apply Qle_bool_iff in H1; congruence).
  all: exfalso;
    assert (Hm : (- sleep_max <= seconds)%Q)
      by (apply (Qle_trans _ 0); [discriminate|exact H0]);
    apply Qle_bool_iff in Hm; congruence.
Qed.

Lemma sleep_check_negative (seconds : Q) :
  (seconds < 0)%Q -> exists e, sleep_check seconds = Raise e.
Proof.
  intros H. destruct (sleep_check seconds) as [[]|e] eqn:E;
    [|exists e; reflexivity].
  apply sleep_check_spec in E as [H0 _].
  exfalso. apply (Qlt_not_le _ _ H H0).
Qed.

(** A cycle: the poll, the segments of the manifest and the sleep,
    which raises when the interval is negative or too long. *)
Lemma cycle_try_spec (interval : Q) (s : WState) :
  cycle_try handler interval s =
  match poll s with
  | (Raise e, s1) => (Raise e, s1)
  | (Ret m, s1) =>
      match process_segments handler (M3U8.segments m) s1 with
      | (Raise e, s2) => (Raise e, s2)
      | (Ret _, s2) =>
          match sleep_check interval with
          | Ret _ => (Ret tt, logged s2 [EvSleep interval])
          | Raise e => (Raise e, s2)
          end
      end
  end.
Proof.
  unfold cycle_try, bind. destruct (poll s) as [[m|e] s1]; [|reflexivity].
  destruct (process_segments handler (M3U8.segments m) s1) as [[[]|e] s2];
    [|reflexivity].
  unfold sleep. destruct (sleep_check interval) as [[]|x]; reflexivity.
Qed.

Lemma cycle_spec (interval : Q) (s : WState) :
  cycle handler interval s =
  match cycle_try handler interval s with
  | (Ret _, s') => (Ret tt, s')
  | (Raise e, s') => (Ret tt, logged s' [EvPrint e; EvSleep error_wait])
  end.
Proof.
  unfold cycle, try_except.
  change (sleep error_wait) with (emit (EvSleep error_wait)).
  destruct (cycle_try handler interval s) as [[[]|e] s']; [reflexivity|].
  unfold bind, print, emit, logged. simpl.
  rewrite <- app_assoc. reflexivity.
Qed.

Lemma cycle_returns (interval : Q) (s : WState) :
  fst (cycle handler interval s) = Ret tt.
Proof.
  rewrite cycle_spec.
  destruct (cycle_try handler interval s) as [[[]|e] s']; reflexivity.
Qed.

Lemma watch_segments_step (interval : Q) (n : nat) (s : WState) :
  watch_segments handler interval (S n) s
  = watch_segments handler interval n (snd (cycle handler interval s)).
Proof.
  simpl. unfold bind. pose proof (cycle_returns interval s) as H.
  destruct (cycle handler interval s) as [[[]|e] s']; [reflexivity|].
  discriminate.
Qed.

Lemma watch_segments_returns (interval : Q) (n : nat) (s : WState) :
  fst (watch_segments handler interval n s) = Ret tt.
Proof.
  revert s. induction n as [|n IH]; intros s; [reflexivity|].
  rewrite watch_segments_step. apply IH.
Qed.

(** Every turn starts with the request for the manifest. *)
Lemma cycle_starts_with_poll (interval : Q) (s : WState) :
  exists tr,
    trace (snd (cycle handler interval s))
    = trace s ++ EvGet (url (self s)) :: tr.
Proof.
  assert (Hseg : forall segs s0, exists tr,
             trace (snd (process_segments handler segs s0))
             = trace s0 ++ tr).
  { induction segs as [|seg segs IH]; intros s0.
    - exists []. simpl. rewrite app_nil_r. reflexivity.
    - rewrite process_segments_cons.
      assert (Hone : exists tr,
                 trace (snd (process_segment handler seg s0))
                 = trace s0 ++ tr).
      { destruct (Z.eq_dec (seq_of seg) (-1)) as [E|E].
        - rewrite process_segment_skip by (left; exact E).
          exists []. simpl. rewrite app_nil_r. reflexivity.
        - destruct (Z_lt_le_dec (last_seq (self s0)) (seq_of seg)) as [L|L].
          + rewrite process_segment_new by assumption.
            destruct (deliver_has_outcome seg (marked s0 (seq_of seg)))
              as [tr Ho].
            destruct (deliver_outcome_frame _ _ _ _ _ Ho) as (_ & Ht & _).
            rewrite Ht. simpl. eexists. rewrite <- app_assoc. reflexivity.
          + rewrite process_segment_skip by (right; exact L).
            exists []. simpl. rewrite app_nil_r. reflexivity. }
      destruct Hone as [t1 H1].
      destruct (process_segment handler seg s0) as [[[]|e] s1];
        simpl in H1 |- *.
      + destruct (IH s1) as [t2 H2]. rewrite H2, H1.
        eexists. rewrite <- app_assoc. reflexivity.
      + eexists. exact H1. }
  rewrite cycle_spec, cycle_try_spec.
  destruct (poll_spec s) as [_ Hp].
  destruct (poll s) as [[m|e] s1]; simpl in Hp.
  - destruct (Hseg (M3U8.segments m) s1) as [t Ht].
    destruct (process_segments handler (M3U8.segments m) s1)
      as [[[]|e] s2]; [destruct (sleep_check interval) as [[]|x]|];
      simpl in Ht |- *; rewrite Ht, Hp; eexists; app_normal.
  - simpl. rewrite Hp. eexists. app_normal.
Qed.

(** *** Theorems on one segment and on one cycle *)

(** C3: a segment whose sequence number is -1 or not above
    [self.last_seq] leaves the watcher as it is: no request, no call of
    the callback. For a segment taken as new, [self.last_seq] is
    assigned first and the three attempts run after it: the assignment
    is the first event of the segment, none follows it, and the value
    stays whether the delivery returns or raises. *)
Theorem C3_skip_and_mark (seg : M3U8.Segment) (s : WState) :
  (seq_of seg = -1 \/ seq_of seg <= last_seq (self s) ->
   process_segment handler seg s = (Ret tt, s))
  /\ (seq_of seg <> -1 -> last_seq (self s) < seq_of seg ->
      process_segment handler seg s
      = deliver handler seg (marked s (seq_of seg))
      /\ exists tr,
           trace (snd (process_segment handler seg s))
           = trace s ++ EvLastSeq (seq_of seg) :: tr
           /\ marks tr = []
           /\ last_seq (self (snd (process_segment handler seg s)))
              = seq_of seg).
Proof.
  split; [apply process_segment_skip|].
  intros H1 H2. rewrite (process_segment_new seg s H1 H2).
  split; [reflexivity|].
  destruct (deliver_has_outcome seg (marked s (seq_of seg))) as [tr Ho].
  destruct (deliver_outcome_frame _ _ _ _ _ Ho) as (Hs & Ht & _ & _ & Hm).
  exists tr. rewrite Ht, Hs. simpl. repeat split; auto.
  rewrite <- app_assoc. reflexivity.
Qed.


(** C5, as amended: a cycle that fails does not end the loop: the error
    is printed, the watcher waits the fixed [error_wait] of 5 s (five
    times the poll interval at its default of 1 s), and the next turn
    starts, with the request for the manifest. A poll that raises (the
    request raises, the status is an error, the manifest does not
    parse) and a delivery that raises both make the cycle fail. *)
Theorem C5_backoff (interval : Q) (s : WState) (e : exn) (s' : WState) :
  cycle_try handler interval s = (Raise e, s') ->
  cycle handler interval s
  = (Ret tt, logged s' [EvPrint e; EvSleep error_wait])
  /\ (error_wait == 5 * default_interval)%Q
  /\ (forall n,
        watch_segments handler interval (S n) s
        = watch_segments handler interval n
            (logged s' [EvPrint e; EvSleep error_wait]))
  /\ (forall n s0, fst (watch_segments handler interval n s0) = Ret tt)
  /\ (forall s0, exists tr,
        trace (snd (cycle handler interval s0))
        = trace s0 ++ EvGet (url (self s0)) :: tr)
  /\ (forall s0 x s1, poll s0 = (Raise x, s1) ->
        cycle_try handler interval s0 = (Raise x, s1))
  /\ (forall s0 m s1 x s2,
        poll s0 = (Ret m, s1) ->
        process_segments handler (M3U8.segments m) s1 = (Raise x, s2) ->
        cycle_try handler interval s0 = (Raise x, s2)).
Proof.
  intros H.
  assert (Hc : cycle handler interval s
               = (Ret tt, logged s' [EvPrint e; EvSleep error_wait])).
  { rewrite cycle_spec, H. reflexivity. }
  split; [exact Hc|]. split; [reflexivity|]. split.
  { intros n. rewrite watch_segments_step, Hc. reflexivity. }
  split; [intros n s0; apply watch_segments_returns|].
  split; [intros s0; apply cycle_starts_with_poll|].
  split.
  - intros s0 x s1 Hp. rewrite cycle_try_spec, Hp. reflexivity.
  - intros s0 m s1 x s2 Hp Hs. rewrite cycle_try_spec, Hp, Hs. reflexivity.
Qed.
End WatcherFacts.

(** *** The watcher in the sample world *)


Lemma C3_skip_and_mark_witness :
  process_segment Sample.sink Sample.seg1 (Sample.state 4 1)
  = (Ret tt, Sample.state 4 1)
  /\ trace (snd (process_segment Sample.sink Sample.seg2 (Sample.state 4 1)))
     = [EvLastSeq 2; EvGet Sample.seg2_url;
        EvHandler Sample.seg2 Sample.payload]
  /\ last_seq (self (snd (process_segment Sample.sink Sample.seg2
                            (Sample.state 1 1)))) = 2.
Proof.
  split; [|split].
  - destruct (C3_skip_and_mark Sample.sink Sample.seg1 (Sample.state 4 1))
      as [Hskip _].
    apply Hskip. right. vm_compute. discriminate.
  - destruct (C3_skip_and_mark Sample.sink Sample.seg2 (Sample.state 4 1))
      as [_ Hnew].
    destruct Hnew as [Heq _]; [vm_compute; discriminate|reflexivity|].
    rewrite Heq. reflexivity.
  - destruct (C3_skip_and_mark Sample.sink Sample.seg2 (Sample.state 1 1))
      as [_ Hnew].
    destruct Hnew as (_ & tr & _ & _ & Hlast);
      [vm_compute; discriminate|reflexivity|].
    exact Hlast.
Defined.



(** C5 as stated fails: with a poll interval of 2 s the failed cycle
    still waits 5 s, not 10 s. *)
Lemma C5_counterexample :
  fst (cycle_try Sample.sink (2 # 1) (Sample.boot Sample.offline))
  = Raise (LibraryError "ConnectionError")
  /\ trace (snd (cycle Sample.sink (2 # 1) (Sample.boot Sample.offline)))
     = [EvGet "https://cdn.test/live/offline.m3u8";
        EvPrint (LibraryError "ConnectionError"); EvSleep (5 # 1)]
  /\ ~ (5 # 1 == 5 * (2 # 1))%Q.
Proof.
  split; [reflexivity|]. split; [reflexivity|].
  intros H. vm_compute in H. discriminate.
Qed.

Lemma C5_backoff_witness :
  cycle Sample.sink (2 # 1) (Sample.boot Sample.offline)
  = (Ret tt,
     @Build_WState Sample.world 1%nat Sample.offline
       [EvGet "https://cdn.test/live/offline.m3u8";
        EvPrint (LibraryError "ConnectionError");
        EvSleep error_wait])
  /\ fst (watch_segments Sample.sink (2 # 1) 3 (Sample.boot Sample.offline))
     = Ret tt.
Proof.
  destruct (C5_backoff Sample.sink (2 # 1) (Sample.boot Sample.offline)
              (LibraryError "ConnectionError")
              (snd (cycle_try Sample.sink (2 # 1)
                      (Sample.boot Sample.offline))) eq_refl)
    as (Hc & _ & _ & Hret & _).
  split; [rewrite Hc; reflexivity|apply Hret].
Defined.

(** ** Sequence numbers are never below -1 *)

Lemma split_pieces_chars (sep c : ascii) (s piece : string) :
  In piece (Py.split sep s) ->
  Py.has_char c piece = true -> Py.has_char c s = true.
Proof.
  revert piece. induction s as [|a s IH]; simpl; intros piece Hin Hc.
  - destruct Hin as [<-|[]]. discriminate.
  - destruct (Ascii.eqb a sep).
    + destruct Hin as [<-|Hin]; [discriminate|].
      rewrite (IH piece Hin Hc). apply orb_true_r.
    + pose proof (split_cons sep s) as Hs. rewrite Hs in Hin, IH.
      destruct Hin as [<-|Hin].
      * simpl in Hc. apply orb_true_iff in Hc as [Hc|Hc].
        -- rewrite Hc. reflexivity.
        -- rewrite (IH _ (or_introl eq_refl) Hc). apply orb_true_r.
      * rewrite (IH piece (or_intror Hin) Hc). apply orb_true_r.
Qed.

Lemma split_pieces_free (sep : ascii) (s piece : string) :
  In piece (Py.split sep s) -> Py.has_char sep piece = false.
Proof.
  revert piece. induction s as [|a s IH]; simpl; intros piece Hin.
  - destruct Hin as [<-|[]]. reflexivity.
  - destruct (Ascii.eqb a sep) eqn:E.
    + destruct Hin as [<-|Hin]; [reflexivity|]. apply IH, Hin.
    + pose proof (split_cons sep s) as Hs. rewrite Hs in Hin, IH.
      destruct Hin as [<-|Hin].
      * simpl. rewrite E. apply IH. left. reflexivity.
      * apply IH. right. exact Hin.
Qed.

Lemma int_lstrip_chars (c : ascii) (s : string) :
  Py.has_char c (Py.int_lstrip s) = true -> Py.has_char c s = true.
Proof.
  induction s as [|a s IH]; simpl; [auto|].
  destruct (Py.is_int_space a); [|auto].
  intros H. rewrite (IH H). apply orb_true_r.
Qed.

Lemma int_rstrip_chars (c : ascii) (s : string) :
  Py.has_char c (Py.int_rstrip s) = true -> Py.has_char c s = true.
Proof.
  induction s as [|a s IH]; simpl; [auto|].
  destruct (Py.int_rstrip s) as [|b r].
  - destruct (Py.is_int_space a); [discriminate|].
    simpl. rewrite orb_false_r. intros ->. reflexivity.
  - simpl in IH |- *. intros H. apply orb_true_iff in H as [H|H].
    + rewrite H. reflexivity.
    + rewrite (IH H). apply orb_true_r.
Qed.

Lemma digit_val_nonneg (c : ascii) : Py.is_digit c = true -> 0 <= Py.digit_val c.
Proof.
  unfold Py.is_digit, Py.digit_val. intros H.
  apply andb_true_iff in H as [H _]. apply Z.leb_le in H. lia.
Qed.

Lemma int_digits_nonneg (s : string) (prev : bool) (acc v : Z) :
  0 <= acc -> Py.int_digits s prev acc = Some v -> 0 <= v.
Proof.
  revert prev acc. induction s as [|c s IH]; simpl; intros prev acc Ha H.
  - destruct prev; [injection H as <-; exact Ha|discriminate].
  - destruct (Py.is_digit c) eqn:Hd.
    + pose proof (digit_val_nonneg c Hd) as Hv.
      assert (Hacc : 0 <= 10 * acc + Py.digit_val c) by lia.
      apply (IH _ _ Hacc H).
    + destruct (Ascii.eqb c "_"); [|discriminate].
      destruct prev; [|discriminate]. apply (IH _ _ Ha H).
Qed.

(** Without a minus sign, [int] gives no negative number. *)
Lemma int_nonneg (s : string) (n : Z) :
  Py.has_char "-" s = false -> Py.int s = Ret n -> 0 <= n.
Proof.
  intros Hfree. unfold Py.int. cbv zeta.
  assert (Hb : Py.has_char "-" (Py.int_rstrip (Py.int_lstrip s)) = false).
  { destruct (Py.has_char "-" (Py.int_rstrip (Py.int_lstrip s))) eqn:E;
      [|reflexivity].
    apply int_rstrip_chars, int_lstrip_chars in E. congruence. }
  destruct (int_sign_cases (Py.int_rstrip (Py.int_lstrip s)))
    as (sg & ds & -> & Hcase).
  assert (Hsg : sg = 1).
  { destruct Hcase as [[_ E]|[E|[_ E]]]; [exact E| |exact E].
    rewrite E in Hb. cbn [Py.has_char] in Hb.
    rewrite Ascii.eqb_refl in Hb. discriminate. }
  subst sg.
  destruct (Py.int_digits ds false 0) as [v|] eqn:E; [|discriminate].
  destruct (Py.int_max_str_digits <? Py.count_digits ds)%nat; [discriminate|].
  intros [= <-]. pose proof (int_digits_nonneg ds false 0 v (Z.le_refl 0) E).
  destruct v; lia.
Qed.

Lemma parse_segment_seq_lower_bound (uri : string) (n : Z) :
  _parse_segment_seq uri = Ret n -> -1 <= n.
Proof.
  unfold _parse_segment_seq, parse_segment_seq_try.
  destruct (1 <? List.length (Py.split "-" uri))%nat; [|intros [= <-]; lia].
  unfold Py.index.
  destruct (nth_error (Py.split "-" uri) 1) as [p1|] eqn:E1;
    [|intros [= <-]; lia].
  simpl. rewrite (split_cons "." p1). simpl.
  destruct (Py.int (hd "" (Py.split "." p1))) as [v|e] eqn:Ei;
    simpl; [|intros [= <-]; lia].
  intros [= <-]. apply nth_error_In in E1.
  pose proof (split_pieces_free "-" uri p1 E1) as Hfree.
  assert (Htok : Py.has_char "-" (hd "" (Py.split "." p1)) = false).
  { destruct (Py.has_char "-" (hd "" (Py.split "." p1))) eqn:E; [|reflexivity].
    apply (split_pieces_chars "." "-" p1) in E; [congruence|].
    rewrite (split_cons "." p1). left. reflexivity. }
  pose proof (int_nonneg _ _ Htok Ei). lia.
Qed.

Lemma seq_of_lower_bound (seg : M3U8.Segment) : -1 <= seq_of seg.
Proof. apply (parse_segment_seq_lower_bound _ _ (parse_segment_seq_of seg)). Qed.

(** ** Growing manifests *)

Lemma seqs_app (a b : list M3U8.Segment) : seqs (a ++ b) = seqs a ++ seqs b.
Proof. unfold seqs. rewrite filter_app, map_app. reflexivity. Qed.

Lemma last_cons_default {A : Type} (a d : A) (l : list A) :
  last (a :: l) d = last l a.
Proof.
  revert a d. induction l as [|b l IH]; intros a d; [reflexivity|].
  change (last (a :: b :: l) d) with (last (b :: l) d).
  rewrite (IH b d), (IH b a). reflexivity.
Qed.

Lemma last_app_default {A : Type} (a b : list A) (d : A) :
  last (a ++ b) d = last b (last a d).
Proof.
  revert d. induction a as [|x a IH]; intros d; [reflexivity|].
  simpl app. rewrite !last_cons_default. apply IH.
Qed.

Lemma increasing_from_app (m : Z) (a b : list Z) :
  increasing_from m (a ++ b) ->
  increasing_from m a /\ increasing_from (last a m) b.
Proof.
  revert m. induction a as [|x a IH]; intros m.
  - simpl. auto.
  - simpl app. intros [Hx H]. destruct (IH x H) as [Ha Hb].
    rewrite last_cons_default. split; [split; assumption|exact Hb].
Qed.

Lemma increasing_from_last (m : Z) (l : list Z) :
  increasing_from m l -> m <= last l m.
Proof.
  revert m. induction l as [|y l IH]; intros m H; [simpl; lia|].
  destruct H as [Hy H]. rewrite last_cons_default.
  specialize (IH y H). lia.
Qed.

Lemma increasing_from_bound (m : Z) (l : list Z) :
  increasing_from m l -> forall x, In x l -> x <= last l m.
Proof.
  revert m. induction l as [|y l IH]; intros m H x Hin; [destruct Hin|].
  destruct H as [Hy H]. rewrite last_cons_default.
  destruct Hin as [<-|Hin]; [apply increasing_from_last, H|].
  apply (IH y H x Hin).
Qed.

Lemma increasing_from_above (m : Z) (l : list Z) :
  increasing_from m l -> forall x, In x l -> m < x.
Proof.
  revert m. induction l as [|a l IH]; intros m H x Hx; [destruct Hx|].
  destruct H as [Ha H]. destruct Hx as [<-|Hx]; [exact Ha|].
  specialize (IH a H x Hx). lia.
Qed.

(** Segments whose numbers go up are all different. *)
Lemma increasing_from_NoDup (m : Z) (l : list M3U8.Segment) :
  increasing_from m (map seq_of l) -> NoDup l.
Proof.
  revert m. induction l as [|seg l IH]; intros m H; [constructor|].
  destruct H as [_ H]. constructor; [|apply (IH _ H)].
  intros Hin. apply (in_map seq_of) in Hin.
  pose proof (increasing_from_above _ _ H _ Hin). lia.
Qed.

Lemma increasing_above (l : list Z) :
  increasing l -> (forall x, In x l -> -1 < x) -> increasing_from (-1) l.
Proof.
  destruct l as [|x l]; simpl; [auto|].
  intros H Hall. split; [apply Hall; left; reflexivity|exact H].
Qed.

Lemma seqs_above (L : list M3U8.Segment) (x : Z) : In x (seqs L) -> -1 < x.
Proof.
  unfold seqs. intros H. apply in_map_iff in H as (seg & <- & Hin).
  apply filter_In in Hin as [_ Hp]. unfold parsable in Hp.
  apply negb_true_iff, Z.eqb_neq in Hp.
  pose proof (seq_of_lower_bound seg). lia.
Qed.

Lemma growing_from_last (L : list M3U8.Segment)
  (Ls : list (list M3U8.Segment)) :
  growing_from L Ls -> exists ext, last Ls L = L ++ ext.
Proof.
  revert L. induction Ls as [|L' Ls IH]; intros L H.
  - exists []. simpl. rewrite app_nil_r. reflexivity.
  - destruct H as [[ext ->] H]. rewrite last_cons_default.
    destruct (IH _ H) as [ext' ->]. exists (ext ++ ext').
    rewrite app_assoc. reflexivity.
Qed.

Lemma increasing_from_snoc (m x : Z) (l : list Z) :
  increasing_from m l -> last l m < x -> increasing_from m (l ++ [x]).
Proof.
  revert m. induction l as [|y l IH]; intros m H Hx.
  - simpl in *. auto.
  - destruct H as [Hy H]. rewrite last_cons_default in Hx.
    simpl. split; [exact Hy|]. apply (IH y H Hx).
Qed.

Lemma increasing_from_weaken (m : Z) (l : list Z) :
  increasing_from m l -> increasing l.
Proof. destruct l as [|x l]; simpl; [auto|]. intros [_ H]. exact H. Qed.

Section GrowthFacts.
Context {W : World}.
Variable handler : Handler.
Variable interval : Q.

(** Segments already seen are passed over. *)
Lemma process_segments_old (L : list M3U8.Segment) (s : WState) :
  (forall x, In x (seqs L) -> x <= last_seq (self s)) ->
  process_segments handler L s = (Ret tt, s).
Proof.
  induction L as [|seg L IH]; intros H; [reflexivity|].
  rewrite process_segments_cons, process_segment_skip.
  - apply IH. intros x Hx. apply H. unfold seqs in *. simpl.
    destruct (parsable seg); [right|]; exact Hx.
  - destruct (Z.eq_dec (seq_of seg) (-1)) as [E|E]; [left; exact E|].
    right. apply H. unfold seqs. simpl. unfold parsable at 1.
    apply Z.eqb_neq in E. rewrite E. left. reflexivity.
Qed.

(** New segments, with numbers going up, are each delivered once when
    nothing fails. *)
Lemma process_segments_new (L : list M3U8.Segment) (s s' : WState) :
  never_raises handler ->
  increasing_from (last_seq (self s)) (seqs L) ->
  process_segments handler L s = (Ret tt, s') ->
  delivered (trace s') = delivered (trace s) ++ filter parsable L
  /\ last_seq (self s') = last (seqs L) (last_seq (self s)).
Proof.
  intros Hn. revert s. induction L as [|seg L IH]; intros s Hinc Hrun.
  - injection Hrun as <-. simpl. rewrite app_nil_r. auto.
  - rewrite process_segments_cons in Hrun.
    unfold seqs in Hinc |- *. simpl filter in *.
    destruct (parsable seg) eqn:Hp.
    + simpl map in *. destruct Hinc as [Hlt Hinc].
      unfold parsable in Hp. apply negb_true_iff, Z.eqb_neq in Hp.
      rewrite (process_segment_new handler seg s Hp Hlt) in Hrun.
      destruct (deliver_has_outcome handler seg (marked s (seq_of seg)))
        as [tr Ho].
      destruct (deliver_outcome_frame _ _ _ _ _ _ Ho) as (Hs & Ht & _).
      pose proof (deliver_outcome_once _ _ _ _ _ _ Hn Ho) as Honce.
      destruct (deliver handler seg (marked s (seq_of seg)))
        as [[[]|e] s1]; [|discriminate].
      cbn [fst snd] in *.
      destruct Honce as (pre & u & resp & e0 & e1 & -> & Hpre & _).
      assert (Hl : last_seq (self s1) = seq_of seg)
        by (rewrite Hs; reflexivity).
      rewrite <- Hl in Hinc.
      destruct (IH s1 Hinc Hrun) as [Hd Hlast].
      split.
      * rewrite Hd, Ht. simpl trace.
        rewrite !delivered_app, Hpre. simpl. rewrite app_nil_r.
        rewrite <- app_assoc. reflexivity.
      * rewrite Hlast, Hl, last_cons_default. reflexivity.
    + unfold parsable in Hp. apply negb_false_iff, Z.eqb_eq in Hp.
      rewrite process_segment_skip in Hrun by (left; exact Hp).
      apply (IH s Hinc Hrun).
Qed.

(** *** Order of the deliveries, whatever the manifests *)

Lemma deliver_one_or_none (seg : M3U8.Segment) (s : WState) :
  never_raises handler ->
  self (snd (deliver handler seg s)) = self s
  /\ (delivered (trace (snd (deliver handler seg s)))
      = delivered (trace s) ++ [seg]
      \/ delivered (trace (snd (deliver handler seg s)))
         = delivered (trace s)).
Proof.
  intros Hn. destruct (deliver_has_outcome handler seg s) as [tr Ho].
  destruct (deliver_outcome_frame _ _ _ _ _ _ Ho) as (Hs & Ht & _).
  pose proof (deliver_outcome_once _ _ _ _ _ _ Hn Ho) as Honce.
  split; [exact Hs|]. rewrite Ht, delivered_app.
  destruct (fst (deliver handler seg s)) as [[]|e].
  - destruct Honce as (pre & u & resp & e0 & e1 & -> & Hpre & _).
    left. rewrite delivered_app, Hpre. reflexivity.
  - right. rewrite Honce, app_nil_r. reflexivity.
Qed.

Lemma process_segment_ordered (seg : M3U8.Segment) (s : WState) :
  never_raises handler ->
  ordered s -> ordered (snd (process_segment handler seg s)).
Proof.
  intros Hn [Hinc Hle].
  destruct (Z.eq_dec (seq_of seg) (-1)) as [E|E].
  { rewrite process_segment_skip by (left; exact E). split; assumption. }
  destruct (Z_lt_le_dec (last_seq (self s)) (seq_of seg)) as [L|L].
  2:{ rewrite process_segment_skip by (right; exact L). split; assumption. }
  rewrite process_segment_new by assumption.
  destruct (deliver_one_or_none seg (marked s (seq_of seg)) Hn)
    as [Hs [Hd|Hd]]; unfold ordered; rewrite Hs, Hd; simpl trace;
    rewrite delivered_app; simpl; rewrite app_nil_r.
  - rewrite map_app. simpl. split.
    + apply increasing_from_snoc; [exact Hinc|lia].
    + rewrite last_app_default. simpl. lia.
  - split; [exact Hinc|lia].
Qed.

Lemma process_segments_ordered (L : list M3U8.Segment) (s : WState) :
  never_raises handler ->
  ordered s -> ordered (snd (process_segments handler L s)).
Proof.
  intros Hn. revert s. induction L as [|seg L IH]; intros s Ho; [exact Ho|].
  rewrite process_segments_cons.
  pose proof (process_segment_ordered seg s Hn Ho) as H1.
  destruct (process_segment handler seg s) as [[[]|e] s1]; [|exact H1].
  apply IH, H1.
Qed.

Lemma logged_ordered (s : WState) (evs : list event) :
  delivered evs = [] -> ordered s -> ordered (logged s evs).
Proof.
  intros He [Hinc Hle]. unfold ordered, logged. simpl.
  rewrite delivered_app, He, app_nil_r. split; assumption.
Qed.

Lemma cycle_ordered (s : WState) :
  never_raises handler ->
  ordered s -> ordered (snd (cycle handler interval s)).
Proof.
  intros Hn Ho. rewrite cycle_spec, cycle_try_spec.
  destruct (poll_spec s) as [Hps Hpt].
  assert (Ho1 : ordered (snd (poll s))).
  { destruct Ho as [Hinc Hle]. unfold ordered.
    rewrite Hps, Hpt, delivered_app. simpl. rewrite app_nil_r.
    split; assumption. }
  destruct (poll s) as [[m|e] s1]; cbn [fst snd] in *.
  - pose proof (process_segments_ordered (M3U8.segments m) s1 Hn Ho1) as H2.
    destruct (process_segments handler (M3U8.segments m) s1)
      as [[[]|e] s2]; [destruct (sleep_check interval) as [[]|x]|];
      cbn [fst snd] in *; apply logged_ordered; auto.
  - apply logged_ordered; auto.
Qed.

Lemma watch_segments_ordered (n : nat) (s : WState) :
  never_raises handler ->
  ordered s -> ordered (snd (watch_segments handler interval n s)).
Proof.
  intros Hn. revert s. induction n as [|n IH]; intros s Ho; [exact Ho|].
  rewrite watch_segments_step. apply IH, cycle_ordered; assumption.
Qed.

(** *** Growing manifests *)

Lemma caught_up_logged (s : WState) (evs : list event)
  (L : list M3U8.Segment) :
  delivered evs = [] -> caught_up s L -> caught_up (logged s evs) L.
Proof.
  intros He [Hd Hl]. unfold caught_up, logged. simpl.
  rewrite delivered_app, He, app_nil_r. split; assumption.
Qed.

(** A turn whose poll fails calls the callback for nothing. *)
Lemma cycle_poll_failed (s s1 : WState) (x : exn)
  (L : list M3U8.Segment) :
  poll s = (Raise x, s1) ->
  caught_up s L -> caught_up (snd (cycle handler interval s)) L.
Proof.
  intros Hp [Hd Hl]. rewrite cycle_spec, cycle_try_spec.
  destruct (poll_spec s) as [Hps Hpt]. rewrite Hp in *.
  cbn [fst snd] in *. apply caught_up_logged; [reflexivity|].
  split.
  - rewrite Hpt, delivered_app, Hd. simpl. apply app_nil_r.
  - rewrite Hps. exact Hl.
Qed.

(** A turn whose poll gives an extension of what the watcher has
    caught up with, and whose deliveries all return, catches up with
    the extension, whether or not the sleep that follows raises. *)
Lemma cycle_catches_up (s s1 : WState) (m : M3U8.t)
  (L ext : list M3U8.Segment) :
  never_raises handler ->
  poll s = (Ret m, s1) ->
  fst (process_segments handler (M3U8.segments m) s1) = Ret tt ->
  M3U8.segments m = L ++ ext ->
  increasing_from (-1) (seqs (L ++ ext)) ->
  caught_up s L ->
  caught_up (snd (cycle handler interval s)) (L ++ ext).
Proof.
  intros Hn Hpoll Hrun Hsegs Hinc [Hd Hl].
  rewrite cycle_spec, cycle_try_spec.
  destruct (poll_spec s) as [Hps Hpt]. rewrite Hpoll in *.
  cbn [fst snd] in *. rewrite Hsegs in *.
  rewrite process_segments_app in Hrun |- *.
  rewrite seqs_app in Hinc. apply increasing_from_app in Hinc as [HiL Hie].
  rewrite process_segments_old in Hrun |- *.
  2,3: intros x Hx; rewrite Hps, Hl;
       apply (increasing_from_bound _ _ HiL x Hx).
  destruct (process_segments handler ext s1) as [[[]|e] s2] eqn:Hext;
    cbn [fst snd] in *; [|discriminate].
  assert (Hie' : increasing_from (last_seq (self s1)) (seqs ext))
    by (rewrite Hps, Hl; exact Hie).
  destruct (process_segments_new ext s1 s2 Hn Hie' Hext) as [Hd2 Hl2].
  assert (Hc : caught_up s2 (L ++ ext)).
  { split.
    - rewrite Hd2, Hpt, delivered_app, Hd. simpl.
      rewrite !app_nil_r, filter_app. reflexivity.
    - rewrite Hl2, Hps, Hl, seqs_app, last_app_default. reflexivity. }
  destruct (sleep_check interval) as [[]|x]; cbn [fst snd].
  - apply caught_up_logged; [reflexivity|exact Hc].
  - apply caught_up_logged; [reflexivity|exact Hc].
Qed.

Lemma run_catches_up (n : nat) (s : WState) (L : list M3U8.Segment) :
  never_raises handler ->
  Forall (fun r => r = Ret tt) (delivery_results handler interval n s) ->
  growing_from L
    (map M3U8.segments (returned (manifests_seen handler interval n s))) ->
  increasing_from (-1)
    (seqs (last (map M3U8.segments
                   (returned (manifests_seen handler interval n s))) L)) ->
  caught_up s L ->
  caught_up (snd (watch_segments handler interval n s))
    (last (map M3U8.segments
             (returned (manifests_seen handler interval n s))) L).
Proof.
  intros Hn. revert s L.
  induction n as [|n IH]; intros s L Hres Hgrow Hinc Hc; [exact Hc|].
  rewrite watch_segments_step.
  cbn [manifests_seen delivery_results] in *.
  destruct (poll s) as [[m|x] s1] eqn:Hp; cbn [fst returned map app] in *.
  - inversion Hres as [|r rs Hr Hrs]; subst.
    destruct Hgrow as [[ext Hext] Hgrow].
    rewrite last_cons_default in Hinc |- *.
    apply IH; auto.
    rewrite Hext. apply (cycle_catches_up s s1 m L ext); auto.
    destruct (growing_from_last _ _ Hgrow) as [ext' E].
    rewrite E, Hext, seqs_app in Hinc.
    apply increasing_from_app in Hinc as [Hinc _]. exact Hinc.
  - apply IH; auto. apply (cycle_poll_failed s s1 x L Hp Hc).
Qed.

(** C2, as amended: in a session that starts with [last_seq = -1] and
    whose callback never raises, the sequence numbers of the segments
    the callback is called for go strictly up, so that no segment is
    delivered twice. When, over the turns run, the manifests that the
    polls obtain grow by extension (a poll may fail, and a turn may
    fail after its deliveries), no delivery gives up after its three
    attempts, and the sequence numbers go up along the last manifest
    obtained, the callback has been called for exactly the numbered
    segments of that manifest, once each and in the order of the
    manifest. *)
Theorem C2_growing_manifests (n : nat) (p : Playlist) (e : Env) :
  never_raises handler ->
  last_seq p = -1 ->
  let tr :=
    trace (snd (watch_segments handler interval n (start p e))) in
  let Ls :=
    map M3U8.segments
      (returned (manifests_seen handler interval n (start p e))) in
  increasing (map seq_of (delivered tr))
  /\ NoDup (delivered tr)
  /\ (forall seg, In seg (delivered tr) -> parsable seg = true)
  /\ (Forall (fun r => r = Ret tt)
        (delivery_results handler interval n (start p e)) ->
      growing_from [] Ls ->
      increasing (seqs (last Ls [])) ->
      delivered tr = filter parsable (last Ls [])).
Proof.
  intros Hn Hp tr Ls.
  assert (Ho : ordered (start p e))
    by (split; simpl; [exact I|rewrite Hp; lia]).
  destruct (watch_segments_ordered n (start p e) Hn Ho) as [Hinc _].
  fold tr in Hinc.
  split; [apply (increasing_from_weaken _ _ Hinc)|].
  split; [apply (increasing_from_NoDup _ _ Hinc)|].
  split.
  - intros seg Hin. apply (in_map seq_of) in Hin.
    pose proof (increasing_from_above _ _ Hinc _ Hin) as Hlt.
    unfold parsable. apply negb_true_iff, Z.eqb_neq. lia.
  - intros Hres Hgrow Hincl.
    assert (Hinc' : increasing_from (-1) (seqs (last Ls []))).
    { apply increasing_above; [exact Hincl|]. apply seqs_above. }
    destruct (run_catches_up n (start p e) [] Hn Hres Hgrow Hinc')
      as [Hd _]; [split; [reflexivity|exact Hp]|].
    exact Hd.
Qed.
End GrowthFacts.

(** *** Growing manifests in the sample worlds *)

(** In the steady world, over three turns, and in a world where the
    second poll fails, over three turns too. *)
Lemma C2_growing_manifests_witness :
  delivered
    (trace (snd (watch_segments Sample.steady_sink default_interval 3
                   (@start Sample.steady Sample.playlist 0%nat))))
  = [Sample.seg1; Sample.seg2; Sample.seg3]
  /\ manifests_seen Sample.bumpy_sink default_interval 3
       (@start Sample.bumpy Sample.playlist 0%nat)
     = [Ret (Sample.media [Sample.seg1]);
        Raise (LibraryError "ConnectionError");
        Ret (Sample.media [Sample.seg1; Sample.seg2])]
  /\ delivered
       (trace (snd (watch_segments Sample.bumpy_sink default_interval 3
                      (@start Sample.bumpy Sample.playlist 0%nat))))
     = [Sample.seg1; Sample.seg2].
Proof.
  split; [|split; [reflexivity|]].
  - destruct (C2_growing_manifests (W := Sample.steady) Sample.steady_sink
                default_interval 3 Sample.playlist 0%nat)
      as (_ & _ & _ & Hd).
    + intros data d e. reflexivity.
    + reflexivity.
    + apply Hd.
      * repeat constructor.
      * simpl. repeat split.
        -- exists [Sample.seg1]. reflexivity.
        -- exists [Sample.seg2]. reflexivity.
        -- exists [Sample.seg3]. reflexivity.
      * vm_compute. repeat split.
  - destruct (C2_growing_manifests (W := Sample.bumpy) Sample.bumpy_sink
                default_interval 3 Sample.playlist 0%nat)
      as (_ & _ & _ & Hd).
    + intros data d e. reflexivity.
    + reflexivity.
    + apply Hd.
      * repeat constructor.
      * simpl. repeat split.
        -- exists [Sample.seg1]. reflexivity.
        -- exists [Sample.seg2]. reflexivity.
      * vm_compute. repeat split.
Defined.

(** C2 as stated fails, in three ways. The manifest grows from one
    segment to two, but the three attempts at the first segment fail
    during the first turn: its number is already in [self.last_seq], so
    the second turn passes it over and delivers the second segment only.
    A callback that raises at its first call is called again for the
    same segment. And a manifest that lists the second segment before
    the first has the first one passed over. *)
Lemma C2_counterexample :
  (manifests_seen Sample.sink default_interval 2 (Sample.boot Sample.playlist)
   = [Ret (Sample.media [Sample.seg1]);
      Ret (Sample.media [Sample.seg1; Sample.seg2])]
   /\ seqs [Sample.seg1; Sample.seg2] = [1; 2]
   /\ delivered
        (trace (snd (watch_segments Sample.sink default_interval 2
                       (Sample.boot Sample.playlist))))
      = [Sample.seg2]
   /\ delivered
        (trace (snd (watch_segments Sample.sink default_interval 6
                       (Sample.boot Sample.playlist))))
      = [Sample.seg2])
  /\ (manifests_seen Sample.steady_flaky default_interval 1
        (@start Sample.steady Sample.playlist 0%nat)
      = [Ret (Sample.media [Sample.seg1])]
      /\ delivered
           (trace (snd (watch_segments Sample.steady_flaky default_interval 1
                          (@start Sample.steady Sample.playlist 0%nat))))
         = [Sample.seg1; Sample.seg1])
  /\ (manifests_seen Sample.shuffled_sink default_interval 1
        (@start Sample.shuffled Sample.playlist 0%nat)
      = [Ret (Sample.media [Sample.seg2; Sample.seg1])]
      /\ seqs [Sample.seg2; Sample.seg1] = [2; 1]
      /\ delivered
           (trace (snd (watch_segments Sample.shuffled_sink default_interval 1
                          (@start Sample.shuffled Sample.playlist 0%nat))))
         = [Sample.seg2]).
Proof. repeat split. Qed.

(** The first segment of that session is never delivered, however long
    the watcher runs. *)
Lemma sample_first_segment_lost (k : nat) :
  delivered
    (trace (snd (watch_segments Sample.sink default_interval (2 + k)
                   (Sample.boot Sample.playlist))))
  = [Sample.seg2].
Proof.
  assert (Hstep : forall n t,
             cycle Sample.sink default_interval
               (@Build_WState Sample.world (S n)
                  (with_last_seq Sample.playlist 2) t)
             = (Ret tt,
                @Build_WState Sample.world (S (S n))
                  (with_last_seq Sample.playlist 2)
                  ((t ++ [EvGet Sample.media_url])
                     ++ [EvSleep default_interval]))).
  { intros n t. reflexivity. }
  assert (Hrun : forall j n t,
             delivered t = [Sample.seg2] ->
             delivered
               (trace (snd (watch_segments Sample.sink default_interval j
                              (@Build_WState Sample.world (S n)
                                 (with_last_seq Sample.playlist 2) t))))
             = [Sample.seg2]).
  { induction j as [|j IH]; intros n t Ht; [exact Ht|].
    rewrite watch_segments_step, Hstep. apply IH.
    rewrite !delivered_app, Ht. reflexivity. }
  change (2 + k)%nat with (S (S k)).
  rewrite !watch_segments_step.
  set (s2 := snd (cycle Sample.sink default_interval
                    (snd (cycle Sample.sink default_interval
                            (Sample.boot Sample.playlist))))).
  assert (E : s2 = @Build_WState Sample.world 6%nat
                     (with_last_seq Sample.playlist 2) (trace s2))
    by reflexivity.
  rewrite E. apply Hrun. reflexivity.
Qed.

(** ** Play URLs by bandwidth *)

Lemma emap_ret {A B : Type} (f : A -> exc B) (l : list A) (bs : list B) :
  emap f l = Ret bs -> forall a, In a l -> exists b, f a = Ret b.
Proof.
  revert bs. induction l as [|x l IH]; intros bs H a Hin; [destruct Hin|].
  simpl in H. destruct (f x) as [b|e] eqn:Ex; [|discriminate].
  destruct (emap f l) as [bs'|e]; [|discriminate].
  destruct Hin as [<-|Hin]; [eauto|]. apply (IH bs' eq_refl a Hin).
Qed.

Lemma combine_nth_error {A B : Type} (a : list A) (b : list B)
  (x : A) (y : B) :
  In (x, y) (combine a b) ->
  exists i, nth_error a i = Some x /\ nth_error b i = Some y.
Proof.
  revert b. induction a as [|a0 a IH]; intros b H; [destruct H|].
  destruct b as [|b0 b]; [destruct H|].
  destruct H as [[= -> ->]|H].
  - exists O. auto.
  - destruct (IH b H) as (i & Ha & Hb). exists (S i). auto.
Qed.



Module MyLiveStreamFacts.
Import MyLiveStream.

(** The keys of the dictionary are URLs of the pairs. *)
Lemma url_bandwidths_keys (pairs : list (string * string))
  (d0 d : list (string * Z)) :
  url_bandwidths pairs d0 = Ret d ->
  forall u, In u (dict_keys d) ->
    In u (dict_keys d0) \/ In u (map snd pairs).
Proof.
  revert d0. induction pairs as [|[b u0] pairs IH]; intros d0 H u Hu.
  - injection H as <-. left. exact Hu.
  - simpl in H. destruct (Py.int b) as [z|e]; [|discriminate]. simpl in H.
    destruct (IH _ H u Hu) as [Hin|Hin].
    + rewrite (dict_keys_set _ string_eqb_eq) in Hin.
      destruct (dict_mem String.eqb u0 d0); [left; exact Hin|].
      apply in_app_iff in Hin as [Hin|Hin]; [left; exact Hin|].
      destruct Hin as [<-|[]]. right. left. reflexivity.
    + right. right. exact Hin.
Qed.



Lemma sorted_by_bandwidth_ret (d : list (string * Z)) (urls l : list string) :
  sorted_by_bandwidth d urls = Ret l ->
  forall u, In u urls -> In u (dict_keys d).
Proof.
  unfold sorted_by_bandwidth. intros H u Hu.
  destruct (emap (fun u => dict_getitem String.eqb u d) urls) as [keys|e]
    eqn:E; [|discriminate].
  destruct (emap_ret _ _ _ E u Hu) as [z Hz].
  unfold dict_getitem in Hz.
  destruct (dict_get String.eqb u d) as [z'|] eqn:Eg; [|discriminate].
  apply (dict_get_In _ string_eqb_eq), (in_map fst) in Eg. exact Eg.
Qed.


(** The method itself: the text is that of the response to the request
    for the manifest. *)
Lemma get_cb_play_url_list_spec {W : World} (m3u8 : string) (e e' : Env)
  (resp : Response) :
  session_get m3u8 e = (Ret resp, e') ->
  get_cb_play_url_list m3u8 e = (play_urls_of m3u8 (text resp), e').
Proof. unfold get_cb_play_url_list. intros ->. reflexivity. Qed.
End MyLiveStreamFacts.

Example play_urls_sorted :
  MyLiveStream.play_urls_of "https://h/live/playlist.m3u8"
    ("#EXT-X-STREAM-INF:BANDWIDTH=100,RESOLUTION=1x1"
     ++ String MyLiveStream.newline "chunklist_a.m3u8"
     ++ String MyLiveStream.newline
          "#EXT-X-STREAM-INF:BANDWIDTH=300,RESOLUTION=1x1"
     ++ String MyLiveStream.newline "chunklist_b.m3u8")%string
  = Ret ["https://h/live/chunklist_b.m3u8"; "https://h/live/chunklist_a.m3u8"].
Proof. vm_compute. reflexivity. Qed.


(** * Further properties *)


(** ** The [resolutions] dictionary, continued *)

(** X1: The loop that builds the dictionary of resolutions has two
    outcomes. When no variant of the manifest has a resolution, every
    variant is skipped and the dictionary stays empty. When a variant
    has a resolution, the loop raises [AttributeError] at the first such
    variant, on the read of [stream_info.name], before an entry is
    written. *)
Theorem resolutions_outcome (pls : list M3U8.Variant) :
  (collect_resolutions [] pls = Ret []
   /\ forall p, In p pls -> has_resolution p = false)
  \/ (collect_resolutions [] pls = Raise (LibraryError "AttributeError")
      /\ exists p, In p pls /\ has_resolution p = true
                   /\ forall rs, add_variant rs p
                                 = Raise (LibraryError "AttributeError")).
Proof.
  destruct (existsb has_resolution pls) eqn:E.
  - right. apply existsb_exists in E as (p & Hin & Hp).
    split; [apply (collect_resolutions_raises [] pls p Hin Hp)|].
    exists p. split; [exact Hin|]. split; [exact Hp|].
    intros rs. apply add_variant_raises, Hp.
  - left.
    assert (Hall : forall p, In p pls -> has_resolution p = false).
    { intros p Hin. destruct (has_resolution p) eqn:Hp; [|reflexivity].
      assert (Hex : existsb has_resolution pls = true)
        by (apply existsb_exists; exists p; auto).
      congruence. }
    split; [apply collect_resolutions_none, Hall|exact Hall].
Qed.

(** On the sample manifests: the audio-only manifest gives the empty
    dictionary, the master manifest raises. *)
Example resolutions_outcome_samples :
  collect_resolutions [] (M3U8.playlists Sample.audio_master) = Ret []
  /\ collect_resolutions [] (M3U8.playlists Sample.master)
     = Raise (LibraryError "AttributeError").
Proof. split; reflexivity. Qed.

(** ** What [parse_playlist] can return *)

Section ReturnedPlaylist.
Context {W : World}.

(** X3: [parse_playlist] returns [None] for every source URL, manifest
  text, target width and target frame rate, and its body never gets
  to the [return Playlist(...)]: it returns [None] or raises. *)
Theorem parse_playlist_returns_none (hls content : string)
(resolution framerate : Z) :
parse_playlist hls content resolution framerate = Ret None
/\ (parse_playlist_try hls content resolution framerate = Ret None
    \/ exists e,
         parse_playlist_try hls content resolution framerate = Raise e).
Proof.
pose proof (parse_playlist_none hls content resolution framerate) as H.
split; [exact H|]. unfold parse_playlist in H.
destruct (parse_playlist_try hls content resolution framerate) as [r|e];
  [left; exact H|right; exists e; reflexivity].
Qed.
End ReturnedPlaylist.

(** ** The watcher, continued *)

(** X4: The sequence number is -1 or a natural number: no URI gives a number
    below -1, so that -1 is never the number of a segment that has one. *)
Theorem segment_seq_sentinel (uri : string) :
  exists n, _parse_segment_seq uri = Ret n /\ (n = -1 \/ 0 <= n).
Proof.
  destruct (parse_segment_seq_total uri) as [n Hn].
  exists n. split; [exact Hn|].
  pose proof (parse_segment_seq_lower_bound uri n Hn). lia.
Qed.

Section WatcherInvariants.
Context {W : World}.
Variable handler : Handler.
Variable interval : Q.

Lemma advanced_refl (s : WState) : advanced s s.
Proof.
unfold advanced. repeat split; try lia.
exists []. rewrite app_nil_r. reflexivity.
Qed.

Lemma advanced_trans (s1 s2 s3 : WState) :
advanced s1 s2 -> advanced s2 s3 -> advanced s1 s3.
Proof.
intros (A1 & A2 & A3 & A4 & A5 & t1 & A6) (B1 & B2 & B3 & B4 & B5 & t2 & B6).
unfold advanced. repeat split; try congruence; try lia.
exists (t1 ++ t2). rewrite B6, A6, app_assoc. reflexivity.
Qed.

Lemma advanced_logged (s : WState) (evs : list event) :
advanced s (logged s evs).
Proof.
unfold advanced, logged. simpl. repeat split; try lia.
exists evs. reflexivity.
Qed.

Lemma process_segment_advanced (seg : M3U8.Segment) (s : WState) :
advanced s (snd (process_segment handler seg s)).
Proof.
destruct (Z.eq_dec (seq_of seg) (-1)) as [E|E].
{ rewrite process_segment_skip by (left; exact E). apply advanced_refl. }
destruct (Z_lt_le_dec (last_seq (self s)) (seq_of seg)) as [L|L].
2:{ rewrite process_segment_skip by (right; exact L). apply advanced_refl. }
rewrite process_segment_new by assumption.
destruct (deliver_has_outcome handler seg (marked s (seq_of seg)))
  as [tr Ho].
destruct (deliver_outcome_frame _ _ _ _ _ _ Ho) as (Hs & Ht & _).
unfold advanced. rewrite Hs, Ht. simpl. repeat split; try lia.
eexists. rewrite <- app_assoc. reflexivity.
Qed.

Lemma process_segments_advanced (L : list M3U8.Segment) (s : WState) :
advanced s (snd (process_segments handler L s)).
Proof.
revert s. induction L as [|seg L IH]; intros s; [apply advanced_refl|].
rewrite process_segments_cons.
pose proof (process_segment_advanced seg s) as H1.
destruct (process_segment handler seg s) as [[[]|e] s1]; [|exact H1].
apply (advanced_trans _ _ _ H1 (IH s1)).
Qed.

Lemma poll_advanced (s : WState) : advanced s (snd (poll s)).
Proof.
destruct (poll_spec s) as [Hs Ht]. unfold advanced. rewrite Hs, Ht.
repeat split; try lia. eexists. reflexivity.
Qed.

Lemma cycle_advanced (s : WState) :
advanced s (snd (cycle handler interval s)).
Proof.
rewrite cycle_spec, cycle_try_spec.
pose proof (poll_advanced s) as H1.
destruct (poll s) as [[m|e] s1]; cbn [fst snd] in *.
- pose proof (process_segments_advanced (M3U8.segments m) s1) as H2.
  destruct (process_segments handler (M3U8.segments m) s1)
    as [[[]|e] s2]; [destruct (sleep_check interval) as [[]|x]|];
    cbn [fst snd] in *;
    apply (advanced_trans _ _ _ H1), (advanced_trans _ _ _ H2),
      advanced_logged.
- apply (advanced_trans _ _ _ H1), advanced_logged.
Qed.

(** X5: Whatever the world does, the watcher leaves the URL, the base URL,
  the resolution and the frame rate of its playlist as they are,
  [last_seq] never goes down, and the trace only grows. *)
Theorem watch_segments_advanced (n : nat) (s : WState) :
advanced s (snd (watch_segments handler interval n s)).
Proof.
revert s. induction n as [|n IH]; intros s; [apply advanced_refl|].
rewrite watch_segments_step.
apply (advanced_trans _ _ _ (cycle_advanced s) (IH _)).
Qed.


(** With a poll interval that [time.sleep] refuses, the sleep that ends
  the turn raises: the turn ends as a failed one, with the error
  printed and the sleep of [error_wait]. *)
Lemma refused_interval_cycle (s s1 : WState) (m : M3U8.t) (e : exn) :
sleep_check interval = Raise e ->
poll s = (Ret m, s1) ->
(forall x, In x (seqs (M3U8.segments m)) -> x <= last_seq (self s)) ->
cycle handler interval s
= (Ret tt, logged s1 [EvPrint e; EvSleep error_wait]).
Proof.
intros Hi Hp Hold. destruct (poll_spec s) as [Hs _]. rewrite Hp in Hs.
simpl in Hs.
rewrite cycle_spec, cycle_try_spec, Hp.
rewrite (process_segments_old handler (M3U8.segments m) s1);
  [rewrite Hi; reflexivity|].
intros x Hx. rewrite Hs. apply Hold, Hx.
Qed.

Lemma process_segments_gets (L : list M3U8.Segment) (s : WState) :
exists tr,
  trace (snd (process_segments handler L s)) = trace s ++ tr
  /\ (gets tr <= 3 * List.length L)%nat.
Proof.
revert s. induction L as [|seg L IH]; intros s.
- exists []. simpl. rewrite app_nil_r. split; [reflexivity|lia].
- rewrite process_segments_cons.
  assert (H1 : exists tr,
             trace (snd (process_segment handler seg s)) = trace s ++ tr
             /\ (gets tr <= 3)%nat).
  { destruct (Z.eq_dec (seq_of seg) (-1)) as [E|E].
    { rewrite process_segment_skip by (left; exact E).
      exists []. simpl. rewrite app_nil_r. split; [reflexivity|lia]. }
    destruct (Z_lt_le_dec (last_seq (self s)) (seq_of seg)) as [Lt|Le].
    2:{ rewrite process_segment_skip by (right; exact Le).
        exists []. simpl. rewrite app_nil_r. split; [reflexivity|lia]. }
    rewrite process_segment_new by assumption.
    destruct (deliver_has_outcome handler seg (marked s (seq_of seg)))
      as [tr Ho].
    destruct (deliver_outcome_frame _ _ _ _ _ _ Ho) as (_ & Ht & Hg & _).
    exists (EvLastSeq (seq_of seg) :: tr). rewrite Ht. simpl.
    split; [rewrite <- app_assoc; reflexivity|exact Hg]. }
  destruct H1 as (t1 & Ht1 & Hg1).
  destruct (process_segment handler seg s) as [[[]|e] s1];
    cbn [fst snd] in *.
  + destruct (IH s1) as (t2 & Ht2 & Hg2). exists (t1 ++ t2).
    rewrite Ht2, Ht1, app_assoc, gets_app. split; [reflexivity|].
    simpl List.length. lia.
  + exists t1. split; [exact Ht1|]. simpl List.length. lia.
Qed.

(** X7: Every turn of the loop starts with the request for the manifest and
  ends in a sleep: of the poll interval when the turn went through, of
  [error_wait], after the error is printed, when it failed. Between
  the two there are at most three requests per segment of the
  manifest. A turn with a poll interval that [time.sleep] refuses, a
  negative one or one above [sleep_max], never goes through: its own
  sleep raises. *)
Theorem turn_ends_in_sleep (s : WState) :
exists tr d,
  trace (snd (cycle handler interval s))
  = trace s ++ EvGet (url (self s)) :: tr ++ [EvSleep d]
  /\ (fst (cycle_try handler interval s) = Ret tt -> d = interval)
  /\ (forall e, fst (cycle_try handler interval s) = Raise e ->
        d = error_wait /\ In (EvPrint e) tr)
  /\ (forall m, fst (poll s) = Ret m ->
        (gets tr <= 3 * List.length (M3U8.segments m))%nat)
  /\ (forall e, fst (poll s) = Raise e -> tr = [EvPrint e])
  /\ (forall x, sleep_check interval = Raise x ->
      d = error_wait
      /\ exists e, fst (cycle_try handler interval s) = Raise e).
Proof.
rewrite cycle_spec, cycle_try_spec.
destruct (poll_spec s) as [_ Ht].
destruct (poll s) as [[m|e] s1]; cbn [fst snd] in *.
- destruct (process_segments_gets (M3U8.segments m) s1) as (t & Hts & Hg).
  destruct (process_segments handler (M3U8.segments m) s1)
    as [[[]|e] s2]; [destruct (sleep_check interval) as [[]|x]|];
    cbn [fst snd] in *.
  + exists t, interval. simpl. rewrite Hts, Ht.
    split; [app_normal|]. split; [reflexivity|].
    split; [discriminate|]. split; [|split; discriminate].
    intros m' [= <-]. exact Hg.
  + exists (t ++ [EvPrint x]), error_wait. simpl.
    rewrite Hts, Ht.
    split; [app_normal|]. split; [discriminate|].
    split.
    * intros e' [= <-]. split; [reflexivity|].
      apply in_or_app. right. left. reflexivity.
    * split; [|split; [discriminate|]].
      -- intros m' [= <-]. rewrite gets_app. simpl. lia.
      -- intros x' _. split; [reflexivity|]. eexists. reflexivity.
  + exists (t ++ [EvPrint e]), error_wait. simpl. rewrite Hts, Ht.
    split; [app_normal|]. split; [discriminate|].
    split.
    * intros e' [= <-]. split; [reflexivity|].
      apply in_or_app. right. left. reflexivity.
    * split; [|split; [discriminate|]].
      -- intros m' [= <-]. rewrite gets_app. simpl. lia.
      -- intros x' _. split; [reflexivity|]. eexists. reflexivity.
- exists [EvPrint e], error_wait. simpl. rewrite Ht.
  split; [app_normal|]. split; [discriminate|].
  split; [|split; [discriminate|split]].
  + intros e' [= <-]. split; [reflexivity|left; reflexivity].
  + intros e' [= <-]. reflexivity.
  + intros x' _. split; [reflexivity|]. eexists. reflexivity.
Qed.
End WatcherInvariants.


(** The same turn with the poll interval -1: the sleep raises, the
    error is printed and the turn ends in the sleep of [error_wait]. *)
Example negative_interval_turn :
  trace (snd (cycle Sample.sink (-1 # 1) (Sample.state 6 2)))
  = [EvGet Sample.media_url; EvPrint ValueError; EvSleep error_wait].
Proof. reflexivity. Qed.

(** And with a poll interval of ten thousand million seconds, more than
    the nanosecond count holds. *)
Example too_long_interval_turn :
  trace (snd (cycle Sample.sink (10000000000 # 1) (Sample.state 6 2)))
  = [EvGet Sample.media_url; EvPrint (LibraryError "OverflowError");
     EvSleep error_wait].
Proof. reflexivity. Qed.

(** A turn with the default interval, and the same turn with the
    interval -1. *)
Lemma turn_ends_in_sleep_witness :
  (exists tr d,
     trace (snd (cycle Sample.sink default_interval (Sample.state 6 2)))
     = EvGet Sample.media_url :: tr ++ [EvSleep d]
     /\ d = default_interval
     /\ (gets tr <= 6)%nat)
  /\ (exists tr d,
        trace (snd (cycle Sample.sink (-1 # 1) (Sample.state 6 2)))
        = EvGet Sample.media_url :: tr ++ [EvSleep d]
        /\ d = error_wait
        /\ In (EvPrint ValueError) tr).
Proof.
  split.
  - destruct (turn_ends_in_sleep Sample.sink default_interval
                (Sample.state 6 2))
      as (tr & d & Ht & Hok & _ & Hg & _).
    exists tr, d. split; [exact Ht|]. split.
    + apply Hok. reflexivity.
    + apply (Hg (Sample.media [Sample.seg1; Sample.seg2])). reflexivity.
  - destruct (turn_ends_in_sleep Sample.sink (-1 # 1) (Sample.state 6 2))
      as (tr & d & Ht & _ & Hfail & _).
    exists tr, d. split; [exact Ht|].
    apply (Hfail ValueError). reflexivity.
Defined.

(** ** Play URLs by bandwidth, continued *)

Module SortFacts.
Import MyLiveStream.

Lemma insert_desc_perm (x : Z * string) (l : list (Z * string)) :
Permutation (insert_desc x l) (x :: l).
Proof.
induction l as [|y l IH]; simpl; [reflexivity|].
destruct (fst y <=? fst x); [reflexivity|].
rewrite IH. apply perm_swap.
Qed.

Lemma sort_desc_perm (l : list (Z * string)) : Permutation (sort_desc l) l.
Proof.
induction l as [|x l IH]; simpl; [reflexivity|].
rewrite insert_desc_perm. constructor. exact IH.
Qed.

Lemma insert_desc_sorted (x : Z * string) (l : list (Z * string)) :
StronglySorted desc l -> StronglySorted desc (insert_desc x l).
Proof.
induction l as [|y l IH]; intros H; simpl.
- repeat constructor.
- inversion H as [|? ? Hl Hy]; subst.
  destruct (Z.leb_spec (fst y) (fst x)) as [Hle|Hgt].
  + constructor; [exact H|]. constructor; [exact Hle|].
    apply Forall_forall. intros z Hz.
    rewrite Forall_forall in Hy. specialize (Hy z Hz).
    unfold desc in *. lia.
  + constructor; [apply IH, Hl|].
    apply Forall_forall. intros z Hz.
    apply (Permutation_in _ (insert_desc_perm x l)) in Hz.
    destruct Hz as [<-|Hz]; [unfold desc; lia|].
    rewrite Forall_forall in Hy. apply Hy, Hz.
Qed.

Lemma sort_desc_sorted (l : list (Z * string)) :
StronglySorted desc (sort_desc l).
Proof.
induction l as [|x l IH]; simpl; [constructor|].
apply insert_desc_sorted, IH.
Qed.

(** Items of equal key keep their order. *)
Lemma insert_desc_stable (k : Z) (x : Z * string) (l : list (Z * string)) :
StronglySorted desc l ->
filter (fun y => fst y =? k) (insert_desc x l)
= filter (fun y => fst y =? k) (x :: l).
Proof.
induction l as [|y l IH]; intros H; [reflexivity|].
inversion H as [|? ? Hl Hy]; subst. simpl insert_desc.
destruct (Z.leb_spec (fst y) (fst x)) as [Hle|Hgt]; [reflexivity|].
simpl. rewrite (IH Hl). simpl.
destruct (Z.eqb_spec (fst y) k) as [Ey|Ey];
  destruct (Z.eqb_spec (fst x) k) as [Ex|Ex]; try reflexivity.
lia.
Qed.

Lemma sort_desc_stable (k : Z) (l : list (Z * string)) :
filter (fun y => fst y =? k) (sort_desc l) = filter (fun y => fst y =? k) l.
Proof.
induction l as [|x l IH]; [reflexivity|].
simpl sort_desc. rewrite insert_desc_stable by apply sort_desc_sorted.
simpl. rewrite IH. reflexivity.
Qed.

Lemma emap_getitem (d : list (string * Z)) (urls : list string)
(keys : list Z) :
emap (fun u => dict_getitem String.eqb u d) urls = Ret keys ->
combine keys urls = map (fun u => (bandwidth_of d u, u)) urls
/\ forall u, In u urls -> exists z, dict_get String.eqb u d = Some z.
Proof.
revert keys. induction urls as [|u urls IH]; intros keys H; simpl in H.
- injection H as <-. split; [reflexivity|intros u []].
- unfold dict_getitem at 1 in H.
  destruct (dict_get String.eqb u d) as [z|] eqn:E; [|discriminate].
  destruct (emap _ urls) as [ks|e]; [|discriminate].
  injection H as <-. destruct (IH ks eq_refl) as [Hc Hall].
  split.
  + simpl. unfold bandwidth_of at 1. rewrite E, Hc. reflexivity.
  + intros v [<-|Hv]; [eauto|apply Hall, Hv].
Qed.

(** X8: When the function returns, the list returned holds the collected
  URLs, each as often as it was collected, with the greater bandwidth
  first and, among URLs of equal bandwidth, in the order they were
  collected. *)
Theorem sorted_by_bandwidth_spec (m3u8 resp : string) (l : list string) :
play_urls_of m3u8 resp = Ret l ->
exists d,
  url_bandwidths
    (combine (findall_bandwidth resp O) (collected_urls m3u8 resp)) []
  = Ret d
  /\ Permutation l (collected_urls m3u8 resp)
  /\ StronglySorted (fun u v => bandwidth_of d v <= bandwidth_of d u) l
  /\ forall k,
       filter (fun u => bandwidth_of d u =? k) l
       = filter (fun u => bandwidth_of d u =? k) (collected_urls m3u8 resp).
Proof.
unfold play_urls_of. cbv zeta. intros H.
destruct (url_bandwidths _ []) as [d|e]; [|discriminate]. simpl in H.
exists d. split; [reflexivity|].
unfold sorted_by_bandwidth in H.
destruct (emap _ (collected_urls m3u8 resp)) as [keys|e] eqn:E;
  [|discriminate].
simpl in H. injection H as <-.
destruct (emap_getitem _ _ _ E) as [Hc _]. rewrite Hc.
set (tag := fun u => (bandwidth_of d u, u)).
set (urls := collected_urls m3u8 resp).
assert (Htag : forall y, In y (sort_desc (map tag urls)) ->
                 y = tag (snd y)).
{ intros y Hy. apply (Permutation_in _ (sort_desc_perm _)) in Hy.
  apply in_map_iff in Hy as (u & <- & _). reflexivity. }
split; [|split].
- rewrite (sort_desc_perm (map tag urls)), map_map. simpl.
  rewrite map_id. reflexivity.
- pose proof (sort_desc_sorted (map tag urls)) as Hs.
  induction Hs as [|y t Ht IHt Hy]; simpl; [constructor|].
  constructor.
  + apply IHt. intros z Hz. apply Htag. right. exact Hz.
  + apply Forall_forall. intros v Hv.
    apply in_map_iff in Hv as (z & <- & Hz).
    rewrite Forall_forall in Hy. specialize (Hy z Hz). unfold desc in Hy.
    rewrite (Htag y (or_introl eq_refl)) in Hy.
    rewrite (Htag z (or_intror Hz)) in Hy. exact Hy.
- intros k.
  assert (Hf : forall t, (forall y, In y t -> y = tag (snd y)) ->
                 filter (fun u => bandwidth_of d u =? k) (map snd t)
                 = map snd (filter (fun y => fst y =? k) t)).
  { induction t as [|y t IHt]; intros Hy; [reflexivity|]. simpl.
    rewrite (IHt (fun z Hz => Hy z (or_intror Hz))).
    pose proof (Hy y (or_introl eq_refl)) as Ey.
    destruct y as [ky uy]. unfold tag in Ey. simpl in Ey |- *.
    injection Ey as ->.
    destruct (bandwidth_of d uy =? k); reflexivity. }
  rewrite (Hf _ Htag), sort_desc_stable, <- Hf.
  + rewrite map_map. simpl. rewrite map_id. reflexivity.
  + intros y Hy. apply in_map_iff in Hy as (u & <- & _). reflexivity.
Qed.

Lemma filter_none {A : Type} (f : A -> bool) (l : list A) :
(forall x, In x l -> f x = false) -> filter f l = [].
Proof.
induction l as [|x l IH]; intros H; [reflexivity|]. simpl.
rewrite (H x (or_introl eq_refl)). apply IH.
intros y Hy. apply H. right. exact Hy.
Qed.

Lemma play_urls_of_empty (m3u8 resp : string) :
(forall line, In line (lines_of resp) ->
   Py.startswith "chunklist_" line = false
   /\ Py.endswith "m3u8" (Py.strip line) = false) ->
play_urls_of m3u8 resp = Ret [].
Proof.
intros H. unfold lines_of in H.
assert (Hc : collected_urls m3u8 resp = []).
{ unfold collected_urls, chunklist_urls, m3u8_urls.
  rewrite (filter_none (Py.startswith "chunklist_"))
    by (intros x Hx; apply (H x Hx)).
  rewrite (filter_none (fun i => Py.endswith "m3u8" (Py.strip i)))
    by (intros x Hx; apply (H x Hx)).
  reflexivity. }
unfold play_urls_of. cbv zeta. rewrite Hc, combine_nil. reflexivity.
Qed.

(** X9: A response with no line that starts with [chunklist_] and no line
  that ends in [m3u8] gives the empty list, with no error, whatever
  bandwidths it holds. *)
Theorem no_urls_no_error (m3u8 resp : string) :
(forall line, In line (lines_of resp) ->
   Py.startswith "chunklist_" line = false
   /\ Py.endswith "m3u8" (Py.strip line) = false) ->
play_urls_of m3u8 resp = Ret [].
Proof. exact (play_urls_of_empty m3u8 resp). Qed.

Lemma take_digit_run (s : string) :
Py.all_digits (Py.take (digit_run s) s) = true.
Proof.
induction s as [|c s IH]; [reflexivity|]. simpl.
destruct (Py.is_digit c) eqn:E; [|reflexivity].
simpl. rewrite E, IH. reflexivity.
Qed.

(** Every match of the pattern is a non-empty string of decimal digits. *)
Lemma findall_bandwidth_digits (s : string) (skip : nat) (b : string) :
In b (findall_bandwidth s skip) ->
b <> EmptyString /\ Py.all_digits b = true.
Proof.
revert skip. induction s as [|c s IH]; intros skip H; [destruct H|].
cbn [findall_bandwidth] in H.
destruct skip as [|k]; [|apply (IH _ H)].
destruct (Py.startswith "BANDWIDTH=" (String c s)); [|apply (IH _ H)].
set (digits := String.substring 10 (String.length (String c s) - 10)
                 (String c s)) in *.
destruct (digit_run digits) as [|n] eqn:E; [apply (IH _ H)|].
destruct H as [<-|H]; [|apply (IH _ H)].
split.
- destruct digits; [discriminate|]. simpl. discriminate.
- rewrite <- E. apply take_digit_run.
Qed.

Lemma url_bandwidths_ok (pairs : list (string * string))
(d0 : list (string * Z)) :
(forall b u, In (b, u) pairs -> exists z, Py.int b = Ret z) ->
exists d,
  url_bandwidths pairs d0 = Ret d
  /\ forall u, In u (dict_keys d0) \/ In u (map snd pairs) ->
       In u (dict_keys d).
Proof.
revert d0. induction pairs as [|[b u0] pairs IH]; intros d0 H.
- exists d0. split; [reflexivity|]. intros u [Hu|[]]. exact Hu.
- simpl. destruct (H b u0 (or_introl eq_refl)) as [z ->]. simpl.
  destruct (IH (dict_set String.eqb u0 z d0)) as (d & Hd & Hk).
  { intros b' u' Hin. apply (H b' u'). right. exact Hin. }
  exists d. split; [exact Hd|].
  intros u [Hu|[<-|Hu]]; apply Hk.
  + left. rewrite (dict_keys_set _ string_eqb_eq).
    destruct (dict_mem String.eqb u0 d0); [exact Hu|].
    apply in_or_app. left. exact Hu.
  + left. apply (dict_mem_keys _ string_eqb_eq).
    unfold dict_mem. rewrite (dict_get_set_same _ string_eqb_eq).
    reflexivity.
  + right. exact Hu.
Qed.

Lemma emap_all_ret {A B : Type} (f : A -> exc B) (l : list A) :
(forall a, In a l -> exists b, f a = Ret b) ->
exists bs, emap f l = Ret bs.
Proof.
induction l as [|a l IH]; intros H; [exists []; reflexivity|].
simpl. destruct (H a (or_introl eq_refl)) as [b ->].
destruct IH as [bs ->]; [intros x Hx; apply H; right; exact Hx|].
eauto.
Qed.

Lemma combine_snd_all {A B : Type} (a : list A) (b : list B) :
(List.length b <= List.length a)%nat -> map snd (combine a b) = b.
Proof.
revert a. induction b as [|y b IH]; intros a H.
- rewrite combine_nil. reflexivity.
- destruct a as [|x a]; [simpl in H; lia|].
  simpl. rewrite IH; [reflexivity|simpl in H; lia].
Qed.

Lemma play_urls_of_returns (m3u8 resp : string) :
(List.length (collected_urls m3u8 resp)
 <= List.length (findall_bandwidth resp O))%nat ->
(forall b, In b (findall_bandwidth resp O) ->
   (String.length b <= Py.int_max_str_digits)%nat) ->
exists l, play_urls_of m3u8 resp = Ret l.
Proof.
intros Hlen Hmax. unfold play_urls_of. cbv zeta.
destruct (url_bandwidths_ok
            (combine (findall_bandwidth resp O) (collected_urls m3u8 resp))
            []) as (d & -> & Hk).
{ intros b u Hin. apply in_combine_l in Hin.
  destruct (findall_bandwidth_digits _ _ _ Hin) as [Hne Hd].
  exists (Py.decimal b 0). apply int_of_digits; auto. }
simpl. unfold sorted_by_bandwidth.
destruct (emap_all_ret (fun u => dict_getitem String.eqb u d)
            (collected_urls m3u8 resp)) as [keys ->].
- intros u Hu. unfold dict_getitem.
  assert (Hin : In u (dict_keys d)).
  { apply Hk. right. rewrite combine_snd_all by exact Hlen. exact Hu. }
  apply (dict_mem_keys _ string_eqb_eq) in Hin. unfold dict_mem in Hin.
  destruct (dict_get String.eqb u d); [eauto|discriminate].
- simpl. eauto.
Qed.

(** X10: With at least as many bandwidths in the text as URLs collected, none
  of them longer than the interpreter's limit on decimal literals, the
  function returns a list. *)
Theorem enough_bandwidths (m3u8 resp : string) :
(List.length (collected_urls m3u8 resp)
 <= List.length (findall_bandwidth resp O))%nat ->
(forall b, In b (findall_bandwidth resp O) ->
   (String.length b <= Py.int_max_str_digits)%nat) ->
exists l, play_urls_of m3u8 resp = Ret l.
Proof. exact (play_urls_of_returns m3u8 resp). Qed.

(** The list returned holds the collected URLs, each as often as it was
  collected. *)
Lemma play_urls_of_perm (m3u8 resp : string) (l : list string) :
play_urls_of m3u8 resp = Ret l ->
Permutation l (collected_urls m3u8 resp).
Proof.
unfold play_urls_of. cbv zeta. intros H.
destruct (url_bandwidths _ []) as [d|e]; [|discriminate]. simpl in H.
unfold sorted_by_bandwidth in H.
destruct (emap _ (collected_urls m3u8 resp)) as [keys|e] eqn:E;
  [|discriminate].
simpl in H. injection H as <-.
destruct (emap_getitem _ _ _ E) as [Hc _]. rewrite Hc.
rewrite (sort_desc_perm _), map_map. simpl. rewrite map_id. reflexivity.
Qed.

(** With distinct URLs and fewer bandwidths than URLs, the function
  raises. *)
Lemma play_urls_of_short (m3u8 resp : string) :
NoDup (collected_urls m3u8 resp) ->
(List.length (findall_bandwidth resp O)
 < List.length (collected_urls m3u8 resp))%nat ->
exists e, play_urls_of m3u8 resp = Raise e.
Proof.
intros Hnd Hlen.
destruct (play_urls_of m3u8 resp) as [l|e] eqn:E; [|eauto].
exfalso.
destruct (nth_error (collected_urls m3u8 resp)
            (List.length (findall_bandwidth resp O))) as [u|] eqn:En.
2:{ apply nth_error_None in En. lia. }
assert (Hu : In u (collected_urls m3u8 resp))
  by apply (nth_error_In _ _ En).
unfold play_urls_of in E. cbv zeta in E.
destruct (url_bandwidths _ []) as [d|x] eqn:Ed; [|discriminate].
simpl in E.
pose proof (MyLiveStreamFacts.sorted_by_bandwidth_ret _ _ _ E u Hu) as Hk.
destruct (MyLiveStreamFacts.url_bandwidths_keys _ _ _ Ed u Hk)
  as [[]|Hin].
apply in_map_iff in Hin as ([b u'] & Hu' & Hin). simpl in Hu'. subst u'.
destruct (combine_nth_error _ _ _ _ Hin) as (i & Hb & Hi).
assert (Hlt : (i < List.length (findall_bandwidth resp O))%nat)
  by (apply nth_error_Some; congruence).
assert (i = List.length (findall_bandwidth resp O)); [|lia].
apply (proj1 (NoDup_nth_error _) Hnd); [|congruence].
apply nth_error_Some. congruence.
Qed.
End SortFacts.

Lemma sorted_by_bandwidth_spec_witness :
  Permutation
    ["https://h/live/chunklist_b.m3u8"; "https://h/live/chunklist_a.m3u8"]
    (MyLiveStream.collected_urls "https://h/live/playlist.m3u8"
       ("#EXT-X-STREAM-INF:BANDWIDTH=100"
        ++ String MyLiveStream.newline "chunklist_a.m3u8"
        ++ String MyLiveStream.newline "#EXT-X-STREAM-INF:BANDWIDTH=300"
        ++ String MyLiveStream.newline "chunklist_b.m3u8")%string).
Proof.
  destruct (SortFacts.sorted_by_bandwidth_spec "https://h/live/playlist.m3u8"
              ("#EXT-X-STREAM-INF:BANDWIDTH=100"
               ++ String MyLiveStream.newline "chunklist_a.m3u8"
               ++ String MyLiveStream.newline "#EXT-X-STREAM-INF:BANDWIDTH=300"
               ++ String MyLiveStream.newline "chunklist_b.m3u8")%string
              ["https://h/live/chunklist_b.m3u8";
               "https://h/live/chunklist_a.m3u8"])
    as (d & _ & Hp & _).
  - vm_compute. reflexivity.
  - exact Hp.
Defined.

Lemma no_urls_no_error_witness :
  MyLiveStream.play_urls_of "https://h/live/playlist.m3u8"
    ("#EXTM3U" ++ String MyLiveStream.newline "#BANDWIDTH=5")%string
  = Ret [].
Proof.
  apply SortFacts.no_urls_no_error.
  intros line Hin. vm_compute in Hin.
  destruct Hin as [<-|[<-|[]]]; split; reflexivity.
Defined.

Lemma enough_bandwidths_witness :
  exists l,
    MyLiveStream.play_urls_of "https://h/live/playlist.m3u8"
      ("#EXT-X-STREAM-INF:BANDWIDTH=100,AVERAGE-BANDWIDTH=90"
       ++ String MyLiveStream.newline "chunklist_a.m3u8")%string
    = Ret l.
Proof.
  apply SortFacts.enough_bandwidths.
  - vm_compute. lia.
  - intros b Hin. vm_compute in Hin.
    destruct Hin as [<-|[<-|[]]]; apply Nat.leb_le; reflexivity.
Defined.

(** ** The URLs collected from a manifest *)

Lemma filter_nil_all {A : Type} (f : A -> bool) (l : list A) :
  filter f l = [] -> forall x, In x l -> f x = false.
Proof.
  intros H x Hx. destruct (f x) eqn:E; [|reflexivity].
  assert (Hin : In x (filter f l)) by (apply filter_In; auto).
  rewrite H in Hin. destruct Hin.
Qed.

Lemma rfind_from_free (c : ascii) (s : string) (i : Z) :
  Py.has_char c s = false ->
  Py.rfind_from (String c EmptyString) s i = None.
Proof.
  revert i. induction s as [|a s IH]; intros i H; [reflexivity|].
  simpl in H. apply orb_false_iff in H as [Ha Hs].
  cbn [Py.rfind_from Py.startswith]. rewrite (IH _ Hs).
  rewrite Ascii.eqb_sym, Ha. reflexivity.
Qed.

(** [rsplit] cuts at the last separator. *)
Lemma rsplit1_head_last (c : ascii) (dir file : string) :
  Py.has_char c file = false ->
  Py.rsplit1_head c (dir ++ String c file) = dir.
Proof.
  intros H. unfold Py.rsplit1_head.
  assert (E : Py.rfind_from (String c EmptyString) (String c file) 0
              = Some 0).
  { cbn [Py.rfind_from Py.startswith]. rewrite (rfind_from_free _ _ _ H).
    rewrite Ascii.eqb_refl. reflexivity. }
  rewrite (rfind_from_app _ dir _ 0 0 E). unfold Py.len.
  replace (Z.to_nat (0 + Z.of_nat (String.length dir) + 0))
    with (String.length dir) by lia.
  apply take_app.
Qed.

Lemma rsplit1_head_free (c : ascii) (s : string) :
  Py.has_char c s = false -> Py.rsplit1_head c s = s.
Proof.
  intros H. unfold Py.rsplit1_head. rewrite (rfind_from_free _ _ _ H).
  reflexivity.
Qed.

(** X11: Where the play URLs come from. When some line of the text starts
    with [chunklist_], the URLs are these lines, stripped, each put after
    the base URL, and no other line is used. Only when there is no such
    line are the lines that end in [m3u8] taken, stripped and as they
    are. The base URL is the address of the manifest up to its last
    slash, or the whole address and a slash when it has none. *)
Theorem collected_urls_spec (m3u8 resp : string) :
  (forall u,
     In u (MyLiveStream.collected_urls m3u8 resp) ->
     (exists line,
        In line (lines_of resp)
        /\ Py.startswith "chunklist_" line = true
        /\ u = (Py.rsplit1_head "/" m3u8 ++ "/" ++ Py.strip line)%string)
     \/ ((forall line, In line (lines_of resp) ->
            Py.startswith "chunklist_" line = false)
         /\ exists line,
              In line (lines_of resp)
              /\ Py.endswith "m3u8" (Py.strip line) = true
              /\ u = Py.strip line))
  /\ (forall line,
        In line (lines_of resp) ->
        Py.startswith "chunklist_" line = true ->
        In (Py.rsplit1_head "/" m3u8 ++ "/" ++ Py.strip line)%string
           (MyLiveStream.collected_urls m3u8 resp))
  /\ ((forall line, In line (lines_of resp) ->
         Py.startswith "chunklist_" line = false) ->
      forall line,
        In line (lines_of resp) ->
        Py.endswith "m3u8" (Py.strip line) = true ->
        In (Py.strip line) (MyLiveStream.collected_urls m3u8 resp))
  /\ (forall dir file,
        m3u8 = (dir ++ "/" ++ file)%string ->
        Py.has_char "/" file = false ->
        Py.rsplit1_head "/" m3u8 = dir)
  /\ (Py.has_char "/" m3u8 = false -> Py.rsplit1_head "/" m3u8 = m3u8).
Proof.
  unfold MyLiveStream.collected_urls, lines_of. cbv zeta.
  assert (Hc : forall u,
             In u (MyLiveStream.chunklist_urls
                     (Py.rsplit1_head "/" m3u8 ++ "/") resp)
             <-> exists line,
                   In line (Py.split MyLiveStream.newline resp)
                   /\ Py.startswith "chunklist_" line = true
                   /\ u = (Py.rsplit1_head "/" m3u8 ++ "/" ++ Py.strip line)
                            %string).
  { intros u. unfold MyLiveStream.chunklist_urls.
    rewrite in_map_iff. split.
    - intros (line & <- & Hin). apply filter_In in Hin as [Hin Hs].
      exists line. rewrite append_assoc. auto.
    - intros (line & Hin & Hs & ->). exists line.
      rewrite append_assoc. split; [reflexivity|].
      apply filter_In. auto. }
  assert (Hm : forall u,
             In u (MyLiveStream.m3u8_urls resp)
             <-> exists line,
                   In line (Py.split MyLiveStream.newline resp)
                   /\ Py.endswith "m3u8" (Py.strip line) = true
                   /\ u = Py.strip line).
  { intros u. unfold MyLiveStream.m3u8_urls. rewrite in_map_iff. split.
    - intros (line & <- & Hin). apply filter_In in Hin as [Hin Hs].
      exists line. auto.
    - intros (line & Hin & Hs & ->). exists line.
      split; [reflexivity|]. apply filter_In. auto. }
  assert (Hnone : MyLiveStream.chunklist_urls
                    (Py.rsplit1_head "/" m3u8 ++ "/") resp = [] <->
                  forall line, In line (Py.split MyLiveStream.newline resp) ->
                    Py.startswith "chunklist_" line = false).
  { unfold MyLiveStream.chunklist_urls. split.
    - intros H. apply filter_nil_all.
      destruct (filter _ _); [reflexivity|discriminate].
    - intros H. rewrite (SortFacts.filter_none _ _ H). reflexivity. }
  split; [|split; [|split; [|split]]].
  - intros u Hu.
    destruct (MyLiveStream.chunklist_urls _ resp) as [|u0 l] eqn:E.
    + right. split; [apply Hnone; reflexivity|]. apply Hm, Hu.
    + left. apply Hc, Hu.
  - intros line Hin Hs.
    assert (Hu : In (Py.rsplit1_head "/" m3u8 ++ "/" ++ Py.strip line)%string
                   (MyLiveStream.chunklist_urls
                      (Py.rsplit1_head "/" m3u8 ++ "/") resp))
      by (apply Hc; eauto).
    destruct (MyLiveStream.chunklist_urls _ resp); [destruct Hu|exact Hu].
  - intros Hno line Hin He. apply Hnone in Hno. rewrite Hno.
    apply Hm. eauto.
  - intros dir file -> Hf. apply (rsplit1_head_last "/" dir file Hf).
  - apply rsplit1_head_free.
Qed.

Lemma collected_urls_spec_witness :
  In "https://h/live/chunklist_a.m3u8"
     (MyLiveStream.collected_urls "https://h/live/playlist.m3u8"
        ("index.m3u8" ++ String MyLiveStream.newline "chunklist_a.m3u8  "))
  /\ In "index.m3u8"
        (MyLiveStream.collected_urls "https://h/live/playlist.m3u8"
           ("index.m3u8" ++ String MyLiveStream.newline " chunklist_a.mp4")).
Proof.
  destruct (collected_urls_spec "https://h/live/playlist.m3u8"
              ("index.m3u8" ++ String MyLiveStream.newline
               "chunklist_a.m3u8  "))
    as (_ & Hchunk & _).
  destruct (collected_urls_spec "https://h/live/playlist.m3u8"
              ("index.m3u8" ++ String MyLiveStream.newline
               " chunklist_a.mp4"))
    as (_ & _ & Hother & _).
  split.
  - apply (Hchunk "chunklist_a.m3u8  "); [right; left|]; reflexivity.
  - assert (Hno : forall line,
               In line (lines_of ("index.m3u8" ++ String MyLiveStream.newline
                                  " chunklist_a.mp4")) ->
               Py.startswith "chunklist_" line = false).
    { intros line Hin. vm_compute in Hin.
      destruct Hin as [<-|[<-|[]]]; reflexivity. }
    exact (Hother Hno "index.m3u8" (or_introl eq_refl) eq_refl).
Defined.

(** ** More on strings *)

Lemma find_from_shift (p s : string) (i : Z) :
  Py.find_from p s i = option_map (Z.add i) (Py.find_from p s 0).
Proof.
  revert i. induction s as [|c s IH]; intros i; cbn [Py.find_from].
  - destruct (Py.startswith p ""); cbn [option_map];
      [f_equal; lia|reflexivity].
  - destruct (Py.startswith p (String c s)); cbn [option_map];
      [f_equal; lia|].
    rewrite (IH (i + 1)), (IH (0 + 1)).
    destruct (Py.find_from p s 0); cbn [option_map]; [f_equal; lia|reflexivity].
Qed.

Lemma contains_tail (p : string) (c : ascii) (s : string) :
  Py.contains p (String c s) = false ->
  Py.startswith p (String c s) = false /\ Py.contains p s = false.
Proof.
  unfold Py.contains. cbn [Py.find_from].
  destruct (Py.startswith p (String c s)); [discriminate|].
  rewrite find_from_shift.
  destruct (Py.find_from p s 0); [discriminate|]. auto.
Qed.

Lemma startswith_app (p s : string) : Py.startswith p (p ++ s) = true.
Proof.
  induction p as [|c p IH]; [reflexivity|]. simpl.
  rewrite Ascii.eqb_refl. exact IH.
Qed.

Lemma drop_app (p s : string) : PyStr.drop (String.length p) (p ++ s) = s.
Proof. induction p as [|c p IH]; [destruct s; reflexivity|exact IH]. Qed.

Lemma until_quote_body (body rest : string) :
  Py.has_char PyStr.quote body = false ->
  Py.has_char PyStr.newline body = false ->
  until_quote (body ++ String PyStr.quote rest) = Some body.
Proof.
  induction body as [|c body IH]; intros Hq Hn.
  - reflexivity.
  - simpl in Hq, Hn. apply orb_false_iff in Hq as [Hq1 Hq2].
    apply orb_false_iff in Hn as [Hn1 Hn2].
    simpl. rewrite Hq1, Hn1, (IH Hq2 Hn2). reflexivity.
Qed.

(** ** The room page *)

(** X12: The dossier is the text between the first occurrence of the marker
    in the page and the next quote, when no quote and no newline come
    in between; a page without the marker has no dossier. *)
Theorem dossier_search_spec :
  (forall pre body rest,
     Py.find_from dossier_marker
       (pre ++ dossier_marker ++ body ++ String PyStr.quote rest) 0
     = Some (Py.len pre) ->
     Py.has_char PyStr.quote body = false ->
     Py.has_char PyStr.newline body = false ->
     dossier_search
       (pre ++ dossier_marker ++ body ++ String PyStr.quote rest)
     = Some body)
  /\ (forall html,
        Py.contains dossier_marker html = false ->
        dossier_search html = None).
Proof.
  split.
  - intros pre body rest Hfind Hq Hn.
    induction pre as [|c pre IH].
    + cbn [append].
      destruct (dossier_marker ++ body ++ String PyStr.quote rest)%string
        as [|a t] eqn:E; [discriminate|].
      cbn [dossier_search]. rewrite <- E.
      rewrite startswith_app, drop_app, (until_quote_body body rest Hq Hn).
      reflexivity.
    + cbn [append] in Hfind |- *. cbn [Py.find_from] in Hfind.
      destruct (Py.startswith dossier_marker
                  (String c (pre ++ dossier_marker ++ body
                               ++ String PyStr.quote rest)%string)) eqn:Es.
      { injection Hfind as Hfind. unfold Py.len in Hfind.
        cbn [String.length] in Hfind. lia. }
      cbn [dossier_search]. rewrite Es. apply IH.
      rewrite find_from_shift in Hfind.
      destruct (Py.find_from dossier_marker
                  (pre ++ dossier_marker ++ body ++ String PyStr.quote rest)
                    %string 0)
        as [j|]; [|discriminate].
      unfold option_map in Hfind.
      assert (Hj : 0 + 1 + j = Py.len (String c pre)) by congruence.
      f_equal. unfold Py.len in *. cbn [String.length] in Hj. lia.
  - induction html as [|c html IH]; intros H.
    + reflexivity.
    + destruct (contains_tail _ _ _ H) as [Hs Hc].
      cbn [dossier_search]. rewrite Hs. apply IH, Hc.
Qed.

Lemma dossier_search_spec_witness :
  dossier_search Site.alice_page = Some "alice-dossier"
  /\ dossier_search "<html>no dossier here</html>" = None.
Proof.
  destruct dossier_search_spec as [Hfound Hnone].
  split.
  - apply (Hfound "<script>" "alice-dossier" ";</script> playlist.m3u8");
      reflexivity.
  - apply Hnone. reflexivity.
Defined.

Section ClientFacts.
Context {W : World} {S : Services W}.

Lemma parse_stream_some (html : string) (st : Stream) :
parse_stream html = Ret (Some st) ->
exists group1 json_str d,
  dossier_search html = Some group1
  /\ unicode_escape group1 = Ret json_str
  /\ json_loads json_str = Ret (JDict d)
  /\ dict_get String.eqb "hls_source" d = Some (stream_hls_source st)
  /\ json_truthy (stream_hls_source st) = true.
Proof.
unfold parse_stream, parse_stream_try. intros H.
destruct (dossier_search html) as [g|]; [|discriminate].
destruct (unicode_escape g) as [js|e] eqn:Eu; [|discriminate]. simpl in H.
destruct (json_loads js) as [data|e] eqn:Ej; [|discriminate]. simpl in H.
unfold json_get, json_get_default in H.
destruct data as [| | | | |d]; try discriminate. simpl in H.
destruct (dict_get String.eqb "hls_source" d) as [v|] eqn:Ed;
  [|discriminate].
destruct (json_truthy v) eqn:Et; [|discriminate].
injection H as <-. exists g, js, d. simpl. auto.
Qed.

(** X13: [get_stream] never raises. It gives a stream only when the room page
  was fetched with a success status, holds the name [playlist.m3u8]
  and a dossier that decodes to a JSON object with a true
  [hls_source]; the stream holds that value. It makes one request. *)
Theorem get_stream_spec (base_url username : string) (e : Env) :
(exists r, fst (get_stream base_url username e) = Ret r)
/\ snd (get_stream base_url username e)
   = snd (session_get (base_url ++ "/" ++ username ++ "/")%string e)
/\ (forall st,
      fst (get_stream base_url username e) = Ret (Some st) ->
      exists resp e' group1 json_str d,
        session_get (base_url ++ "/" ++ username ++ "/")%string e
        = (Ret resp, e')
        /\ check_status resp = Ret tt
        /\ Py.contains "playlist.m3u8" (text resp) = true
        /\ dossier_search (text resp) = Some group1
        /\ unicode_escape group1 = Ret json_str
        /\ json_loads json_str = Ret (JDict d)
        /\ dict_get String.eqb "hls_source" d = Some (stream_hls_source st)
        /\ json_truthy (stream_hls_source st) = true)
/\ (forall resp e',
      session_get (base_url ++ "/" ++ username ++ "/")%string e
      = (Ret resp, e') ->
      Py.contains "playlist.m3u8" (text resp) = false ->
      fst (get_stream base_url username e) = Ret None).
Proof.
unfold get_stream, get_stream_try.
destruct (session_get (base_url ++ "/" ++ username ++ "/")%string e)
  as [[resp|x] e1] eqn:Eg; cbn [fst snd].
2:{ split; [apply or_none_returns|]. split; [reflexivity|].
    split; [discriminate|]. intros; discriminate. }
destruct (check_status resp) as [[]|x] eqn:Ec; cbn [fst snd].
2:{ split; [apply or_none_returns|]. split; [reflexivity|].
    split; [discriminate|]. intros. reflexivity. }
destruct (Py.contains "playlist.m3u8" (text resp)) eqn:Ep; cbn [negb fst snd].
- split; [apply or_none_returns|]. split; [reflexivity|]. split.
  + intros st H.
    assert (Hp : parse_stream (text resp) = Ret (Some st)).
    { destruct (parse_stream (text resp)) as [r|x]; simpl in H;
        [exact H|discriminate]. }
    destruct (parse_stream_some _ _ Hp) as (g & js & d & H1 & H2 & H3 & H4 & H5).
    exists resp, e1, g, js, d. repeat split; auto.
  + intros resp' e' [= <- <-] Hc. congruence.
- split; [apply or_none_returns|]. split; [reflexivity|].
  split; [discriminate|]. intros. reflexivity.
Qed.

(** X14: [get_playlist] never raises and makes one request. A request
  that raises and an error status give [None]; and as
  [parse_playlist] gives [None] for every manifest, so does
  [get_playlist] when the manifest was fetched. *)
Theorem get_playlist_spec (hls : string) (resolution framerate : Z)
(e : Env) :
(exists r, fst (get_playlist hls resolution framerate e) = Ret r)
/\ snd (get_playlist hls resolution framerate e) = snd (session_get hls e)
/\ (forall x e', session_get hls e = (Raise x, e') ->
      fst (get_playlist hls resolution framerate e) = Ret None)
/\ (forall resp e' x,
      session_get hls e = (Ret resp, e') -> check_status resp = Raise x ->
      fst (get_playlist hls resolution framerate e) = Ret None)
/\ fst (get_playlist hls resolution framerate e) = Ret None.
Proof.
unfold get_playlist, get_playlist_try.
destruct (session_get hls e) as [[resp|x] e1] eqn:Eg; cbn [fst snd].
2:{ split; [apply or_none_returns|]. split; [reflexivity|].
    split; [intros; reflexivity|]. split; [discriminate|reflexivity]. }
destruct (check_status resp) as [[]|x] eqn:Ec; cbn [fst snd].
2:{ split; [apply or_none_returns|]. split; [reflexivity|].
    split; [discriminate|]. split; intros; reflexivity. }
assert (Hn : or_none (parse_playlist hls (text resp) resolution framerate)
             = Ret None)
  by (rewrite parse_playlist_none; reflexivity).
split; [apply or_none_returns|]. split; [reflexivity|].
split; [discriminate|]. split; [|exact Hn].
intros resp' e' x [= <- <-] Hx. congruence.
Qed.
End ClientFacts.

Lemma get_stream_spec_witness :
  fst (get_stream (W := Site.world) (S := Site.services)
         "https://chaturbate.com" "alice" 0%nat)
  = Ret (Some {| stream_hls_source := JStr Site.alice_m3u8 |})
  /\ fst (get_stream (W := Site.world) (S := Site.services)
            "https://chaturbate.com" "bob" 0%nat)
     = Ret None.
Proof.
  split.
  - reflexivity.
  - destruct (get_stream_spec (W := Site.world) (S := Site.services)
                "https://chaturbate.com" "bob" 0%nat) as (_ & _ & _ & Hoff).
    apply (Hoff (Sample.ok Site.bob_page []) 1%nat); reflexivity.
Defined.

(** On the site: the master manifest is fetched and the result is
    [None]; the manifest of erin comes with status 404 and the result
    is [None]; both after one request. *)
Lemma get_playlist_spec_witness :
  get_playlist (W := Site.world) Sample.hls_source 1080 30 0%nat
  = (Ret None, 1%nat)
  /\ get_playlist (W := Site.world) Site.erin_m3u8 1080 30 0%nat
     = (Ret None, 1%nat).
Proof.
  split; apply injective_projections.
  - apply (get_playlist_spec (W := Site.world) Sample.hls_source 1080 30
             0%nat).
  - apply (get_playlist_spec (W := Site.world) Sample.hls_source 1080 30
             0%nat).
  - destruct (get_playlist_spec (W := Site.world) Site.erin_m3u8 1080 30
                0%nat) as (_ & _ & _ & H & _).
    apply (H Site.not_found 1%nat HTTPError); reflexivity.
  - apply (get_playlist_spec (W := Site.world) Site.erin_m3u8 1080 30
             0%nat).
Defined.

(** ** User names *)

Lemma lstrip_char_slashes (k : nat) (s : string) :
  PyStr.lstrip_char "/" (slashes k ++ s) = PyStr.lstrip_char "/" s.
Proof. induction k as [|k IH]; [reflexivity|]. simpl. exact IH. Qed.

Lemma rstrip_char_app_free (c : ascii) (a b : string) :
  Py.has_char c a = false ->
  PyStr.rstrip_char c (a ++ b) = (a ++ PyStr.rstrip_char c b)%string.
Proof.
  induction a as [|x a IH]; intros H; [reflexivity|].
  simpl in H. apply orb_false_iff in H as [Hx Ha].
  cbn [append PyStr.rstrip_char]. rewrite (IH Ha).
  destruct (a ++ PyStr.rstrip_char c b)%string; [rewrite Hx|]; reflexivity.
Qed.

Lemma rstrip_char_head (c : ascii) (s : string) :
  PyStr.rstrip_char c (String c s) = EmptyString
  \/ exists r, PyStr.rstrip_char c (String c s) = String c r.
Proof.
  cbn [PyStr.rstrip_char].
  destruct (PyStr.rstrip_char c s);
    [rewrite Ascii.eqb_refl; left; reflexivity|right; eauto].
Qed.

Lemma slashes_strip (k : nat) : PyStr.strip_char "/" (slashes k) = EmptyString.
Proof.
  unfold PyStr.strip_char.
  rewrite <- (append_empty_r (slashes k)), lstrip_char_slashes. reflexivity.
Qed.

Lemma split_hd_free (sep : ascii) (s : string) :
  Py.has_char sep (hd EmptyString (Py.split sep s)) = false.
Proof.
  induction s as [|a s IH]; [reflexivity|]. cbn [Py.split].
  destruct (Ascii.eqb a sep) eqn:E; [reflexivity|].
  destruct (Py.split sep s) as [|h t]; cbn [hd Py.has_char] in *;
    rewrite E; [reflexivity|exact IH].
Qed.

Lemma index_split_hd (sep : ascii) (s : string) :
  Py.index (Py.split sep s) 0 = Ret (hd EmptyString (Py.split sep s)).
Proof.
  pose proof (split_not_nil sep s) as H.
  destruct (Py.split sep s); [contradiction|reflexivity].
Qed.

(** The first piece of a path stripped of its slashes is its first
    segment. *)
Lemma first_segment_name (p name : string) :
  first_segment p name ->
  hd EmptyString (Py.split "/" (PyStr.strip_char "/" p)) = name.
Proof.
  intros (k & tail & -> & Hne & Hfree & Htail).
  unfold PyStr.strip_char. rewrite lstrip_char_slashes.
  assert (Hl : PyStr.lstrip_char "/" (name ++ tail) = (name ++ tail)%string).
  { destruct name as [|a n]; [contradiction|].
    simpl in Hfree. apply orb_false_iff in Hfree as [Ha _].
    cbn [append PyStr.lstrip_char]. rewrite Ha. reflexivity. }
  rewrite Hl, (rstrip_char_app_free _ _ _ Hfree),
    (split_app_free _ _ _ Hfree).
  cbn [hd].
  destruct Htail as [->|[t ->]].
  - apply append_empty_r.
  - destruct (rstrip_char_head "/" t) as [->|[r ->]].
    + apply append_empty_r.
    + rewrite split_sep_head. apply append_empty_r.
Qed.

Section UserNames.
Context {W : World} {S : Services W}.

Lemma path_user_name (p : string) :
(exists name,
   Py.index (Py.split "/" (PyStr.strip_char "/" p)) 0 = Ret name
   /\ Py.has_char "/" name = false)
/\ (forall name,
      first_segment p name ->
      Py.index (Py.split "/" (PyStr.strip_char "/" p)) 0 = Ret name)
/\ (forall k,
      p = slashes k ->
      Py.index (Py.split "/" (PyStr.strip_char "/" p)) 0
      = Ret EmptyString).
Proof.
rewrite index_split_hd. split; [|split].
- eexists. split; [reflexivity|]. apply split_hd_free.
- intros name H. rewrite (first_segment_name p name H). reflexivity.
- intros k ->. rewrite slashes_strip. reflexivity.
Qed.

(** X15: What [ChaturbateLiveStream._extract_username] gives when the URL
  parses. An address that is not of the site is taken for a user name
  and only loses the slashes at its ends. For an address of the site
  the result is the first segment of the path: it holds no slash, and
  it is empty when the path holds nothing but slashes. *)
Theorem chaturbate_username (url : string) (p : ParseResult) :
urlparse url = Ret p ->
(Py.contains "chaturbate.com" (netloc p) = false ->
   ChaturbateLiveStream._extract_username url
   = Ret (PyStr.strip_char "/" url))
/\ (Py.contains "chaturbate.com" (netloc p) = true ->
      (exists name,
         ChaturbateLiveStream._extract_username url = Ret name
         /\ Py.has_char "/" name = false)
      /\ (forall name,
            first_segment (path p) name ->
            ChaturbateLiveStream._extract_username url = Ret name)
      /\ (forall k,
            path p = slashes k ->
            ChaturbateLiveStream._extract_username url
            = Ret EmptyString)).
Proof.
intros Hp. unfold ChaturbateLiveStream._extract_username.
rewrite Hp. cbn [ebind]. split; intros ->; cbn [negb].
- reflexivity.
- apply path_user_name.
Qed.

(** X16: [StripchatLiveStream._extract_username] gives the first segment of
  the path whatever the host: it holds no slash, and it is empty when
  the path holds nothing but slashes. *)
Theorem stripchat_username (url : string) (p : ParseResult) :
urlparse url = Ret p ->
(exists name,
   StripchatLiveStream._extract_username url = Ret name
   /\ Py.has_char "/" name = false)
/\ (forall name,
      first_segment (path p) name ->
      StripchatLiveStream._extract_username url = Ret name)
/\ (forall k,
      path p = slashes k ->
      StripchatLiveStream._extract_username url = Ret EmptyString).
Proof.
intros Hp. unfold StripchatLiveStream._extract_username.
rewrite Hp. cbn [ebind]. apply path_user_name.
Qed.
End UserNames.

Lemma alice_first_segment : first_segment "/alice/" "alice".
Proof.
  exists 1%nat, "/". repeat split; [discriminate|right; eauto].
Qed.

Lemma chaturbate_username_witness :
  ChaturbateLiveStream._extract_username (S := Site.services)
    "https://chaturbate.com/alice/" = Ret "alice"
  /\ ChaturbateLiveStream._extract_username (S := Site.services)
       "https://chaturbate.com//" = Ret ""
  /\ ChaturbateLiveStream._extract_username (S := Site.services)
       "/alice/videos/" = Ret "alice/videos".
Proof.
  destruct (chaturbate_username (S := Site.services)
              "https://chaturbate.com/alice/"
              {| netloc := "chaturbate.com"; path := "/alice/" |} eq_refl)
    as [_ Hsite].
  destruct (Hsite eq_refl) as (_ & Hname & _).
  destruct (chaturbate_username (S := Site.services)
              "https://chaturbate.com//"
              {| netloc := "chaturbate.com"; path := "//" |} eq_refl)
    as [_ Hsite'].
  destruct (Hsite' eq_refl) as (_ & _ & Hempty).
  destruct (chaturbate_username (S := Site.services) "/alice/videos/"
              {| netloc := ""; path := "/alice/videos/" |} eq_refl)
    as [Hother _].
  split; [|split].
  - apply Hname, alice_first_segment.
  - apply (Hempty 2%nat). reflexivity.
  - apply Hother. reflexivity.
Defined.

Lemma stripchat_username_witness :
  StripchatLiveStream._extract_username (S := Site.services)
    "https://chaturbate.com/alice/" = Ret "alice".
Proof.
  destruct (stripchat_username (S := Site.services)
              "https://chaturbate.com/alice/"
              {| netloc := "chaturbate.com"; path := "/alice/" |} eq_refl)
    as (_ & Hname & _).
  apply Hname, alice_first_segment.
Defined.

(** ** The rewriting of play URLs *)

Lemma contains_drop (p s : string) (k : nat) :
  Py.contains p (PyStr.drop k s) = true -> Py.contains p s = true.
Proof.
  revert s. induction k as [|k IH]; intros s H.
  - destruct s; exact H.
  - destruct s as [|c s]; [exact H|]. cbn [PyStr.drop] in H.
    destruct (Py.contains p (String c s)) eqn:E; [reflexivity|].
    destruct (contains_tail _ _ _ E) as [_ Hc].
    rewrite (IH s H) in Hc. discriminate.
Qed.

Lemma startswith_contains (p s : string) :
  Py.startswith p s = true -> Py.contains p s = true.
Proof.
  intros H. unfold Py.contains.
  destruct s; cbn [Py.find_from]; rewrite H; reflexivity.
Qed.

Lemma match_mmcdn_contains (s : string) (n : nat) :
  ChaturbateLiveStream.match_mmcdn s = Some n ->
  Py.contains ChaturbateLiveStream.mmcdn_tail s = true.
Proof.
  unfold ChaturbateLiveStream.match_mmcdn.
  destruct (Py.startswith "https://" s); [|discriminate].
  destruct (15 <? PyStr.span_not "/" (PyStr.drop 8 s))%nat; [|discriminate].
  cbn [andb].
  destruct (Py.startswith ChaturbateLiveStream.mmcdn_tail _) eqn:E;
    [|discriminate].
  intros _. apply startswith_contains in E.
  apply contains_drop in E. apply contains_drop in E. exact E.
Qed.

Lemma sub_mmcdn_unchanged (repl s : string) :
  Py.contains ChaturbateLiveStream.mmcdn_tail s = false ->
  ChaturbateLiveStream.sub_mmcdn repl s O = s.
Proof.
  induction s as [|c s IH]; intros H; [reflexivity|].
  destruct (contains_tail _ _ _ H) as [_ Hc].
  cbn [ChaturbateLiveStream.sub_mmcdn].
  destruct (ChaturbateLiveStream.match_mmcdn (String c s)) as [n|] eqn:E.
  - apply match_mmcdn_contains in E. congruence.
  - rewrite (IH Hc). reflexivity.
Qed.

Lemma has_char_app (c : ascii) (a b : string) :
  Py.has_char c (a ++ b) = Py.has_char c a || Py.has_char c b.
Proof.
  induction a as [|x a IH]; [reflexivity|]. simpl. rewrite IH.
  apply orb_assoc.
Qed.

Lemma span_not_app (c : ascii) (a r : string) :
  Py.has_char c a = false ->
  PyStr.span_not c (a ++ String c r) = String.length a.
Proof.
  induction a as [|x a IH]; intros H.
  - simpl. rewrite Ascii.eqb_refl. reflexivity.
  - simpl in H. apply orb_false_iff in H as [Hx Ha].
    simpl. rewrite Hx, (IH Ha). reflexivity.
Qed.

Lemma string_length_app (a b : string) :
  String.length (a ++ b) = (String.length a + String.length b)%nat.
Proof. induction a as [|x a IH]; simpl; [reflexivity|]. rewrite IH. reflexivity. Qed.

Lemma match_mmcdn_host (host rest : string) :
  host <> EmptyString ->
  Py.has_char "/" host = false ->
  ChaturbateLiveStream.match_mmcdn
    ("https://" ++ host ++ ChaturbateLiveStream.mmcdn_tail ++ rest)
  = Some (S (String.length
               ("ttps://" ++ host ++ ChaturbateLiveStream.mmcdn_tail))).
Proof.
  intros Hne Hfree. unfold ChaturbateLiveStream.match_mmcdn. cbv zeta.
  rewrite startswith_app.
  change (PyStr.drop 8
            ("https://" ++ host ++ ChaturbateLiveStream.mmcdn_tail ++ rest))
    with (host ++ ChaturbateLiveStream.mmcdn_tail ++ rest)%string.
  assert (Hn : PyStr.span_not "/"
                 (host ++ ChaturbateLiveStream.mmcdn_tail ++ rest)
               = (String.length host + 15)%nat).
  { change (host ++ ChaturbateLiveStream.mmcdn_tail ++ rest)%string
      with (host ++ ".live.mmcdn.com" ++ String "/" ("live-hls/" ++ rest))
             %string.
    rewrite <- append_assoc, span_not_app, string_length_app; [reflexivity|].
    rewrite has_char_app, Hfree. reflexivity. }
  rewrite Hn.
  assert (Hlen : (0 < String.length host)%nat)
    by (destruct host; [contradiction|simpl; lia]).
  replace (15 <? String.length host + 15)%nat with true
    by (symmetry; apply Nat.ltb_lt; lia).
  replace (String.length host + 15 - 15)%nat with (String.length host)
    by lia.
  rewrite drop_app, startswith_app. cbn [andb]. f_equal.
  rewrite !string_length_app. simpl String.length. lia.
Qed.

Lemma sub_mmcdn_skip (repl x rest : string) :
  ChaturbateLiveStream.sub_mmcdn repl (x ++ rest) (String.length x)
  = ChaturbateLiveStream.sub_mmcdn repl rest O.
Proof. induction x as [|c x IH]; [reflexivity|exact IH]. Qed.

Lemma to_direct_host (host rest : string) :
  host <> EmptyString ->
  Py.has_char "/" host = false ->
  ChaturbateLiveStream.to_direct
    ("https://" ++ host ++ ChaturbateLiveStream.mmcdn_tail ++ rest)
  = (ChaturbateLiveStream.direct_url
     ++ ChaturbateLiveStream.to_direct rest)%string.
Proof.
  intros Hne Hfree. unfold ChaturbateLiveStream.to_direct.
  pose proof (match_mmcdn_host host rest Hne Hfree) as Hm.
  change ("https://" ++ host ++ ChaturbateLiveStream.mmcdn_tail ++ rest)
           %string
    with (String "h"
            ("ttps://" ++ host ++ ChaturbateLiveStream.mmcdn_tail ++ rest))
    in Hm |- *.
  cbn [ChaturbateLiveStream.sub_mmcdn]. rewrite Hm. f_equal.
  replace ("ttps://" ++ host ++ ChaturbateLiveStream.mmcdn_tail ++ rest)
            %string
    with (("ttps://" ++ host ++ ChaturbateLiveStream.mmcdn_tail) ++ rest)
           %string.
  - apply sub_mmcdn_skip.
  - rewrite !append_assoc. reflexivity.
Qed.

(** X17: The rewriting of a play URL. A URL that does not hold
    [.live.mmcdn.com/live-hls/] is left as it is. A URL that starts with
    [https://], a host name before [.live.mmcdn.com] and [/live-hls/] has
    these replaced by the address of the fixed edge server, and what
    follows is rewritten in turn. So for a URL of this form with nothing
    to rewrite in what follows, the result is the address of the edge
    server and what follows, and rewriting it once more changes
    nothing. *)
Theorem to_direct_spec :
  (forall u,
     Py.contains ChaturbateLiveStream.mmcdn_tail u = false ->
     ChaturbateLiveStream.to_direct u = u)
  /\ (forall host rest,
        host <> EmptyString ->
        Py.has_char "/" host = false ->
        ChaturbateLiveStream.to_direct
          ("https://" ++ host ++ ChaturbateLiveStream.mmcdn_tail ++ rest)
        = (ChaturbateLiveStream.direct_url
           ++ ChaturbateLiveStream.to_direct rest)%string)
  /\ (forall host rest,
        host <> EmptyString ->
        Py.has_char "/" host = false ->
        Py.contains ChaturbateLiveStream.mmcdn_tail rest = false ->
        ChaturbateLiveStream.to_direct
          ("https://" ++ host ++ ChaturbateLiveStream.mmcdn_tail ++ rest)
        = (ChaturbateLiveStream.direct_url ++ rest)%string
        /\ ChaturbateLiveStream.to_direct
             (ChaturbateLiveStream.direct_url ++ rest)
           = (ChaturbateLiveStream.direct_url ++ rest)%string).
Proof.
  split; [|split].
  - intros u H. apply sub_mmcdn_unchanged, H.
  - exact to_direct_host.
  - intros host rest Hne Hfree Hrest.
    assert (Hr : ChaturbateLiveStream.to_direct rest = rest)
      by apply sub_mmcdn_unchanged, Hrest.
    split.
    + rewrite (to_direct_host host rest Hne Hfree), Hr. reflexivity.
    + change (ChaturbateLiveStream.direct_url ++ rest)%string
        with ("https://" ++ "edge8-sea" ++ ChaturbateLiveStream.mmcdn_tail
              ++ rest)%string at 1.
      rewrite (to_direct_host "edge8-sea" rest); [|discriminate|reflexivity].
      rewrite Hr. reflexivity.
Qed.

Lemma to_direct_spec_witness :
  ChaturbateLiveStream.to_direct "https://example.com/live-hls/a.m3u8"
  = "https://example.com/live-hls/a.m3u8"
  /\ ChaturbateLiveStream.to_direct
       ("https://" ++ "edge3-fra" ++ ChaturbateLiveStream.mmcdn_tail
        ++ "alice/chunklist_high.m3u8")
     = (ChaturbateLiveStream.direct_url ++ "alice/chunklist_high.m3u8")
         %string.
Proof.
  destruct to_direct_spec as (Hother & _ & Hcdn).
  split.
  - apply Hother. reflexivity.
  - destruct (Hcdn "edge3-fra" "alice/chunklist_high.m3u8") as [Hd _];
      [discriminate|reflexivity|reflexivity|exact Hd].
Defined.

(** ** The state of a room ([fetch_web_stream_data]) *)

Section FetchFacts.
Context {W : World} {S : Services W}.

Lemma extract_username_raises (url : string) (x : exn) :
ChaturbateLiveStream._extract_username url = Raise x ->
urlparse url = Raise x.
Proof.
unfold ChaturbateLiveStream._extract_username.
destruct (urlparse url) as [p|y]; cbn [ebind].
- destruct (negb _); [discriminate|].
  rewrite index_split_hd. discriminate.
- intros [= ->]. reflexivity.
Qed.

Lemma json_get_hls_source (data : Json) (v : Json) :
json_get data "hls_source" = Ret v ->
exists d, data = JDict d /\ v = hls_source_of d.
Proof.
unfold json_get, json_get_default, hls_source_of.
destruct data as [| | | | |d]; try discriminate.
intros [= <-]. eauto.
Qed.

(** The steps up to the value of [hls_source], when they succeed. *)
Lemma fetch_after_api (url username response : string)
(d : list (string * Json)) (e e1 : Env) :
ChaturbateLiveStream._extract_username url = Ret username ->
username <> EmptyString ->
async_req (chaturbate_api username) e = (Ret response, e1) ->
json_loads response = Ret (JDict d) ->
ChaturbateLiveStream.fetch_web_stream_data url e
= if negb (json_truthy (hls_source_of d))
  then (Ret (Some (NotLive "Chaturbate" username)), e1)
  else match hls_source_of d with
       | JStr m3u8_url =>
           match MyLiveStream.get_cb_play_url_list m3u8_url e1 with
           | (Raise _, e2) => (Ret None, e2)
           | (Ret play_url_list, e2) =>
               (Ret (Some (Live "Chaturbate" username m3u8_url
                             (map ChaturbateLiveStream.to_direct
                                play_url_list)
                             (username ++ "'s Chaturbate Stream")%string)),
                e2)
           end
       | _ => (Ret None, e1)
       end.
Proof.
intros Hu Hne Ha Hj. unfold ChaturbateLiveStream.fetch_web_stream_data.
rewrite Hu. apply String.eqb_neq in Hne. rewrite Hne. cbv zeta.
unfold chaturbate_api in Ha. rewrite Ha, Hj. reflexivity.
Qed.

(** X18: What a result of [fetch_web_stream_data] tells. The user name was
  not empty, the API answered and its answer was a JSON object. A room
  is reported as not live exactly when [hls_source] is missing or
  false in that answer, and then no manifest is requested. A live room
  carries the
  [hls_source] of the answer, and its play URLs are those of
  [get_cb_play_url_list], each rewritten, in the same order. [None]
  means that the playlist step failed: [hls_source] was true but not a
  string, or [get_cb_play_url_list] raised. *)
Theorem fetch_outcomes (url : string) (e e' : Env)
(r : option WebStreamData) :
ChaturbateLiveStream.fetch_web_stream_data url e = (Ret r, e') ->
exists username response e1 d,
  ChaturbateLiveStream._extract_username url = Ret username
  /\ username <> EmptyString
  /\ async_req (chaturbate_api username) e = (Ret response, e1)
  /\ json_loads response = Ret (JDict d)
  /\ match r with
     | Some (NotLive platform anchor_name) =>
         platform = "Chaturbate" /\ anchor_name = username
         /\ json_truthy (hls_source_of d) = false
         /\ e' = e1
     | Some (Live platform anchor_name m3u8_url play_url_list title) =>
         platform = "Chaturbate" /\ anchor_name = username
         /\ hls_source_of d = JStr m3u8_url
         /\ m3u8_url <> EmptyString
         /\ title = (username ++ "'s Chaturbate Stream")%string
         /\ exists urls,
              MyLiveStream.get_cb_play_url_list m3u8_url e1
              = (Ret urls, e')
              /\ play_url_list
                 = map ChaturbateLiveStream.to_direct urls
     | None =>
         json_truthy (hls_source_of d) = true
         /\ (((forall m, hls_source_of d <> JStr m) /\ e' = e1)
             \/ exists m x,
                  hls_source_of d = JStr m
                  /\ MyLiveStream.get_cb_play_url_list m e1
                     = (Raise x, e'))
     end
  /\ (json_truthy (hls_source_of d) = false ->
      r = Some (NotLive "Chaturbate" username)).
Proof.
intros H.
destruct (ChaturbateLiveStream._extract_username url) as [username|x]
  eqn:Hu.
2:{ unfold ChaturbateLiveStream.fetch_web_stream_data in H.
    rewrite Hu in H. discriminate. }
destruct (String.eqb username "") eqn:Hne.
{ unfold ChaturbateLiveStream.fetch_web_stream_data in H.
  rewrite Hu, Hne in H. discriminate. }
apply String.eqb_neq in Hne.
destruct (async_req (chaturbate_api username) e) as [[response|x] e1]
  eqn:Ha.
2:{ unfold ChaturbateLiveStream.fetch_web_stream_data in H.
    apply String.eqb_neq in Hne. unfold chaturbate_api in Ha.
    rewrite Hu, Hne in H. cbv zeta in H. rewrite Ha in H.
    discriminate. }
destruct (json_loads response) as [data|x] eqn:Hj.
2:{ unfold ChaturbateLiveStream.fetch_web_stream_data in H.
    apply String.eqb_neq in Hne. unfold chaturbate_api in Ha.
    rewrite Hu, Hne in H. cbv zeta in H. rewrite Ha, Hj in H.
    discriminate. }
destruct data as [| | | | |d].
1-5: unfold ChaturbateLiveStream.fetch_web_stream_data in H;
  apply String.eqb_neq in Hne; unfold chaturbate_api in Ha;
  rewrite Hu, Hne in H; cbv zeta in H; rewrite Ha, Hj in H;
  discriminate.
rewrite (fetch_after_api url username response d e e1 Hu Hne Ha Hj) in H.
exists username, response, e1, d.
split; [reflexivity|]. split; [exact Hne|].
split; [exact Ha|]. split; [exact Hj|].
destruct (json_truthy (hls_source_of d)) eqn:Ht; cbn [negb] in H.
- split; [|intros Hf; discriminate Hf].
  destruct (hls_source_of d) as [| | |m3u8_url| |] eqn:Hh;
    try (injection H as <- <-; split; [reflexivity|]; left;
         split; [discriminate|reflexivity]).
  destruct (MyLiveStream.get_cb_play_url_list m3u8_url e1)
    as [[urls|x] e2] eqn:Hg; injection H as <- <-.
  + repeat split; try reflexivity.
    * intros ->. discriminate.
    * exists urls. auto.
  + split; [reflexivity|]. right. exists m3u8_url, x. auto.
- injection H as <- <-. auto.
Qed.

(** X19: What [fetch_web_stream_data] raises. Before any request, the error
  of [urlparse], or [ValueError] for an empty user name; then the
  error of the API request, of [json.loads], or the missing [get] of
  an answer that is not a JSON object. An error of the playlist step
  is never raised. *)
Theorem fetch_raises (url : string) (e e' : Env) (x : exn) :
ChaturbateLiveStream.fetch_web_stream_data url e = (Raise x, e') ->
(e' = e
 /\ (urlparse url = Raise x
     \/ (x = ValueError
         /\ ChaturbateLiveStream._extract_username url
            = Ret EmptyString)))
\/ exists username,
     ChaturbateLiveStream._extract_username url = Ret username
     /\ username <> EmptyString
     /\ (async_req (chaturbate_api username) e = (Raise x, e')
         \/ exists response,
              async_req (chaturbate_api username) e = (Ret response, e')
              /\ (json_loads response = Raise x
                  \/ exists data,
                       json_loads response = Ret data
                       /\ (forall d, data <> JDict d)
                       /\ x = LibraryError "AttributeError")).
Proof.
intros H.
destruct (ChaturbateLiveStream._extract_username url) as [username|y]
  eqn:Hu.
2:{ unfold ChaturbateLiveStream.fetch_web_stream_data in H.
    rewrite Hu in H. injection H as <- <-. left. split; [reflexivity|].
    left. apply extract_username_raises, Hu. }
destruct (String.eqb username "") eqn:Hne.
{ unfold ChaturbateLiveStream.fetch_web_stream_data in H.
  rewrite Hu, Hne in H. injection H as <- <-.
  apply String.eqb_eq in Hne. subst username. left. auto. }
right. exists username. split; [reflexivity|].
split; [apply String.eqb_neq, Hne|].
destruct (async_req (chaturbate_api username) e) as [[response|y] e1]
  eqn:Ha.
2:{ unfold ChaturbateLiveStream.fetch_web_stream_data in H.
    unfold chaturbate_api in Ha.
    rewrite Hu, Hne in H. cbv zeta in H. rewrite Ha in H.
    injection H as <- <-. left. reflexivity. }
right.
destruct (json_loads response) as [data|y] eqn:Hj.
2:{ unfold ChaturbateLiveStream.fetch_web_stream_data in H.
    unfold chaturbate_api in Ha.
    rewrite Hu, Hne in H. cbv zeta in H. rewrite Ha, Hj in H.
    injection H as <- <-. exists response. auto. }
destruct data as [| | | | |d].
1-5: unfold ChaturbateLiveStream.fetch_web_stream_data in H;
  unfold chaturbate_api in Ha;
  rewrite Hu, Hne in H; cbv zeta in H; rewrite Ha, Hj in H;
  injection H as <- <-; exists response; split; [reflexivity|];
  right; eexists; split; [exact Hj|]; split;
  [discriminate|reflexivity].
exfalso. apply String.eqb_neq in Hne.
rewrite (fetch_after_api url username response d e e1 Hu Hne Ha Hj) in H.
destruct (json_truthy (hls_source_of d)); cbn [negb] in H;
  [|discriminate].
destruct (hls_source_of d) as [| | |m3u8_url| |]; try discriminate.
destruct (MyLiveStream.get_cb_play_url_list m3u8_url e1) as [[urls|y] e2];
  discriminate.
Qed.

(** X20: An address with no user name (a path of the site, or a text, made of
  slashes only) is refused with [ValueError] before any request. *)
Theorem fetch_invalid_url (url : string) (p : ParseResult) (k : nat)
(e : Env) :
urlparse url = Ret p ->
(if Py.contains "chaturbate.com" (netloc p)
 then path p = slashes k else url = slashes k) ->
ChaturbateLiveStream.fetch_web_stream_data url e = (Raise ValueError, e).
Proof.
intros Hp Hk.
assert (Hu : ChaturbateLiveStream._extract_username url
             = Ret EmptyString).
{ unfold ChaturbateLiveStream._extract_username. rewrite Hp.
  cbn [ebind].
  destruct (Py.contains "chaturbate.com" (netloc p)); cbn [negb].
  - rewrite Hk, slashes_strip. reflexivity.
  - rewrite Hk, slashes_strip. reflexivity. }
unfold ChaturbateLiveStream.fetch_web_stream_data. rewrite Hu.
reflexivity.
Qed.

(** X21: A live room whose manifest gives distinct URLs but fewer bandwidths
  than URLs: the failure of the sort is swallowed and the result is
  [None], after the API request and the request for the manifest. *)
Theorem fetch_playlist_failure (url username response m3u8 : string)
(d : list (string * Json)) (resp : Response) (e e1 e2 : Env) :
ChaturbateLiveStream._extract_username url = Ret username ->
username <> EmptyString ->
async_req (chaturbate_api username) e = (Ret response, e1) ->
json_loads response = Ret (JDict d) ->
hls_source_of d = JStr m3u8 ->
m3u8 <> EmptyString ->
session_get m3u8 e1 = (Ret resp, e2) ->
NoDup (MyLiveStream.collected_urls m3u8 (text resp)) ->
(List.length (MyLiveStream.findall_bandwidth (text resp) O)
 < List.length (MyLiveStream.collected_urls m3u8 (text resp)))%nat ->
ChaturbateLiveStream.fetch_web_stream_data url e = (Ret None, e2).
Proof.
intros Hu Hne Ha Hj Hh Hm Hg Hnd Hlen.
rewrite (fetch_after_api url username response d e e1 Hu Hne Ha Hj), Hh.
apply String.eqb_neq in Hm. cbn [json_truthy]. rewrite Hm. cbn [negb].
unfold MyLiveStream.get_cb_play_url_list. rewrite Hg.
destruct (SortFacts.play_urls_of_short m3u8 (text resp) Hnd Hlen)
  as [x ->].
reflexivity.
Qed.

(** X22: A live room whose manifest gives at least as many bandwidths as
  URLs, none longer than the interpreter allows: the result is a live
  room with the [hls_source] of the API answer, and its play URLs are
  the collected URLs in some order, each rewritten. Two requests are
  made, to the API and for the manifest. *)
Theorem fetch_live (url username response m3u8 : string)
(d : list (string * Json)) (resp : Response) (e e1 e2 : Env) :
ChaturbateLiveStream._extract_username url = Ret username ->
username <> EmptyString ->
async_req (chaturbate_api username) e = (Ret response, e1) ->
json_loads response = Ret (JDict d) ->
hls_source_of d = JStr m3u8 ->
m3u8 <> EmptyString ->
session_get m3u8 e1 = (Ret resp, e2) ->
(List.length (MyLiveStream.collected_urls m3u8 (text resp))
 <= List.length (MyLiveStream.findall_bandwidth (text resp) O))%nat ->
(forall b, In b (MyLiveStream.findall_bandwidth (text resp) O) ->
   (String.length b <= Py.int_max_str_digits)%nat) ->
exists urls,
  ChaturbateLiveStream.fetch_web_stream_data url e
  = (Ret (Some (Live "Chaturbate" username m3u8
                  (map ChaturbateLiveStream.to_direct urls)
                  (username ++ "'s Chaturbate Stream")%string)),
     e2)
  /\ Permutation urls (MyLiveStream.collected_urls m3u8 (text resp)).
Proof.
intros Hu Hne Ha Hj Hh Hm Hg Hlen Hmax.
rewrite (fetch_after_api url username response d e e1 Hu Hne Ha Hj), Hh.
apply String.eqb_neq in Hm. cbn [json_truthy]. rewrite Hm. cbn [negb].
unfold MyLiveStream.get_cb_play_url_list. rewrite Hg.
destruct (SortFacts.play_urls_of_returns m3u8 (text resp) Hlen Hmax)
  as [urls Hr].
rewrite Hr. exists urls. split; [reflexivity|].
apply (SortFacts.play_urls_of_perm _ _ _ Hr).
Qed.

(** X23: The status of the answer to the request for the manifest is not
  looked at. Whatever it is, a text with no line that starts with
  [chunklist_] and no line that ends in [m3u8] (an error page, say)
  makes the room live with an empty list of play URLs. *)
Theorem fetch_live_without_urls (url username response m3u8 : string)
(d : list (string * Json)) (resp : Response) (e e1 e2 : Env) :
ChaturbateLiveStream._extract_username url = Ret username ->
username <> EmptyString ->
async_req (chaturbate_api username) e = (Ret response, e1) ->
json_loads response = Ret (JDict d) ->
hls_source_of d = JStr m3u8 ->
m3u8 <> EmptyString ->
session_get m3u8 e1 = (Ret resp, e2) ->
(forall line, In line (lines_of (text resp)) ->
   Py.startswith "chunklist_" line = false
   /\ Py.endswith "m3u8" (Py.strip line) = false) ->
ChaturbateLiveStream.fetch_web_stream_data url e
= (Ret (Some (Live "Chaturbate" username m3u8 []
                (username ++ "'s Chaturbate Stream")%string)),
   e2).
Proof.
intros Hu Hne Ha Hj Hh Hm Hg Hlines.
rewrite (fetch_after_api url username response d e e1 Hu Hne Ha Hj), Hh.
apply String.eqb_neq in Hm. cbn [json_truthy]. rewrite Hm. cbn [negb].
unfold MyLiveStream.get_cb_play_url_list. rewrite Hg.
rewrite (SortFacts.play_urls_of_empty m3u8 (text resp) Hlines).
reflexivity.
Qed.
End FetchFacts.

Lemma fetch_outcomes_witness :
  exists username d,
    ChaturbateLiveStream._extract_username (S := Site.services)
      (Site.room_url "bob") = Ret username
    /\ "bob" = username
    /\ json_truthy (hls_source_of d) = false.
Proof.
  destruct (fetch_outcomes (S := Site.services) (Site.room_url "bob")
              0%nat 1%nat (Some (NotLive "Chaturbate" "bob")) eq_refl)
    as (username & response & e1 & d & H1 & _ & _ & _ & H5 & _).
  destruct H5 as (_ & H6 & H7 & _).
  exists username, d. auto.
Defined.

(** The API does not know dave: the error of the request is raised. *)
Lemma fetch_raises_witness :
  exists username,
    ChaturbateLiveStream._extract_username (S := Site.services)
      (Site.room_url "dave") = Ret username
    /\ username <> EmptyString.
Proof.
  destruct (fetch_raises (S := Site.services) (Site.room_url "dave")
              0%nat 1%nat (LibraryError "ClientError") eq_refl)
    as [[Hno _]|(username & H1 & H2 & _)].
  - discriminate Hno.
  - exists username. auto.
Defined.

Lemma fetch_invalid_url_witness :
  ChaturbateLiveStream.fetch_web_stream_data (S := Site.services)
    "https://chaturbate.com//" 0%nat = (Raise ValueError, 0%nat)
  /\ ChaturbateLiveStream.fetch_web_stream_data (S := Site.services)
       "///" 0%nat = (Raise ValueError, 0%nat).
Proof.
  split.
  - apply (fetch_invalid_url (S := Site.services) "https://chaturbate.com//"
             {| netloc := "chaturbate.com"; path := "//" |} 2%nat);
      reflexivity.
  - apply (fetch_invalid_url (S := Site.services) "///"
             {| netloc := ""; path := "///" |} 3%nat);
      reflexivity.
Defined.

Lemma fetch_playlist_failure_witness :
  ChaturbateLiveStream.fetch_web_stream_data (S := Site.services)
    (Site.room_url "carol") 0%nat = (Ret None, 2%nat).
Proof.
  apply (fetch_playlist_failure (S := Site.services) (Site.room_url "carol")
           "carol" "carol-api" Site.carol_m3u8
           [("hls_source", JStr Site.carol_m3u8)]
           (Sample.ok Site.carol_manifest []) 0%nat 1%nat 2%nat);
    try reflexivity; try discriminate.
  - vm_compute. repeat constructor; simpl; intuition discriminate.
  - vm_compute. lia.
Defined.

Lemma fetch_live_witness :
  exists urls,
    ChaturbateLiveStream.fetch_web_stream_data (S := Site.services)
      (Site.room_url "alice") 0%nat
    = (Ret (Some (Live "Chaturbate" "alice" Site.alice_m3u8
                    (map ChaturbateLiveStream.to_direct urls)
                    "alice's Chaturbate Stream")),
       2%nat)
    /\ Permutation urls
         (MyLiveStream.collected_urls Site.alice_m3u8 Site.alice_manifest).
Proof.
  apply (fetch_live (S := Site.services) (Site.room_url "alice")
           "alice" "alice-api" Site.alice_m3u8
           [("hls_source", JStr Site.alice_m3u8)]
           (Sample.ok Site.alice_manifest []) 0%nat 1%nat 2%nat);
    try reflexivity; try discriminate.
  intros b Hin. vm_compute in Hin.
  destruct Hin as [<-|[<-|[]]]; apply Nat.leb_le; reflexivity.
Defined.

Example alice_is_live :
  ChaturbateLiveStream.fetch_web_stream_data (S := Site.services)
    (Site.room_url "alice") 0%nat
  = (Ret (Some (Live "Chaturbate" "alice" Site.alice_m3u8
                  ["https://edge8-sea.live.mmcdn.com/live-hls/alice/chunklist_high.m3u8";
                   "https://edge8-sea.live.mmcdn.com/live-hls/alice/chunklist_low.m3u8"]
                  "alice's Chaturbate Stream")),
     2%nat).
Proof. vm_compute. reflexivity. Qed.

Lemma fetch_live_without_urls_witness :
  status_code Site.not_found = 404
  /\ ChaturbateLiveStream.fetch_web_stream_data (S := Site.services)
       (Site.room_url "erin") 0%nat
     = (Ret (Some (Live "Chaturbate" "erin" Site.erin_m3u8 []
                     "erin's Chaturbate Stream")),
        2%nat).
Proof.
  split; [reflexivity|].
  apply (fetch_live_without_urls (S := Site.services) (Site.room_url "erin")
           "erin" "erin-api" Site.erin_m3u8
           [("hls_source", JStr Site.erin_m3u8)]
           Site.not_found 0%nat 1%nat 2%nat);
    try reflexivity; try discriminate.
  intros line Hin. vm_compute in Hin.
  destruct Hin as [<-|[]]; split; reflexivity.
Defined.
